(** * actors-cpp: a shallow embedding of the actor runtime

    The development follows the C++ sources:
    - [BQueue]   include/actors/BQueue.hpp   (the mailbox)
    - [Timer]    include/actors/act/Timer.hpp
    - [Runtime]  include/actors/Message.hpp, include/actors/Actor.hpp,
                 src/Actor.cpp, src/Group.cpp, src/Manager.cpp,
                 include/actors/remote/ZmqSender.hpp, ZmqReceiver.hpp,
                 Reject.hpp, Serialization.hpp

    Heap objects (actors, messages) live in finite maps indexed by their
    address; every C++ function becomes a computation in a small
    state-and-error monad over that heap. *)

From Stdlib Require Import ZArith List String Bool Lia.
From stdpp Require Import base option list gmap strings pretty.

Set Warnings "-register-all".
Local Open Scope Z_scope.

(* ===================================================================== *)
(** * The mailbox: include/actors/BQueue.hpp *)
(* ===================================================================== *)

Module BQueue.
Section WithElement.
Context {T : Type}.

(** boost::circular_buffer<T>, as far as BQueue uses it. *)
Record circular_buffer := mk_cb { capacity : nat; items : list T }.

Definition cb_empty (cb : circular_buffer) : bool :=
  match items cb with [] => true | _ :: _ => false end.

Definition cb_size (cb : circular_buffer) : nat := length (items cb).

Definition cb_full (cb : circular_buffer) : bool :=
  Nat.eqb (cb_size cb) (capacity cb).

Definition cb_front (cb : circular_buffer) : option T := head (items cb).

Definition cb_pop_front (cb : circular_buffer) : circular_buffer :=
  mk_cb (capacity cb) (tail (items cb)).

(** push_back on a full circular buffer overwrites the oldest element
    (and does nothing when the capacity is zero). *)
Definition cb_push_back (x : T) (cb : circular_buffer) : circular_buffer :=
  if cb_full cb
  then (if Nat.eqb (capacity cb) 0 then cb
        else mk_cb (capacity cb) (tail (items cb) ++ [x]))
  else mk_cb (capacity cb) (items cb ++ [x]).

(** std::deque<T>: front / pop_front / push_back. *)
Definition deque_empty (d : list T) : bool :=
  match d with [] => true | _ :: _ => false end.

Record t := mk { cb_ : circular_buffer; overflow_ : list T }.

(** explicit BQueue(size_t n) : cb_(n) {} *)
Definition new (n : nat) : t := mk (mk_cb n []) [].

(** pop(): [None] when the wait predicate is false (the caller stays
    blocked on the condition variable). *)
Definition pop (q : t) : option (T * bool * t) :=
  if negb (cb_empty (cb_ q)) || negb (deque_empty (overflow_ q)) then
    let '(ret, q1) :=
      if negb (cb_empty (cb_ q))
      then (cb_front (cb_ q), mk (cb_pop_front (cb_ q)) (overflow_ q))
      else (head (overflow_ q), mk (cb_ q) (tail (overflow_ q))) in
    let last := cb_empty (cb_ q1) && deque_empty (overflow_ q1) in
    match ret with
    | Some x => Some (x, last, q1)
    | None => None
    end
  else None.

Definition peek (q : t) : option T :=
  if cb_empty (cb_ q) && deque_empty (overflow_ q) then None
  else if negb (cb_empty (cb_ q)) then cb_front (cb_ q)
       else head (overflow_ q).

Definition push (x : T) (q : t) : t :=
  if negb (deque_empty (overflow_ q)) || cb_full (cb_ q)
  then mk (cb_ q) (overflow_ q ++ [x])
  else mk (cb_push_back x (cb_ q)) (overflow_ q).

Definition is_empty (q : t) : bool :=
  cb_empty (cb_ q) && deque_empty (overflow_ q).

Definition length (q : t) : nat :=
  (cb_size (cb_ q) + List.length (overflow_ q))%nat.

(** ** The queue the mailbox stands for *)

Definition contents (q : t) : list T := items (cb_ q) ++ overflow_ q.

(** A history of linearised mailbox operations. *)
Inductive op := Push (x : T) | Pop.

Fixpoint run (ops : list op) (q : t) : option (list (T * bool) * t) :=
  match ops with
  | [] => Some ([], q)
  | Push x :: rest => run rest (push x q)
  | Pop :: rest =>
      match pop q with
      | None => None
      | Some (x, last, q1) =>
          match run rest q1 with
          | None => None
          | Some (out, q2) => Some ((x, last) :: out, q2)
          end
      end
  end.

Fixpoint pushes (ops : list op) : list T :=
  match ops with
  | [] => []
  | Push x :: rest => x :: pushes rest
  | Pop :: rest => pushes rest
  end.

(** Every [Pop] of the history finds an element ([n] elements queued). *)
Fixpoint enabled (ops : list op) (n : nat) : bool :=
  match ops with
  | [] => true
  | Push _ :: rest => enabled rest (S n)
  | Pop :: rest => match n with O => false | S k => enabled rest k end
  end.

(** The last flags reported along a history, recomputed from the
    abstract queue alone. *)
Fixpoint last_flags (ops : list op) (n : nat) : list bool :=
  match ops with
  | [] => []
  | Push _ :: rest => last_flags rest (S n)
  | Pop :: rest =>
      match n with
      | O => []
      | S k => Nat.eqb k 0 :: last_flags rest k
      end
  end.

(** ** Basic facts *)

Lemma contents_push x q : contents (push x q) = contents q ++ [x].
Proof.
  unfold push, contents, cb_push_back.
  destruct (overflow_ q) as [|y o] eqn:Ho; simpl.
  - destruct (cb_full (cb_ q)) eqn:Hf; simpl.
    + by rewrite app_nil_r.
    + by rewrite !app_nil_r.
  - by rewrite <- app_assoc.
Qed.

Lemma pop_spec q :
  pop q =
  match items (cb_ q), overflow_ q with
  | x :: r, o =>
      Some (x, cb_empty (mk_cb (capacity (cb_ q)) r) && deque_empty o,
            mk (mk_cb (capacity (cb_ q)) r) o)
  | [], y :: o => Some (y, deque_empty o, mk (cb_ q) o)
  | [], [] => None
  end.
Proof.
  unfold pop, cb_empty, cb_front, cb_pop_front.
  destruct q as [[c its] o]; simpl.
  destruct its as [|x r]; simpl.
  - destruct o as [|y o]; simpl; reflexivity.
  - reflexivity.
Qed.

Lemma pop_contents q x l q' :
  pop q = Some (x, l, q') →
  contents q = x :: contents q' ∧ l = deque_empty (contents q').
Proof.
  rewrite pop_spec. unfold contents.
  destruct q as [[c its] o]; simpl.
  destruct its as [|y r]; simpl.
  - destruct o as [|y o]; [done|].
    intros [= <- <- <-]; simpl. done.
  - intros [= <- <- <-]; simpl. split; [done|].
    unfold cb_empty; simpl. by destruct r.
Qed.

Lemma pop_none q : pop q = None ↔ contents q = [].
Proof.
  rewrite pop_spec. unfold contents.
  destruct q as [[c its] o]; simpl.
  destruct its as [|y r]; simpl; [destruct o|]; split; done.
Qed.

Lemma run_fifo ops : ∀ q out q',
  run ops q = Some (out, q') →
  contents q ++ pushes ops = map fst out ++ contents q'.
Proof.
  induction ops as [|[x|] rest IH]; intros q out q' Hrun; simpl in *.
  - injection Hrun as <- <-. simpl. by rewrite app_nil_r.
  - apply IH in Hrun. rewrite contents_push in Hrun.
    by rewrite <- app_assoc in Hrun.
  - destruct (pop q) as [[[x l] q1]|] eqn:Hpop; [|done].
    destruct (run rest q1) as [[out1 q2]|] eqn:Hrest; [|done].
    injection Hrun as <- <-.
    apply pop_contents in Hpop as [Hc _].
    apply IH in Hrest. rewrite Hc. simpl. by rewrite Hrest.
Qed.

Lemma run_total ops : ∀ q,
  enabled ops (List.length (contents q)) = true →
  ∃ out q', run ops q = Some (out, q') ∧
            map snd out = last_flags ops (List.length (contents q)).
Proof.
  induction ops as [|[x|] rest IH]; intros q Hen; simpl in *.
  - by exists [], q.
  - destruct (IH (push x q)) as (out & q' & Hrun & Hl).
    + rewrite contents_push, length_app. simpl.
      by replace (List.length (contents q) + 1)%nat
        with (S (List.length (contents q))) by lia.
    + exists out, q'. split; [done|].
      rewrite Hl, contents_push, length_app. simpl.
      by replace (List.length (contents q) + 1)%nat
        with (S (List.length (contents q))) by lia.
  - destruct (pop q) as [[[x l] q1]|] eqn:Hpop.
    + apply pop_contents in Hpop as [Hc Hl]. rewrite Hc in *. simpl in *.
      destruct (IH q1 Hen) as (out & q' & Hrun & Hfl).
      rewrite Hrun. exists ((x, l) :: out), q'. split; [done|].
      simpl. rewrite Hfl. f_equal. rewrite Hl.
      by destruct (contents q1).
    + apply pop_none in Hpop. rewrite Hpop in Hen. done.
Qed.

Lemma push_overflow x q :
  cb_full (cb_ q) = true ∨ overflow_ q ≠ [] →
  push x q = mk (cb_ q) (overflow_ q ++ [x]).
Proof.
  intros H. unfold push.
  destruct (overflow_ q) as [|y o] eqn:Ho; simpl; [|done].
  destruct H as [->|H]; done.
Qed.

Lemma push_ring x q :
  cb_full (cb_ q) = false → overflow_ q = [] →
  push x q = mk (mk_cb (capacity (cb_ q)) (items (cb_ q) ++ [x])) [].
Proof.
  intros Hf Ho. unfold push, cb_push_back. by rewrite Ho, Hf.
Qed.

Lemma pop_last q x l q' :
  pop q = Some (x, l, q') →
  l = true ↔ items (cb_ q') = [] ∧ overflow_ q' = [].
Proof.
  intros H. apply pop_contents in H as [_ ->]. unfold contents.
  destruct (items (cb_ q')), (overflow_ q'); simpl; split;
    (done || by intros []).
Qed.

(** C1. The mailbox is one FIFO queue over its (ring, overflow) pair.
    push appends to the overflow deque exactly when the ring is full or
    the overflow is not empty, and to the ring otherwise; pop takes the
    head of the ring if the ring is not empty, else the head of the
    overflow, and waits when both are empty; so along every history of
    pushes and pops the elements come out in the order they went in, a
    history whose pops all find an element runs to its end, and the last
    flag of a pop is true exactly when both buffers are empty after the
    removal. *)
Theorem mailbox_is_fifo :
  (∀ x q, cb_full (cb_ q) = true ∨ overflow_ q ≠ [] →
          push x q = mk (cb_ q) (overflow_ q ++ [x])) ∧
  (∀ x q, cb_full (cb_ q) = false → overflow_ q = [] →
          push x q = mk (mk_cb (capacity (cb_ q)) (items (cb_ q) ++ [x])) []) ∧
  (∀ q, pop q =
        match items (cb_ q), overflow_ q with
        | x :: r, o =>
            Some (x, cb_empty (mk_cb (capacity (cb_ q)) r) && deque_empty o,
                  mk (mk_cb (capacity (cb_ q)) r) o)
        | [], y :: o => Some (y, deque_empty o, mk (cb_ q) o)
        | [], [] => None
        end) ∧
  (∀ ops q out q',
     run ops q = Some (out, q') →
     contents q ++ pushes ops = map fst out ++ contents q') ∧
  (∀ ops q,
     enabled ops (List.length (contents q)) = true →
     ∃ out q', run ops q = Some (out, q') ∧
               map snd out = last_flags ops (List.length (contents q))) ∧
  (∀ q x l q',
     pop q = Some (x, l, q') →
     l = true ↔ items (cb_ q') = [] ∧ overflow_ q' = []).
Proof.
  split; [apply push_overflow|]. split; [apply push_ring|].
  split; [apply pop_spec|]. split; [apply run_fifo|].
  split; [apply run_total|apply pop_last].
Qed.

Lemma length_contents q : length q = List.length (contents q).
Proof. unfold length, contents, cb_size. by rewrite length_app. Qed.

(** X1. peek() shows the element the next pop() removes and nullptr
    (here [None]) exactly when the queue is empty; the queue is empty
    exactly when pop() has to wait, and exactly when length() is zero. *)
Theorem peek_is_next_pop (q : t) :
  (peek q = None ↔ is_empty q = true) ∧
  (is_empty q = true ↔ pop q = None) ∧
  (is_empty q = true ↔ length q = 0%nat) ∧
  (∀ x, peek q = Some x ↔ ∃ l q', pop q = Some (x, l, q')).
Proof.
  rewrite pop_spec. unfold peek, is_empty, length, cb_size, cb_empty,
    cb_front, deque_empty.
  destruct q as [[c its] o]; simpl.
  destruct its as [|y r]; [destruct o as [|z o]|]; simpl;
    split_and!; try done; intros x0; split;
    try done; try (by intros (? & ? & ?));
    try (intros [= <-]; eauto); by intros (? & ? & [= <- _ _]).
Qed.

(** X2. length() counts the elements pushed and not yet popped: along
    every history, the length at the end plus the number of elements
    popped is the length at the start plus the number of pushes. *)
Theorem length_counts_pending (ops : list op) (q : t)
    (out : list (T * bool)) (q' : t) :
  run ops q = Some (out, q') →
  (length q' + List.length out = length q + List.length (pushes ops))%nat.
Proof.
  intros H. apply run_fifo in H. apply (f_equal (@List.length T)) in H.
  rewrite !length_app, length_map in H. rewrite !length_contents. lia.
Qed.

End WithElement.
Arguments t : clear implicits.
Arguments circular_buffer : clear implicits.
Arguments op : clear implicits.

(** A mailbox with a ring of two slots: 1, 2 and 3 are pushed (3 goes to
    the overflow), one element is popped, 4 is pushed behind 3 although
    the ring has room again, and three more elements are popped. *)
Definition example_history : list (op nat) :=
  [Push 1%nat; Push 2%nat; Push 3%nat; Pop; Push 4%nat; Pop; Pop; Pop].

Example example_history_runs :
  run example_history (new 2) =
  Some ([(1%nat, false); (2%nat, false); (3%nat, false); (4%nat, true)],
        new 2).
Proof. reflexivity. Qed.

Lemma mailbox_is_fifo_witness :
  ∃ out q',
    run example_history (new 2) = Some (out, q') ∧
    map snd out =
    last_flags example_history (List.length (contents (new (T:=nat) 2))).
Proof.
  destruct (mailbox_is_fifo (T:=nat)) as (_ & _ & _ & _ & Htotal & _).
  exact (Htotal example_history (new 2) eq_refl).
Defined.

Lemma length_counts_pending_witness :
  (length (new (T:=nat) 2) + 4 =
   length (new (T:=nat) 2) + List.length (pushes example_history))%nat.
Proof.
  exact (length_counts_pending example_history (new 2)
           [(1%nat, false); (2%nat, false); (3%nat, false); (4%nat, true)]
           (new 2) eq_refl).
Defined.


End BQueue.

(* ===================================================================== *)
(** * Timer: include/actors/act/Timer.hpp *)
(* ===================================================================== *)

Module Timer.

Definition INT_MIN : Z := -2147483648.
Definition INT_MAX : Z := 2147483647.

Definition in_int (z : Z) : bool := (INT_MIN <=? z) && (z <=? INT_MAX).

(** int(x) of a 64-bit value: the value modulo 2^32. *)
Definition to_int (z : Z) : Z := (z + 2147483648) mod 4294967296 - 2147483648.

(** static void sleep(int seconds, int msecs):
    std::chrono::milliseconds(seconds * 1000 + msecs), computed in int;
    [None] when the arithmetic overflows.  sleep_for returns at once for a
    duration that is not positive. *)
Definition sleep (seconds msecs : Z) : option Z :=
  if in_int (seconds * 1000) then
    if in_int (seconds * 1000 + msecs) then Some (seconds * 1000 + msecs)
    else None
  else None.

(** The body of wake_up_at up to the start of the thread: [curr_ms] is
    time_since_midnight.count(), a 64-bit count of milliseconds;
    curr_ms % interval_ms truncates towards zero and is undefined for
    interval_ms = 0 ([None]). *)
Definition time_to_wait (curr_ms interval_ms : Z) : option Z :=
  if interval_ms =? 0 then None
  else
    let rounded_down := curr_ms - Z.rem curr_ms interval_ms in
    let next_timeout := rounded_down + interval_ms in
    Some (next_timeout - curr_ms).

(** The milliseconds the thread of wake_up_at sleeps before it sends the
    Timeout: sleep(0, int(time_to_wait)). *)
Definition wake_up_at_delay (curr_ms interval_ms : Z) : option Z :=
  match time_to_wait curr_ms interval_ms with
  | Some t => sleep 0 (to_int t)
  | None => None
  end.

(** static void wake_up_in(Actor*, int seconds, int msecs, int data):
    the thread sleeps sleep(seconds, msecs). *)
Definition wake_up_in_delay (seconds msecs : Z) : option Z :=
  sleep seconds msecs.

(** X4. wake_up_at with a positive interval wakes the subscriber at the
    next multiple of the interval after the current time of day: the
    delay is between 1 and interval_ms milliseconds, the wake-up time is
    a multiple of interval_ms, and a call made exactly on a boundary
    waits a whole interval, never zero. *)
Theorem wake_up_at_next_boundary (curr_ms interval_ms : Z) :
  0 ≤ curr_ms →
  0 < interval_ms ≤ INT_MAX →
  ∃ d, wake_up_at_delay curr_ms interval_ms = Some d ∧
       1 ≤ d ≤ interval_ms ∧
       (curr_ms + d) mod interval_ms = 0 ∧
       (curr_ms mod interval_ms = 0 → d = interval_ms).
Proof.
  intros Hc [Hi Hmax]. unfold wake_up_at_delay, time_to_wait.
  destruct (Z.eqb_spec interval_ms 0) as [->|_]; [lia|].
  rewrite Z.rem_mod_nonneg by lia.
  pose proof (Z.mod_pos_bound curr_ms interval_ms Hi) as Hm.
  set (r := curr_ms mod interval_ms) in *.
  set (d := curr_ms - r + interval_ms - curr_ms).
  assert (d = interval_ms - r) as Hd by (unfold d; lia).
  assert (to_int d = d) as Hint.
  { unfold to_int. rewrite Z.mod_small; unfold INT_MAX in *; lia. }
  exists d. rewrite Hint. split.
  - unfold sleep. change (0 * 1000) with 0. rewrite Z.add_0_l.
    assert (in_int d = true) as ->; [|done].
    unfold in_int, INT_MIN, INT_MAX in *. lia.
  - split; [lia|]. split; [|intros; lia].
    replace (curr_ms + d)
      with (interval_ms * (curr_ms / interval_ms + 1)).
    + rewrite Z.mul_comm. apply Z_mod_mult.
    + pose proof (Z.div_mod curr_ms interval_ms ltac:(lia)) as E.
      fold r in E. lia.
Qed.

Lemma wake_up_at_next_boundary_witness :
  ∃ d, wake_up_at_delay 3000 1000 = Some d ∧
       1 ≤ d ≤ 1000 ∧
       (3000 + d) mod 1000 = 0 ∧
       (3000 mod 1000 = 0 → d = 1000).
Proof.
  apply (wake_up_at_next_boundary 3000 1000); unfold INT_MAX; lia.
Defined.

(** At 12.3 s past midnight a one-second interval waits 700 ms; on the
    boundary it waits the whole second. *)
Example wake_up_at_delays :
  wake_up_at_delay 12300 1000 = Some 700 ∧
  wake_up_at_delay 12000 1000 = Some 1000 ∧
  wake_up_at_delay 12300 0 = None ∧
  wake_up_in_delay 2147484 0 = None.
Proof. repeat apply conj; reflexivity. Qed.

End Timer.

(* ===================================================================== *)
(** * Messages, actors and the heap
      include/actors/Message.hpp, include/actors/Actor.hpp *)
(* ===================================================================== *)

Module Runtime.

(** Addresses of heap objects.  [nullptr] is [None] wherever the code
    tests for it; a parameter the code dereferences at once is a plain
    address. *)
Abbreviation actor_ptr := nat (only parsing).
Abbreviation msg_ptr := nat (only parsing).

(** std::type_index(typeid( *m )): the dynamic class of a message.  The
    classes this repository declares, and the classes of the embedding
    program. *)
Inductive type_index :=
| Start | Continue | Shutdown | RemoteSendRequest | Reject
| UserType (n : nat).

#[global] Instance type_index_eq_dec : EqDecision type_index.
Proof. solve_decision. Defined.

Definition type_index_code (t : type_index) : nat :=
  match t with
  | Start => 0 | Continue => 1 | Shutdown => 2 | RemoteSendRequest => 3
  | Reject => 4 | UserType n => 5 + n
  end%nat.

Definition type_index_of_code (c : nat) : type_index :=
  match c with
  | 0 => Start | 1 => Continue | 2 => Shutdown | 3 => RemoteSendRequest
  | 4 => Reject | S (S (S (S (S n)))) => UserType n
  end%nat.

#[global] Instance type_index_countable : Countable type_index.
Proof.
  apply (inj_countable' type_index_code type_index_of_code).
  by intros [].
Defined.

(** nlohmann::json documents, and the data members a message class adds
    to [Message] (kept as a document, field by field). *)
Inductive json :=
| JNull
| JBool (b : bool)
| JNumber (z : Z)
| JString (s : string)
| JArray (elems : list json)
| JObject (fields : list (string * json)).

(** struct Message *)
Record Message := mkMessage {
  mtype : type_index;                 (* typeid( *this ) *)
  body : json;                        (* members of the derived class *)
  sender : option actor_ptr;
  destination : option actor_ptr;
  is_fast : bool;
  last : bool
}.

(** Message() = default, for an object of class [t]. *)
Definition Message_new (t : type_index) (b : json) : Message :=
  mkMessage t b None None false false.

(** typedef void (Actor::*generic_handler_t)(const Message * ): the member
    functions that are registered as handlers. *)
Inductive handler :=
| UserHandler (n : nat)            (* &ActorT::on_... of a user class *)
| Ptr_Group_start_handler          (* &Group::start_handler *)
| Ptr_Group_shutdown_handler.      (* &Group::shutdown_handler *)

#[global] Instance handler_eq_dec : EqDecision handler.
Proof. solve_decision. Defined.

(** What the code of an embedding program does through the Actor API:
    reply(...), target->send(..., sender), terminated = true. *)
Inductive msg_src :=
| NewMsg (t : type_index) (b : json)   (* new T(...) *)
| Ptr (p : msg_ptr).

Inductive cmd :=
| CmdReply (m : msg_src)
| CmdSend (target : actor_ptr) (m : msg_src) (from : option actor_ptr)
| CmdSetTerminated.

(** The virtual functions and handlers of a user-defined Actor class. *)
Record UserCode := mkUserCode {
  on_init : list cmd;
  on_end : list cmd;
  on_process_message : list cmd;
  on_handler : list (list cmd)     (* body of [UserHandler n] *)
}.

(** The dynamic class of an actor object, with the data members the
    derived class adds (Group.hpp, Manager.hpp, ZmqSender.hpp,
    ZmqReceiver.hpp). *)
Inductive actor_class :=
| UserClass (code : UserCode)
| GroupClass (group_name : string) (members : list actor_ptr)
    (name_to_actor : gmap string actor_ptr)
| ManagerClass (actor_list : list actor_ptr) (thread_list : list actor_ptr)
    (managed_name_map expanded_name_map : gmap string actor_ptr)
| ZmqSenderClass (local_endpoint_ : string)
| RemoteReplyProxyClass (zmq_sender : actor_ptr)
    (remote_actor_ remote_endpoint_ : string).

(** class Actor *)
Record Actor := mkActor {
  cls : actor_class;
  name : string;
  terminated : bool;
  reply_to : option actor_ptr;
  msg_cnt : Z;
  msgq : BQueue.t msg_ptr;
  fast_send_mutex : bool;             (* true while the mutex is held *)
  using_fast_send : bool;
  reply_message : option msg_ptr;
  group : option actor_ptr;
  handler_cache : list (option handler);
  dont_have_handler : list bool;
  is_managed : bool;
  is_part_of_group : bool;
  affinity : list Z;
  priority : Z;
  priority_type : Z;
  manager : option actor_ptr;
  tid : Z;
  handlers : gmap type_index handler
}.

Definition ACTOR_BQUEUE_SIZE : nat := 64.
Definition ACTOR_HANDLER_CACHE_SIZE : nat := 512.

(** Actor::Actor() for an object of class [c]; [type_name] is
    typeid( *this ).name(). *)
Definition Actor_new (c : actor_class) (type_name : string) : Actor :=
  mkActor c type_name false None 0 (BQueue.new ACTOR_BQUEUE_SIZE)
    false false None None
    (replicate ACTOR_HANDLER_CACHE_SIZE None)
    (replicate ACTOR_HANDLER_CACHE_SIZE false)
    false false [] 0 0 None 0 ∅.

Definition with_cls (v : actor_class) (a : Actor) : Actor :=
  mkActor v (name a) (terminated a) (reply_to a) (msg_cnt a) (msgq a)
    (fast_send_mutex a) (using_fast_send a) (reply_message a) (group a)
    (handler_cache a) (dont_have_handler a) (is_managed a) (is_part_of_group
    a) (affinity a) (priority a) (priority_type a) (manager a) (tid a)
    (handlers a).

Definition with_name (v : string) (a : Actor) : Actor :=
  mkActor (cls a) v (terminated a) (reply_to a) (msg_cnt a) (msgq a)
    (fast_send_mutex a) (using_fast_send a) (reply_message a) (group a)
    (handler_cache a) (dont_have_handler a) (is_managed a) (is_part_of_group
    a) (affinity a) (priority a) (priority_type a) (manager a) (tid a)
    (handlers a).

Definition with_terminated (v : bool) (a : Actor) : Actor :=
  mkActor (cls a) (name a) v (reply_to a) (msg_cnt a) (msgq a)
    (fast_send_mutex a) (using_fast_send a) (reply_message a) (group a)
    (handler_cache a) (dont_have_handler a) (is_managed a) (is_part_of_group
    a) (affinity a) (priority a) (priority_type a) (manager a) (tid a)
    (handlers a).

Definition with_reply_to (v : option nat) (a : Actor) : Actor :=
  mkActor (cls a) (name a) (terminated a) v (msg_cnt a) (msgq a)
    (fast_send_mutex a) (using_fast_send a) (reply_message a) (group a)
    (handler_cache a) (dont_have_handler a) (is_managed a) (is_part_of_group
    a) (affinity a) (priority a) (priority_type a) (manager a) (tid a)
    (handlers a).

Definition with_msg_cnt (v : Z) (a : Actor) : Actor :=
  mkActor (cls a) (name a) (terminated a) (reply_to a) v (msgq a)
    (fast_send_mutex a) (using_fast_send a) (reply_message a) (group a)
    (handler_cache a) (dont_have_handler a) (is_managed a) (is_part_of_group
    a) (affinity a) (priority a) (priority_type a) (manager a) (tid a)
    (handlers a).

Definition with_msgq (v : BQueue.t nat) (a : Actor) : Actor :=
  mkActor (cls a) (name a) (terminated a) (reply_to a) (msg_cnt a) v
    (fast_send_mutex a) (using_fast_send a) (reply_message a) (group a)
    (handler_cache a) (dont_have_handler a) (is_managed a) (is_part_of_group
    a) (affinity a) (priority a) (priority_type a) (manager a) (tid a)
    (handlers a).

Definition with_fast_send_mutex (v : bool) (a : Actor) : Actor :=
  mkActor (cls a) (name a) (terminated a) (reply_to a) (msg_cnt a) (msgq a)
    v (using_fast_send a) (reply_message a) (group a) (handler_cache a)
    (dont_have_handler a) (is_managed a) (is_part_of_group a) (affinity a)
    (priority a) (priority_type a) (manager a) (tid a) (handlers a).

Definition with_using_fast_send (v : bool) (a : Actor) : Actor :=
  mkActor (cls a) (name a) (terminated a) (reply_to a) (msg_cnt a) (msgq a)
    (fast_send_mutex a) v (reply_message a) (group a) (handler_cache a)
    (dont_have_handler a) (is_managed a) (is_part_of_group a) (affinity a)
    (priority a) (priority_type a) (manager a) (tid a) (handlers a).

Definition with_reply_message (v : option nat) (a : Actor) : Actor :=
  mkActor (cls a) (name a) (terminated a) (reply_to a) (msg_cnt a) (msgq a)
    (fast_send_mutex a) (using_fast_send a) v (group a) (handler_cache a)
    (dont_have_handler a) (is_managed a) (is_part_of_group a) (affinity a)
    (priority a) (priority_type a) (manager a) (tid a) (handlers a).

Definition with_group (v : option nat) (a : Actor) : Actor :=
  mkActor (cls a) (name a) (terminated a) (reply_to a) (msg_cnt a) (msgq a)
    (fast_send_mutex a) (using_fast_send a) (reply_message a) v (handler_cache
    a) (dont_have_handler a) (is_managed a) (is_part_of_group a) (affinity a)
    (priority a) (priority_type a) (manager a) (tid a) (handlers a).

Definition with_handler_cache (v : list (option handler)) (a : Actor) : Actor :=
  mkActor (cls a) (name a) (terminated a) (reply_to a) (msg_cnt a) (msgq a)
    (fast_send_mutex a) (using_fast_send a) (reply_message a) (group a) v
    (dont_have_handler a) (is_managed a) (is_part_of_group a) (affinity a)
    (priority a) (priority_type a) (manager a) (tid a) (handlers a).

Definition with_dont_have_handler (v : list bool) (a : Actor) : Actor :=
  mkActor (cls a) (name a) (terminated a) (reply_to a) (msg_cnt a) (msgq a)
    (fast_send_mutex a) (using_fast_send a) (reply_message a) (group a)
    (handler_cache a) v (is_managed a) (is_part_of_group a) (affinity a)
    (priority a) (priority_type a) (manager a) (tid a) (handlers a).

Definition with_is_managed (v : bool) (a : Actor) : Actor :=
  mkActor (cls a) (name a) (terminated a) (reply_to a) (msg_cnt a) (msgq a)
    (fast_send_mutex a) (using_fast_send a) (reply_message a) (group a)
    (handler_cache a) (dont_have_handler a) v (is_part_of_group a) (affinity
    a) (priority a) (priority_type a) (manager a) (tid a) (handlers a).

Definition with_is_part_of_group (v : bool) (a : Actor) : Actor :=
  mkActor (cls a) (name a) (terminated a) (reply_to a) (msg_cnt a) (msgq a)
    (fast_send_mutex a) (using_fast_send a) (reply_message a) (group a)
    (handler_cache a) (dont_have_handler a) (is_managed a) v (affinity a)
    (priority a) (priority_type a) (manager a) (tid a) (handlers a).

Definition with_affinity (v : list Z) (a : Actor) : Actor :=
  mkActor (cls a) (name a) (terminated a) (reply_to a) (msg_cnt a) (msgq a)
    (fast_send_mutex a) (using_fast_send a) (reply_message a) (group a)
    (handler_cache a) (dont_have_handler a) (is_managed a) (is_part_of_group
    a) v (priority a) (priority_type a) (manager a) (tid a) (handlers a).

Definition with_priority (v : Z) (a : Actor) : Actor :=
  mkActor (cls a) (name a) (terminated a) (reply_to a) (msg_cnt a) (msgq a)
    (fast_send_mutex a) (using_fast_send a) (reply_message a) (group a)
    (handler_cache a) (dont_have_handler a) (is_managed a) (is_part_of_group
    a) (affinity a) v (priority_type a) (manager a) (tid a) (handlers a).

Definition with_priority_type (v : Z) (a : Actor) : Actor :=
  mkActor (cls a) (name a) (terminated a) (reply_to a) (msg_cnt a) (msgq a)
    (fast_send_mutex a) (using_fast_send a) (reply_message a) (group a)
    (handler_cache a) (dont_have_handler a) (is_managed a) (is_part_of_group
    a) (affinity a) (priority a) v (manager a) (tid a) (handlers a).

Definition with_manager (v : option nat) (a : Actor) : Actor :=
  mkActor (cls a) (name a) (terminated a) (reply_to a) (msg_cnt a) (msgq a)
    (fast_send_mutex a) (using_fast_send a) (reply_message a) (group a)
    (handler_cache a) (dont_have_handler a) (is_managed a) (is_part_of_group
    a) (affinity a) (priority a) (priority_type a) v (tid a) (handlers a).

Definition with_tid (v : Z) (a : Actor) : Actor :=
  mkActor (cls a) (name a) (terminated a) (reply_to a) (msg_cnt a) (msgq a)
    (fast_send_mutex a) (using_fast_send a) (reply_message a) (group a)
    (handler_cache a) (dont_have_handler a) (is_managed a) (is_part_of_group
    a) (affinity a) (priority a) (priority_type a) (manager a) v (handlers a).

Definition with_handlers (v : gmap type_index handler) (a : Actor) : Actor :=
  mkActor (cls a) (name a) (terminated a) (reply_to a) (msg_cnt a) (msgq a)
    (fast_send_mutex a) (using_fast_send a) (reply_message a) (group a)
    (handler_cache a) (dont_have_handler a) (is_managed a) (is_part_of_group
    a) (affinity a) (priority a) (priority_type a) (manager a) (tid a) v.


(** ** The trace of calls

    Ghost state: every API call and every hook or handler invocation is
    recorded, together with the calls made inside it. *)
Inductive call :=
| CallSend (target : actor_ptr) (m : msg_ptr) (from : option actor_ptr)
| CallFastSend (target : actor_ptr) (m : msg_ptr) (t : type_index)
    (from : option actor_ptr)
| CallReply (self : actor_ptr) (m : msg_ptr)
| CallHandler (self : actor_ptr) (h : handler) (m : msg_ptr)
| CallProcessMessage (self : actor_ptr) (m : msg_ptr)
| CallProcessMessageInternal (self : actor_ptr) (m : msg_ptr)
    (t : type_index) (dontdel : bool)
| CallInit (self : actor_ptr)
| CallEnd (self : actor_ptr)
| CallSendTo (zmq_sender : actor_ptr) (endpoint actor_name : string)
    (m : Message) (from : option actor_ptr)
| OsThread (actor : actor_ptr)
| OsSetAffinity (actor : actor_ptr) (cores : list Z)
| OsSetSchedParam (actor : actor_ptr) (policy prio : Z)
| OsJoin (actor : actor_ptr)
| OsPerror (what : string).

Inductive event := Ev (c : call) (inner : list event).

Definition ev_call (e : event) : call := let 'Ev c _ := e in c.
Definition ev_inner (e : event) : list event := let 'Ev _ i := e in i.

(** ** The heap *)
Record World := mkWorld {
  actors : gmap actor_ptr Actor;
  messages : gmap msg_ptr Message;
  trace : list event
}.

Definition with_actors (v : gmap actor_ptr Actor) (w : World) : World :=
  mkWorld v (messages w) (trace w).
Definition with_messages (v : gmap msg_ptr Message) (w : World) : World :=
  mkWorld (actors w) v (trace w).
Definition with_trace (v : list event) (w : World) : World :=
  mkWorld (actors w) (messages w) v.

(** ** Ways a computation ends without a result *)
Inductive fault :=
| AssertionFailed (what : string)  (* assert(...) aborts the process *)
| NullPointer                      (* a nullptr is dereferenced *)
| DanglingPointer                  (* the object was freed or never made *)
| OutOfBounds                      (* std::vector::operator[] past the end *)
| SignedOverflow                   (* a long long is incremented past its max *)
| Deadlock                         (* a std::mutex is locked twice *)
| Blocked                          (* pop() waits on an empty mailbox *)
| BadCast                          (* a handler called on a foreign class *)
| JsonException
| RuntimeError (what : string)
| ProcessExit
| OutOfFuel.

Inductive result (A : Type) :=
| Ok (x : A)
| Err (e : fault).
Arguments Ok {A} x.
Arguments Err {A} e.

(** Computations over the heap. *)
Definition M (A : Type) : Type := World → result (A * World).

Definition ret {A} (x : A) : M A := λ w, Ok (x, w).

Definition bind {A B} (c : M A) (k : A → M B) : M B :=
  λ w, match c w with
       | Ok (x, w') => k x w'
       | Err e => Err e
       end.

Definition throw {A} (e : fault) : M A := λ _, Err e.

Notation "'let*' x ':=' c 'in' k" := (bind c (λ x, k))
  (at level 10, x binder, c at level 100, k at level 200).
Notation "c1 '>>' c2" := (bind c1 (λ _, c2))
  (at level 100, c2 at level 200, right associativity).

Definition assert (b : bool) (what : string) : M unit :=
  if b then ret tt else throw (AssertionFailed what).

(** *p for a pointer that may be null. *)
Definition deref (p : option nat) : M nat :=
  match p with
  | Some a => ret a
  | None => throw NullPointer
  end.

Definition get_actor (a : actor_ptr) : M Actor :=
  λ w, match actors w !! a with
       | Some x => Ok (x, w)
       | None => Err DanglingPointer
       end.

Definition update_actor (a : actor_ptr) (f : Actor → Actor) : M unit :=
  λ w, match actors w !! a with
       | Some x => Ok (tt, with_actors (<[a := f x]> (actors w)) w)
       | None => Err DanglingPointer
       end.

Definition new_actor (x : Actor) : M actor_ptr :=
  λ w, let a := fresh (dom (actors w)) in
       Ok (a, with_actors (<[a := x]> (actors w)) w).

Definition get_message (m : msg_ptr) : M Message :=
  λ w, match messages w !! m with
       | Some x => Ok (x, w)
       | None => Err DanglingPointer
       end.

Definition update_message (m : msg_ptr) (f : Message → Message) : M unit :=
  λ w, match messages w !! m with
       | Some x => Ok (tt, with_messages (<[m := f x]> (messages w)) w)
       | None => Err DanglingPointer
       end.

(** new T(...) *)
Definition new_message (x : Message) : M msg_ptr :=
  λ w, let m := fresh (dom (messages w)) in
       Ok (m, with_messages (<[m := x]> (messages w)) w).

(** delete m *)
Definition delete_message (m : msg_ptr) : M unit :=
  λ w, match messages w !! m with
       | Some _ => Ok (tt, with_messages (delete m (messages w)) w)
       | None => Err DanglingPointer
       end.

(** The destructor of a std::unique_ptr<const Message> temporary. *)
Definition drop_unique_ptr (p : option msg_ptr) : M unit :=
  match p with
  | Some m => delete_message m
  | None => ret tt
  end.

(** Records the call [c] around [body]; the calls made by [body] become
    the inner events of [c]. *)
Definition call_scope {A} (c : call) (body : M A) : M A :=
  λ w, match body (with_trace [] w) with
       | Ok (x, w') => Ok (x, with_trace (trace w ++ [Ev c (trace w')]) w')
       | Err e => Err e
       end.

(** An event that makes no further calls. *)
Definition emit (c : call) : M unit := call_scope c (ret tt).

Fixpoint for_each {X} (l : list X) (f : X → M unit) : M unit :=
  match l with
  | [] => ret tt
  | x :: rest => f x >> for_each rest f
  end.

(** v[i] of a std::vector, [i] an int converted to size_t. *)
Definition vector_at {X} (v : list X) (i : Z) : M X :=
  if (0 <=? i) && (i <? Z.of_nat (length v))
  then match v !! Z.to_nat i with
       | Some x => ret x
       | None => throw OutOfBounds
       end
  else throw OutOfBounds.

Definition vector_in_range {X} (v : list X) (i : Z) : M unit :=
  if (0 <=? i) && (i <? Z.of_nat (length v)) then ret tt
  else throw OutOfBounds.

(** std::lock_guard<std::mutex> lock(fast_send_mutex), and its
    destructor. *)
Definition lock (a : actor_ptr) : M unit :=
  let* x := get_actor a in
  if fast_send_mutex x then throw Deadlock
  else update_actor a (with_fast_send_mutex true).

Definition unlock (a : actor_ptr) : M unit :=
  update_actor a (with_fast_send_mutex false).

Definition LLONG_MAX : Z := 9223372036854775807.

(** msg_cnt++ on the long long counter of an actor: incrementing
    LLONG_MAX is undefined behaviour. *)
Definition incr_msg_cnt (a : actor_ptr) : M unit :=
  λ w, match actors w !! a with
       | Some x =>
           if msg_cnt x <? LLONG_MAX
           then Ok (tt, with_actors
                          (<[a := with_msg_cnt (msg_cnt x + 1) x]> (actors w))
                          w)
           else Err SignedOverflow
       | None => Err DanglingPointer
       end.

(* ===================================================================== *)
(** * The actor runtime: src/Actor.cpp, src/Group.cpp, src/Manager.cpp *)
(* ===================================================================== *)

(** ** include/actors/remote/Serialization.hpp *)

(** What a DeserializeFn does with a document: it returns a new message,
    returns nullptr, or throws nlohmann::json::exception. *)
Inductive decoded :=
| Decoded (m : Message)
| DecodedNull
| DecodeThrows.

Record RegistryEntry := mkRegistryEntry {
  type_name : string;
  serialize : Message → json;
  deserialize : json → decoded
}.

(** class MessageRegistry *)
Record MessageRegistry := mkMessageRegistry {
  id_to_entry_ : gmap Z RegistryEntry;
  name_to_entry_ : gmap string RegistryEntry
}.

Definition register_message (msg_id : Z) (tn : string)
    (ser : Message → json) (deser : json → decoded) (r : MessageRegistry)
  : MessageRegistry :=
  let entry := mkRegistryEntry tn ser deser in
  mkMessageRegistry (<[msg_id := entry]> (id_to_entry_ r))
                    (<[tn := entry]> (name_to_entry_ r)).

(** The environment of a run: get_message_id() of the message classes of
    the embedding program ([Message_N<N>] returns [N]), the answers of the
    operating system, and the registry singleton as the static
    initialisers of the program filled it. *)
Record Env := mkEnv {
  user_message_id : nat → Z;
  nprocs : Z;                          (* sysconf(_SC_NPROCESSORS_ONLN) *)
  pthread_setaffinity_np : actor_ptr → list Z → Z;
  pthread_setschedparam : actor_ptr → Z → Z → Z;
  gettid : actor_ptr → Z;              (* syscall(SYS_gettid) *)
  registry : MessageRegistry           (* MessageRegistry::instance() *)
}.

Section Program.

Variable env : Env.

(** Modelled from the spec: actors/msg/Start.hpp, actors/msg/Continue.hpp
    and actors/msg/Shutdown.hpp are not part of the sources at hand; the
    identities 0, 1 and 5 are the ones reserved for them (the worker loop
    in Actor.cpp tests for 5).  RemoteSendRequest is [Message_N<8>] and
    Reject is [Message_N<9>]. *)
Definition get_message_id (t : type_index) : Z :=
  match t with
  | Start => 0
  | Continue => 1
  | Shutdown => 5
  | RemoteSendRequest => 8
  | Reject => 9
  | UserType n => user_message_id env n
  end.

Definition SCHED_OTHER : Z := 0.
Definition SCHED_FIFO : Z := 1.
Definition SCHED_RR : Z := 2.
Definition EINVAL : Z := 22.

(** virtual const char* get_name() const *)
Definition get_name (x : Actor) : string :=
  match cls x with
  | GroupClass group_name _ _ => group_name
  | _ => name x
  end.

(** virtual bool is_group() const *)
Definition is_group (x : Actor) : bool :=
  match cls x with
  | GroupClass _ _ _ => true
  | _ => false
  end.

(** void Actor::add_message_to_queue(const Message *m) *)
Definition add_message_to_queue (this : actor_ptr) (m : msg_ptr) : M unit :=
  update_actor this (λ x, with_msgq (BQueue.push m (msgq x)) x).

(** void Actor::send(const Message *m, Actor *sender) noexcept *)
Definition send (this : actor_ptr) (m : msg_ptr) (from : option actor_ptr)
  : M unit :=
  call_scope (CallSend this m from) (
    let* x := get_actor this in
    if terminated x then ret tt
    else
      let* msg := get_message m in
      assert (bool_decide (destination msg = None)) "cannot reuse message" >>
      update_message m (λ msg,
        mkMessage (mtype msg) (body msg) from (Some this) false false) >>
      if is_part_of_group x then
        let* g := deref (group x) in
        add_message_to_queue g m
      else add_message_to_queue this m).

(** void Actor::reply(const Message *m) noexcept *)
Definition reply (this : actor_ptr) (m : msg_ptr) : M unit :=
  call_scope (CallReply this m) (
    let* x := get_actor this in
    if using_fast_send x then
      update_message m (λ msg,
        mkMessage (mtype msg) (body msg) (Some this) (destination msg)
          (is_fast msg) (last msg)) >>
      update_actor this (with_reply_message (Some m))
    else
      assert (bool_decide (reply_to x ≠ None)) "no return address" >>
      let* r := deref (reply_to x) in
      send r m (Some this)).

(** void Actor::set_group(Actor *pgroup) *)
Definition set_group (this pgroup : actor_ptr) : M unit :=
  update_actor this (λ x, with_group (Some pgroup) (with_is_part_of_group true x)).

(** Running the code of the embedding program. *)
Definition resolve (src : msg_src) : M msg_ptr :=
  match src with
  | NewMsg t b => new_message (Message_new t b)
  | Ptr p => ret p
  end.

Definition exec_cmd (this : actor_ptr) (c : cmd) : M unit :=
  match c with
  | CmdReply src => let* p := resolve src in reply this p
  | CmdSend target src from => let* p := resolve src in send target p from
  | CmdSetTerminated => update_actor this (with_terminated true)
  end.

Fixpoint exec (this : actor_ptr) (body : list cmd) : M unit :=
  match body with
  | [] => ret tt
  | c :: rest => exec_cmd this c >> exec this rest
  end.

(** ZmqSender::on_send_request: the envelope put on the wire. *)
Definition envelope_of (sender_name sender_endpoint actor_name message_type
    : string) (message : json) : json :=
  JObject [
    ("sender_actor",
      if bool_decide (sender_name = "") then JNull else JString sender_name);
    ("sender_endpoint",
      if bool_decide (sender_name = "") then JNull
      else JString sender_endpoint);
    ("receiver", JString actor_name);
    ("message_type", JString message_type);
    ("message", message) ].

(** ** The functions that call each other through handlers

    [fast_send_rec] and [process_message_internal_rec] stand for
    Actor::fast_send and Actor::process_message_internal one call
    deeper. *)
Section Knot.
Variable fast_send_rec :
  actor_ptr → msg_ptr → option actor_ptr → M (option msg_ptr).
Variable process_message_internal_rec : actor_ptr → msg_ptr → bool → M unit.

(** void Actor::fast_terminate() noexcept; the static flag
    terminate_called, which is written and never read, is left out. *)
Definition fast_terminate (this : actor_ptr) : M unit :=
  let* p := new_message (Message_new Shutdown JNull) in
  let* r := fast_send_rec this p None in
  drop_unique_ptr r.

(** static int set_thread_affinity(set<int> core_ids, pthread_t thread) *)
Definition set_thread_affinity (core_ids : list Z) (thread : actor_ptr)
  : M Z :=
  if bool_decide (core_ids = []) then ret 0
  else
    match List.find (λ c, (c <? 0) || (nprocs env <=? c)) core_ids with
    | Some c => emit (OsPerror "bad core id") >> ret EINVAL
    | None =>
        emit (OsSetAffinity thread core_ids) >>
        ret (pthread_setaffinity_np env thread core_ids)
    end.

(** void Manager::init() *)
Definition Manager_init (this : actor_ptr) : M unit :=
  let* x := get_actor this in
  match cls x with
  | ManagerClass actor_list thread_list managed expanded =>
      for_each actor_list (λ actor,
        let* initmsg := new_message (Message_new Start JNull) in
        let* r := fast_send_rec actor initmsg None in
        drop_unique_ptr r) >>
      for_each actor_list (λ actor,
        emit (OsThread actor) >>
        update_actor this (λ x,
          match cls x with
          | ManagerClass al tl mn en =>
              with_cls (ManagerClass al (tl ++ [actor]) mn en) x
          | _ => x
          end) >>
        let* a := get_actor actor in
        (if bool_decide (affinity a ≠ []) then
           let* rc := set_thread_affinity (affinity a) actor in
           if bool_decide (rc ≠ 0)
           then emit (OsPerror "could not assign affinity")
           else ret tt
         else ret tt) >>
        if 0 <? priority a then
          emit (OsSetSchedParam actor SCHED_FIFO (priority a)) >>
          if bool_decide (pthread_setschedparam env actor SCHED_FIFO (priority a) ≠ 0)
          then emit (OsPerror "sched_setscheduler")
          else ret tt
        else ret tt) >>
      let* p := new_message (Message_new Start JNull) in
      send this p None
  | _ => throw BadCast
  end.

(** void Manager::end() *)
Definition Manager_end (this : actor_ptr) : M unit :=
  let* x := get_actor this in
  match cls x with
  | ManagerClass _ thread_list _ _ =>
      for_each thread_list (λ t, emit (OsJoin t))
  | _ => throw BadCast
  end.

(** virtual void init() *)
Definition init (this : actor_ptr) : M unit :=
  call_scope (CallInit this) (
    let* x := get_actor this in
    match cls x with
    | UserClass code => exec this (on_init code)
    | ManagerClass _ _ _ _ => Manager_init this
    | _ => ret tt
    end).

(** virtual void end() *)
Definition end_ (this : actor_ptr) : M unit :=
  call_scope (CallEnd this) (
    let* x := get_actor this in
    match cls x with
    | UserClass code => exec this (on_end code)
    | ManagerClass _ _ _ _ => Manager_end this
    | _ => ret tt
    end).

(** void Group::forward(const Message *m) *)
Definition forward (m : msg_ptr) : M unit :=
  let* msg := get_message m in
  assert (negb (is_fast msg)) "cannot fast send here" >>
  let* d := deref (destination msg) in
  update_actor d (with_reply_to (sender msg)) >>
  process_message_internal_rec d m true.

(** void Group::start_handler(const actors::msg::Start *m) *)
Definition start_handler (this : actor_ptr) (m : msg_ptr) : M unit :=
  let* x := get_actor this in
  match cls x with
  | GroupClass _ members _ =>
      let* msg := get_message m in
      if bool_decide (sender msg ≠ Some this) then
        for_each members (λ a,
          init a >>
          let* p := new_message (Message_new Start JNull) in
          let* r := fast_send_rec a p (Some this) in
          drop_unique_ptr r)
      else forward m
  | _ => throw BadCast
  end.

(** void Group::shutdown_handler(const actors::msg::Shutdown *m) *)
Definition shutdown_handler (this : actor_ptr) (m : msg_ptr) : M unit :=
  let* x := get_actor this in
  match cls x with
  | GroupClass _ members _ =>
      let* msg := get_message m in
      if bool_decide (sender msg ≠ Some this) then
        for_each members (λ a,
          let* p := new_message (Message_new Shutdown JNull) in
          let* r := fast_send_rec a p (Some this) in
          drop_unique_ptr r >>
          end_ a)
      else forward m
  | _ => throw BadCast
  end.

(** void Manager::process_message(const Message *m) *)
Definition Manager_process_message (this : actor_ptr) (m : msg_ptr)
  : M unit :=
  let* x := get_actor this in
  match cls x with
  | ManagerClass actor_list _ _ _ =>
      let* msg := get_message m in
      if bool_decide (mtype msg = Start) then ret tt
      else if bool_decide (mtype msg = Shutdown) then
        for_each actor_list (λ actor,
          end_ actor >>
          fast_terminate actor >>
          update_actor actor (with_terminated true)) >>
        throw ProcessExit
      else ret tt
  | _ => throw BadCast
  end.

(** virtual void process_message(const Message * ) *)
Definition process_message (this : actor_ptr) (m : msg_ptr) : M unit :=
  call_scope (CallProcessMessage this m) (
    let* x := get_actor this in
    match cls x with
    | UserClass code => exec this (on_process_message code)
    | GroupClass _ _ _ => forward m
    | ManagerClass _ _ _ _ => Manager_process_message this m
    | _ => ret tt
    end).

(** (this->*f)(m) *)
Definition invoke (this : actor_ptr) (f : handler) (m : msg_ptr) : M unit :=
  call_scope (CallHandler this f m) (
    match f with
    | UserHandler n =>
        let* x := get_actor this in
        match cls x with
        | UserClass code =>
            match on_handler code !! n with
            | Some body => exec this body
            | None => throw BadCast
            end
        | _ => throw BadCast
        end
    | Ptr_Group_start_handler => start_handler this m
    | Ptr_Group_shutdown_handler => shutdown_handler this m
    end).

(** bool Actor::call_handler(const Message *m) noexcept *)
Definition call_handler (this : actor_ptr) (m : msg_ptr) : M bool :=
  let* msg := get_message m in
  let id := get_message_id (mtype msg) in
  let* x := get_actor this in
  let* f0 := vector_at (handler_cache x) id in
  match f0 with
  | Some f => invoke this f m >> ret true
  | None =>
      let* dont := vector_at (dont_have_handler x) id in
      if dont : bool then ret false
      else
        match handlers x !! mtype msg with
        | None =>
            update_actor this (λ x,
              with_dont_have_handler
                (<[Z.to_nat id := true]> (dont_have_handler x)) x) >>
            ret false
        | Some f =>
            invoke this f m >>
            let* x' := get_actor this in
            vector_in_range (handler_cache x') id >>
            update_actor this (λ x,
              with_handler_cache
                (<[Z.to_nat id := Some f]> (handler_cache x)) x) >>
            ret true
        end
  end.

(** void Actor::process_message_internal(const Message *m, bool dontdel) *)
Definition process_message_internal_body (this : actor_ptr) (m : msg_ptr)
    (dontdel : bool) : M unit :=
  let* msg := get_message m in
  call_scope (CallProcessMessageInternal this m (mtype msg) dontdel) (
    lock this >>
    incr_msg_cnt this >>
    update_actor this (with_using_fast_send false) >>
    let* called := call_handler this m in
    (if called : bool then ret tt else process_message this m) >>
    (if dontdel then ret tt else delete_message m) >>
    unlock this).

(** std::unique_ptr<const Message>
    Actor::fast_send(const Message *m, Actor *sender) noexcept *)
Definition fast_send_body (this : actor_ptr) (m : msg_ptr)
    (from : option actor_ptr) : M (option msg_ptr) :=
  let* msg := get_message m in
  call_scope (CallFastSend this m (mtype msg) from) (
    lock this >>
    assert (bool_decide (Some this ≠ from)) "fast send to itself" >>
    update_message m (λ msg,
      mkMessage (mtype msg) (body msg) from (destination msg) true true) >>
    update_actor this (λ x,
      with_using_fast_send true (with_reply_message None x)) >>
    incr_msg_cnt this >>
    let* x := get_actor this in
    if terminated x then
      unlock this >> ret (reply_message x)
    else
      let* called := call_handler this m in
      (if called : bool then ret tt else process_message this m) >>
      let* x' := get_actor this in
      unlock this >> ret (reply_message x')).

End Knot.

(** Actor::fast_send and Actor::process_message_internal, with [fuel]
    bounding how deep handlers call back into them. *)
Fixpoint fast_send (fuel : nat)
  : actor_ptr → msg_ptr → option actor_ptr → M (option msg_ptr) :=
  match fuel with
  | O => λ _ _ _, throw OutOfFuel
  | S n => fast_send_body (fast_send n) (process_message_internal n)
  end
with process_message_internal (fuel : nat)
  : actor_ptr → msg_ptr → bool → M unit :=
  match fuel with
  | O => λ _ _ _, throw OutOfFuel
  | S n =>
      process_message_internal_body (fast_send n) (process_message_internal n)
  end.

(** One turn of the loop of Actor::operator()(): pop a message, stamp it,
    set reply_to, dispatch it; the result is the condition of the [break]
    that ends the turn. *)
Definition worker_turn (fuel : nat) (this : actor_ptr) : M bool :=
  let* x := get_actor this in
  match BQueue.pop (msgq x) with
  | None => throw Blocked
  | Some (m, last_, q) =>
      update_actor this (with_msgq q) >>
      update_message m (λ msg,
        mkMessage (mtype msg) (body msg) (sender msg) (destination msg)
          (is_fast msg) last_) >>
      let* msg := get_message m in
      update_actor this (with_reply_to (sender msg)) >>
      let is_shutdown := get_message_id (mtype msg) =? 5 in
      process_message_internal fuel this m false >>
      let* x' := get_actor this in
      ret (is_shutdown || terminated x')
  end.

(** while (true) { ...; if (is_shutdown || terminated) break; }: each turn
    of the loop uses one unit of [fuel]. *)
Fixpoint worker_loop (fuel : nat) (this : actor_ptr) : M unit :=
  match fuel with
  | O => throw OutOfFuel
  | S n =>
      let* stop := worker_turn n this in
      if stop : bool then ret tt else worker_loop n this
  end.

(** void Actor::operator()() noexcept *)
Definition operator_call (fuel : nat) (this : actor_ptr) : M unit :=
  update_actor this (with_tid (gettid env this)) >>
  init (fast_send fuel) this >>
  worker_loop fuel this >>
  update_actor this (with_terminated true) >>
  end_ this.

(** MESSAGE_HANDLER(message_type, function_name):
    actor->handlers[std::type_index(typeid(MsgT))] = generic_ptr *)
Definition register_handler (this : actor_ptr) (t : type_index) (f : handler)
  : M unit :=
  update_actor this (λ x, with_handlers (<[t := f]> (handlers x)) x).

(** void Group::add(actor_ptr a) *)
Definition Group_add (this a : actor_ptr) : M unit :=
  set_group a this >>
  let* member := get_actor a in
  let* x := get_actor this in
  match cls x with
  | GroupClass gname members name_to_actor =>
      update_actor this (with_cls
        (GroupClass gname (members ++ [a])
           (<[get_name member := a]> name_to_actor))) >>
      register_handler this Start Ptr_Group_start_handler >>
      register_handler this Shutdown Ptr_Group_shutdown_handler
  | _ => throw BadCast
  end.

(** void Manager::manage(actor_ptr actor, set<int> affinity, int priority,
                         int priority_type) *)
Definition Manager_manage (this actor : actor_ptr) (affinity_ : list Z)
    (priority_ priority_type_ : Z) : M unit :=
  let* x := get_actor this in
  match cls x with
  | ManagerClass actor_list thread_list managed expanded =>
      let* a := get_actor actor in
      assert (negb (is_managed a || bool_decide (is_Some (managed !! get_name a))))
        "actor with this name already managed" >>
      assert (bool_decide (expanded !! get_name a = None))
        "actor cannot be managed because it's part of a group that was already managed" >>
      assert (forallb (λ c, negb ((c <? 0) || (nprocs env <=? c))) affinity_)
        "core id out of range" >>
      let managed1 := <[get_name a := actor]> managed in
      let expanded1 := <[get_name a := actor]> expanded in
      update_actor actor (with_manager (Some this)) >>
      (match cls a with
       | GroupClass _ members _ =>
           for_each members (λ b, update_actor b (with_manager (Some this)))
       | _ => ret tt
       end) >>
      let actor_list1 := actor_list ++ [actor] in
      let* expanded2 :=
        match cls a with
        | GroupClass _ _ name_to_actor =>
            assert (negb (bool_decide (name_to_actor = ∅)))
              "add actors to group before managing group" >>
            assert (bool_decide
                      (map_Forall (λ k _, expanded1 !! k = None) name_to_actor))
              "actor (part of a group) already managed somewhere else" >>
            ret (name_to_actor ∪ expanded1)
        | _ => ret expanded1
        end in
      update_actor this (with_cls
        (ManagerClass actor_list1 thread_list managed1 expanded2)) >>
      update_actor actor (λ a,
        with_priority_type priority_type_
          (with_priority priority_
             (with_affinity affinity_ (with_is_managed true a))))
  | _ => throw BadCast
  end.

(* ===================================================================== *)
(** * The remote endpoints: include/actors/remote *)
(* ===================================================================== *)

(** nlohmann::json, as far as the receiver uses it.  The const
    operator[] asserts that the key exists and throws on a document that
    is no object; get<std::string>() throws on a document that is no
    string. *)
Fixpoint json_lookup (fields : list (string * json)) (key : string)
  : option json :=
  match fields with
  | [] => None
  | (k, v) :: rest => if bool_decide (k = key) then Some v
                      else json_lookup rest key
  end.

Definition json_at (j : json) (key : string) : M json :=
  match j with
  | JObject fields =>
      match json_lookup fields key with
      | Some v => ret v
      | None => throw (AssertionFailed "json key not found")
      end
  | _ => throw JsonException
  end.

Definition json_is_null (j : json) : bool :=
  match j with JNull => true | _ => false end.

Definition json_get_string (j : json) : M string :=
  match j with
  | JString s => ret s
  | _ => throw JsonException
  end.

(** std::to_string(int) *)
Definition to_string (n : Z) : string := pretty n.

(** std::string MessageRegistry::get_type_name(int msg_id) const *)
Definition get_type_name (msg_id : Z) : string :=
  match id_to_entry_ (registry env) !! msg_id with
  | Some e => type_name e
  | None => ""
  end.

(** json MessageRegistry::serialize(const Message* msg) const *)
Definition MessageRegistry_serialize (msg : Message) : M json :=
  match id_to_entry_ (registry env) !! get_message_id (mtype msg) with
  | Some e => ret (serialize e msg)
  | None => throw (RuntimeError "Message type not registered")
  end.

(** Message* MessageRegistry::deserialize(const std::string& type_name,
                                         const json& data) const *)
Definition MessageRegistry_deserialize (tn : string) (data : json)
  : M (option msg_ptr) :=
  match name_to_entry_ (registry env) !! tn with
  | Some e =>
      match deserialize e data with
      | Decoded m => let* p := new_message m in ret (Some p)
      | DecodedNull => ret None
      | DecodeThrows => throw JsonException
      end
  | None => ret None
  end.

(** bool MessageRegistry::is_registered(const std::string& type_name) *)
Definition is_registered (tn : string) : bool :=
  bool_decide (is_Some (name_to_entry_ (registry env) !! tn)).

(** class RemoteSendRequest : public Message_N<8>; [message_json] keeps
    the document that the C++ code stores dumped to a string. *)
Definition RemoteSendRequest_new (endpoint actor_name sender_name
    sender_endpoint message_type : string) (message_json : json) : Message :=
  Message_new RemoteSendRequest (JObject [
    ("endpoint", JString endpoint);
    ("actor_name", JString actor_name);
    ("sender_name", JString sender_name);
    ("sender_endpoint", JString sender_endpoint);
    ("message_type", JString message_type);
    ("message_json", message_json) ]).

(** class Reject : public Message_N<9> *)
Definition Reject_new (message_type reason rejected_by : string) : Message :=
  Message_new Reject (JObject [
    ("message_type", JString message_type);
    ("reason", JString reason);
    ("rejected_by", JString rejected_by) ]).

(** void ZmqSender::send_to(const std::string& endpoint,
      const std::string& actor_name, const Message* msg, Actor* sender)
    For a class that is not registered the message is deleted, and the
    operand of the throw then calls msg->get_message_id() on it. *)
Definition send_to (this : actor_ptr) (endpoint actor_name : string)
    (m : msg_ptr) (from : option actor_ptr) : M unit :=
  let* msg := get_message m in
  call_scope (CallSendTo this endpoint actor_name msg from) (
    let tn := get_type_name (get_message_id (mtype msg)) in
    if bool_decide (tn = "") then
      delete_message m >>
      let* freed := get_message m in
      throw (RuntimeError
               ("Message type not registered: " ++
                to_string (get_message_id (mtype freed))))
    else
      let* msg_json := MessageRegistry_serialize msg in
      delete_message m >>
      let* x := get_actor this in
      match cls x with
      | ZmqSenderClass local_endpoint =>
          let* sender_name :=
            match from with
            | Some s => let* a := get_actor s in ret (get_name a)
            | None => ret ""
            end in
          let sender_ep :=
            match from with Some _ => local_endpoint | None => "" end in
          let* req := new_message
            (RemoteSendRequest_new endpoint actor_name sender_name sender_ep
               tn msg_json) in
          send this req None
      | _ => throw BadCast
      end).

(** The data members of ZmqReceiver that routing reads and writes. *)
Record ZmqReceiver := mkZmqReceiver {
  sender_ : actor_ptr;                     (* std::shared_ptr<ZmqSender> *)
  registry_ : gmap string actor_ptr;
  proxies_ : list actor_ptr
}.

(** void ZmqReceiver::send_reject(endpoint, actor_name, msg_type, reason,
                                  rejected_by) *)
Definition send_reject (rx : ZmqReceiver) (endpoint actor_name msg_type
    reason rejected_by : string) : M unit :=
  let* reject := new_message (Reject_new msg_type reason rejected_by) in
  send_to (sender_ rx) endpoint actor_name reject None.

(** RemoteReplyProxy(sender, actor, endpoint) *)
Definition RemoteReplyProxy_new (zs : actor_ptr) (actor endpoint : string)
  : Actor :=
  Actor_new (RemoteReplyProxyClass zs actor endpoint) "RemoteReplyProxy".

(** void ZmqReceiver::handle_remote_message(const nlohmann::json& envelope) *)
Definition handle_remote_message (rx : ZmqReceiver) (envelope : json)
  : M ZmqReceiver :=
  let* receiver_j := json_at envelope "receiver" in
  let* receiver_name := json_get_string receiver_j in
  let* msg_type_j := json_at envelope "message_type" in
  let* msg_type := json_get_string msg_type_j in
  let* sender_actor_j := json_at envelope "sender_actor" in
  let has_sender := negb (json_is_null sender_actor_j) in
  let* sender_actor :=
    if has_sender then json_get_string sender_actor_j else ret "" in
  let* sender_endpoint :=
    if has_sender then
      let* j := json_at envelope "sender_endpoint" in json_get_string j
    else ret "" in
  match registry_ rx !! receiver_name with
  | None =>
      (if has_sender then
         send_reject rx sender_endpoint sender_actor msg_type
           ("Actor '" ++ receiver_name ++ "' not found") receiver_name
       else ret tt) >>
      ret rx
  | Some target =>
      let* payload := json_at envelope "message" in
      let* msg := MessageRegistry_deserialize msg_type payload in
      match msg with
      | None =>
          (if has_sender then
             send_reject rx sender_endpoint sender_actor msg_type
               ("Unknown message type: " ++ msg_type) receiver_name
           else ret tt) >>
          ret rx
      | Some msg =>
          let* '(reply_actor, rx') :=
            if has_sender then
              let* proxy := new_actor
                (RemoteReplyProxy_new (sender_ rx) sender_actor
                   sender_endpoint) in
              ret (Some proxy,
                   mkZmqReceiver (sender_ rx) (registry_ rx)
                     (proxies_ rx ++ [proxy]))
            else ret (None, rx) in
          send target msg reply_actor >>
          ret rx'
      end
  end.


(* ===================================================================== *)
(** * More of the runtime *)
(* ===================================================================== *)

(** Message(const Message& other): the copy of a message of the same
    class keeps sender, is_fast and last and has no destination. *)
Definition Message_copy (other : Message) : Message :=
  mkMessage (mtype other) (body other) (sender other) None (is_fast other)
    (last other).

(** void Actor::terminate() noexcept: this->send(new msg::Shutdown())
    followed by sleep(3); the static flag terminate_called is left out. *)
Definition terminate (this : actor_ptr) : M unit :=
  let* p := new_message (Message_new Shutdown JNull) in
  send this p None.

(** actor_ptr Manager::get_actor_by_name(const string &name) const: the
    inner loop over the members of a Group. *)
Fixpoint find_member (members : list actor_ptr) (name : string)
  : M (option actor_ptr) :=
  match members with
  | [] => ret None
  | a :: rest =>
      let* y := get_actor a in
      if bool_decide (get_name y = name) then ret (Some a)
      else find_member rest name
  end.

(** The loop over actor_list. *)
Fixpoint find_actor (actor_list : list actor_ptr) (name : string)
  : M (option actor_ptr) :=
  match actor_list with
  | [] => ret None
  | actor :: rest =>
      let* x := get_actor actor in
      if bool_decide (get_name x = name) then ret (Some actor)
      else
        match cls x with
        | GroupClass _ members _ =>
            let* r := find_member members name in
            match r with
            | Some a => ret (Some a)
            | None => find_actor rest name
            end
        | _ => find_actor rest name
        end
  end.

Definition get_actor_by_name (this : actor_ptr) (name : string)
  : M (option actor_ptr) :=
  let* x := get_actor this in
  match cls x with
  | ManagerClass actor_list _ _ _ => find_actor actor_list name
  | _ => throw BadCast
  end.

(** const std::map<std::string, actor_ptr>& Manager::get_name_map() *)
Definition get_name_map (this : actor_ptr) : M (gmap string actor_ptr) :=
  let* x := get_actor this in
  match cls x with
  | ManagerClass _ _ _ expanded_name_map => ret expanded_name_map
  | _ => throw BadCast
  end.

(** ** include/actors/remote/ZmqSender.hpp, ZmqReceiver.hpp *)

(** The data members of a RemoteSendRequest, read back from the message. *)
Definition request_of (req : Message)
  : option (string * string * string * string * string * json) :=
  match body req with
  | JObject fields =>
      match json_lookup fields "endpoint", json_lookup fields "actor_name",
            json_lookup fields "sender_name",
            json_lookup fields "sender_endpoint",
            json_lookup fields "message_type",
            json_lookup fields "message_json" with
      | Some (JString ep), Some (JString an), Some (JString sn),
        Some (JString se), Some (JString mt), Some mj =>
          Some (ep, an, sn, se, mt, mj)
      | _, _, _, _, _, _ => None
      end
  | _ => None
  end.

(** std::string::replace(pos, len, str) *)
Definition string_replace (pos len : nat) (str s : string) : string :=
  (substring 0 pos s ++ str ++
   substring (pos + len) (String.length s - (pos + len)) s)%string.

(** The address send_raw connects to: the first "*:" and then the first
    "0.0.0.0:" of the endpoint are replaced by "localhost:". *)
Definition connect_endpoint (endpoint : string) : string :=
  let e1 :=
    match index 0 "*:" endpoint with
    | Some pos => string_replace pos 2 "localhost:" endpoint
    | None => endpoint
    end in
  match index 0 "0.0.0.0:" e1 with
  | Some pos => string_replace pos 8 "localhost:" e1
  | None => e1
  end.

(** std::unordered_map<std::string, zmq::socket_t> sockets_: for each
    endpoint the address its socket was connected to and the frames sent
    on it, oldest first. *)
Abbreviation sockets := (gmap string (string * list json)) (only parsing).

(** void ZmqSender::send_raw(const std::string& endpoint,
                             const std::string& data)
    connect and send are taken to succeed (a zmq::error_t would leave
    on_send_request, which is noexcept). *)
Definition send_raw (endpoint : string) (data : json) (s : sockets)
  : sockets :=
  match s !! endpoint with
  | Some (addr, sent) => <[endpoint := (addr, sent ++ [data])]> s
  | None => <[endpoint := (connect_endpoint endpoint, [data])]> s
  end.

(** void ZmqSender::on_send_request(const RemoteSendRequest* req)
    noexcept *)
Definition on_send_request (req : Message) (s : sockets) : option sockets :=
  match request_of req with
  | Some (ep, an, sn, se, mt, mj) =>
      Some (send_raw ep (envelope_of sn se an mt mj) s)
  | None => None
  end.

(** void ZmqReceiver::register_actor(const std::string& name,
                                     Actor* actor) *)
Definition register_actor (rx : ZmqReceiver) (name : string)
    (actor : actor_ptr) : ZmqReceiver :=
  mkZmqReceiver (sender_ rx) (<[name := actor]> (registry_ rx)) (proxies_ rx).

(** void ZmqReceiver::unregister_actor(const std::string& name) *)
Definition unregister_actor (rx : ZmqReceiver) (name : string)
  : ZmqReceiver :=
  mkZmqReceiver (sender_ rx) (delete name (registry_ rx)) (proxies_ rx).
(* ===================================================================== *)
(** * Reasoning about computations *)
(* ===================================================================== *)

Lemma bind_Ok {A B} (c : M A) (k : A → M B) w y w' :
  bind c k w = Ok (y, w') ↔ ∃ x w1, c w = Ok (x, w1) ∧ k x w1 = Ok (y, w').
Proof.
  unfold bind. split.
  - destruct (c w) as [[x w1]|e] eqn:Hc; [|done]. eauto.
  - intros (x & w1 & -> & Hk). done.
Qed.

Lemma bind_eq {A B} (c : M A) (k : A → M B) w x w1 :
  c w = Ok (x, w1) → bind c k w = k x w1.
Proof. unfold bind. by intros ->. Qed.

Lemma bind_Err {A B} (c : M A) (k : A → M B) w e :
  c w = Err e → bind c k w = Err e.
Proof. unfold bind. by intros ->. Qed.

Lemma bind_assoc {A B C} (c : M A) (k : A → M B) (k' : B → M C) w :
  bind (bind c k) k' w = bind c (λ x, bind (k x) k') w.
Proof. unfold bind. by destruct (c w) as [[x w1]|e]. Qed.

Lemma ret_Ok {A} (x y : A) w w' : ret x w = Ok (y, w') ↔ y = x ∧ w' = w.
Proof. unfold ret. split; [by intros [= <- <-]|by intros [-> ->]]. Qed.

Lemma assert_Ok b s w u w' : assert b s w = Ok (u, w') ↔ b = true ∧ w' = w.
Proof.
  unfold assert. destruct b; simpl.
  - unfold ret. split; [by intros [= <- <-]|]. intros [_ ->]. by destruct u.
  - unfold throw. split; [done|]. by intros [? _].
Qed.

Lemma deref_Ok p a w w' : deref p w = Ok (a, w') ↔ p = Some a ∧ w' = w.
Proof.
  unfold deref. destruct p as [b|]; simpl.
  - unfold ret. split; [by intros [= <- <-]|]. by intros [[= ->] ->].
  - unfold throw. split; [done|]. by intros [? _].
Qed.

Lemma get_actor_Ok a x w w' :
  get_actor a w = Ok (x, w') ↔ actors w !! a = Some x ∧ w' = w.
Proof.
  unfold get_actor. destruct (actors w !! a) as [y|].
  - split; [by intros [= <- <-]|]. by intros [[= ->] ->].
  - split; [done|]. by intros [? _].
Qed.

Lemma get_actor_eq a x w : actors w !! a = Some x → get_actor a w = Ok (x, w).
Proof. intros H. by apply get_actor_Ok. Qed.

Lemma update_actor_Ok a f u w w' :
  update_actor a f w = Ok (u, w') ↔
  ∃ x, actors w !! a = Some x ∧ w' = with_actors (<[a := f x]> (actors w)) w.
Proof.
  unfold update_actor. destruct (actors w !! a) as [y|].
  - split; [intros [= <- <-]; eauto|]. intros (x & [= ->] & ->). by destruct u.
  - split; [done|]. by intros (? & ? & _).
Qed.

Lemma incr_msg_cnt_Ok a u w w' :
  incr_msg_cnt a w = Ok (u, w') ↔
  ∃ x, actors w !! a = Some x ∧ msg_cnt x < LLONG_MAX ∧
       w' = with_actors (<[a := with_msg_cnt (msg_cnt x + 1) x]> (actors w)) w.
Proof.
  unfold incr_msg_cnt. destruct (actors w !! a) as [y|].
  - destruct (Z.ltb_spec (msg_cnt y) LLONG_MAX).
    + split; [intros [= <- <-]; eauto|].
      intros (x & [= ->] & _ & ->). by destruct u.
    + split; [done|]. intros (x & [= ->] & ? & _). lia.
  - split; [done|]. by intros (? & ? & _).
Qed.

Lemma incr_msg_cnt_eq a x w :
  actors w !! a = Some x → msg_cnt x < LLONG_MAX →
  incr_msg_cnt a w =
  Ok (tt, with_actors (<[a := with_msg_cnt (msg_cnt x + 1) x]> (actors w)) w).
Proof. intros Hx Hc. apply incr_msg_cnt_Ok. eauto. Qed.

Lemma update_actor_eq a f x w :
  actors w !! a = Some x →
  update_actor a f w = Ok (tt, with_actors (<[a := f x]> (actors w)) w).
Proof. intros H. unfold update_actor. by rewrite H. Qed.

Lemma get_message_Ok m x w w' :
  get_message m w = Ok (x, w') ↔ messages w !! m = Some x ∧ w' = w.
Proof.
  unfold get_message. destruct (messages w !! m) as [y|].
  - split; [by intros [= <- <-]|]. by intros [[= ->] ->].
  - split; [done|]. by intros [? _].
Qed.

Lemma get_message_eq m x w :
  messages w !! m = Some x → get_message m w = Ok (x, w).
Proof. intros H. by apply get_message_Ok. Qed.

Lemma update_message_Ok m f u w w' :
  update_message m f w = Ok (u, w') ↔
  ∃ x, messages w !! m = Some x ∧
       w' = with_messages (<[m := f x]> (messages w)) w.
Proof.
  unfold update_message. destruct (messages w !! m) as [y|].
  - split; [intros [= <- <-]; eauto|]. intros (x & [= ->] & ->). by destruct u.
  - split; [done|]. by intros (? & ? & _).
Qed.

Lemma update_message_eq m f x w :
  messages w !! m = Some x →
  update_message m f w = Ok (tt, with_messages (<[m := f x]> (messages w)) w).
Proof. intros H. unfold update_message. by rewrite H. Qed.

Lemma new_message_Ok x m w w' :
  new_message x w = Ok (m, w') ↔
  m = fresh (dom (messages w)) ∧
  w' = with_messages (<[m := x]> (messages w)) w.
Proof.
  unfold new_message. split; [by intros [= <- <-]|]. by intros [-> ->].
Qed.

Lemma fresh_message w : messages w !! fresh (dom (messages w)) = None.
Proof. apply not_elem_of_dom, is_fresh. Qed.

Lemma fresh_actor w : actors w !! fresh (dom (actors w)) = None.
Proof. apply not_elem_of_dom, is_fresh. Qed.

Lemma delete_message_Ok m u w w' :
  delete_message m w = Ok (u, w') ↔
  is_Some (messages w !! m) ∧ w' = with_messages (delete m (messages w)) w.
Proof.
  unfold delete_message. destruct (messages w !! m) as [y|].
  - split; [intros [= <- <-]; eauto|]. intros [_ ->]. by destruct u.
  - split; [done|]. by intros [[? ?] _].
Qed.

Lemma call_scope_Ok {A} c (body : M A) x w w' :
  call_scope c body w = Ok (x, w') ↔
  ∃ w1, body (with_trace [] w) = Ok (x, w1) ∧
        w' = with_trace (trace w ++ [Ev c (trace w1)]) w1.
Proof.
  unfold call_scope.
  destruct (body (with_trace [] w)) as [[y w1]|e] eqn:Hb.
  - split; [intros [= <- <-]; eauto|]. by intros (w2 & [= <- <-] & ->).
  - split; [done|]. by intros (? & ? & _).
Qed.

Lemma call_scope_eq {A} c (body : M A) x w w1 :
  body (with_trace [] w) = Ok (x, w1) →
  call_scope c body w = Ok (x, with_trace (trace w ++ [Ev c (trace w1)]) w1).
Proof. intros H. unfold call_scope. by rewrite H. Qed.

Lemma vector_at_Ok {X} (v : list X) i x w w' :
  vector_at v i w = Ok (x, w') ↔
  0 ≤ i < Z.of_nat (length v) ∧ v !! Z.to_nat i = Some x ∧ w' = w.
Proof.
  unfold vector_at.
  destruct (Z.leb_spec 0 i), (Z.ltb_spec i (Z.of_nat (length v))); simpl;
    try (unfold throw; split; [done|intros [? _]; lia]).
  destruct (v !! Z.to_nat i) as [y|] eqn:Hl.
  - unfold ret. split; [by intros [= <- <-]|]. by intros (_ & [= ->] & ->).
  - unfold throw. split; [done|]. by intros (_ & ? & _).
Qed.

Lemma vector_at_out_of_bounds {X} (v : list X) i w :
  ¬ (0 ≤ i < Z.of_nat (length v)) → vector_at v i w = Err OutOfBounds.
Proof.
  intros H. unfold vector_at.
  destruct (Z.leb_spec 0 i), (Z.ltb_spec i (Z.of_nat (length v))); simpl;
    try done. lia.
Qed.

Lemma vector_in_range_Ok {X} (v : list X) i u w w' :
  vector_in_range v i w = Ok (u, w') ↔ 0 ≤ i < Z.of_nat (length v) ∧ w' = w.
Proof.
  unfold vector_in_range.
  destruct (Z.leb_spec 0 i), (Z.ltb_spec i (Z.of_nat (length v))); simpl;
    try (unfold throw; split; [done|intros [? _]; lia]).
  unfold ret. split; [by intros [= <- <-]|]. intros [_ ->]. by destruct u.
Qed.

(** Symbolic execution of a successful run, one primitive at a time. *)
Ltac step_in H :=
  match type of H with
  | bind _ _ _ = Ok _ =>
      let x := fresh "x" in let w := fresh "w" in
      let H1 := fresh "Hs" in
      apply bind_Ok in H as (x & w & H1 & H); step_in H1
  | ret _ _ = Ok _ => apply ret_Ok in H as [? ?]; subst
  | throw _ _ = Ok _ => discriminate H
  | assert _ _ _ = Ok _ => apply assert_Ok in H as [? ?]; subst
  | deref _ _ = Ok _ => apply deref_Ok in H as [? ?]; subst
  | get_actor ?a ?w = Ok _ =>
      first [ match goal with
              | Hk : actors w !! a = Some ?y |- _ =>
                  rewrite (get_actor_eq a y w Hk) in H; injection H as <- <-
              end
            | apply get_actor_Ok in H as [? ?]; subst ]
  | get_message ?a ?w = Ok _ =>
      first [ match goal with
              | Hk : messages w !! a = Some ?y |- _ =>
                  rewrite (get_message_eq a y w Hk) in H; injection H as <- <-
              end
            | apply get_message_Ok in H as [? ?]; subst ]
  | update_actor _ _ _ = Ok _ => apply update_actor_Ok in H as (? & ? & ?); subst
  | incr_msg_cnt _ _ = Ok _ =>
      apply incr_msg_cnt_Ok in H as (? & ? & ? & ?); subst
  | update_message _ _ _ = Ok _ =>
      apply update_message_Ok in H as (? & ? & ?); subst
  | new_message _ _ = Ok _ => apply new_message_Ok in H as [? ?]; subst
  | delete_message _ _ = Ok _ => apply delete_message_Ok in H as [? ?]; subst
  | vector_at _ _ _ = Ok _ => apply vector_at_Ok in H as (? & ? & ?); subst
  | vector_in_range _ _ _ = Ok _ =>
      apply vector_in_range_Ok in H as [? ?]; subst
  | _ => idtac
  end.

Ltac tidy :=
  repeat match goal with
  | u : unit |- _ => destruct u
  | H : bool_decide _ = true |- _ => apply bool_decide_eq_true in H
  | H : bool_decide _ = false |- _ => apply bool_decide_eq_false in H
  | H1 : ?o = Some ?x, H2 : ?o = Some ?y |- _ =>
      let Heq := fresh in
      assert (x = y) as Heq by congruence;
      clear H2;
      first [subst y | subst x | (rewrite <- Heq in *; clear Heq)]
  | H : Some _ = Some _ |- _ => injection H as ?; subst
  end.

Ltac steps H := repeat (progress (step_in H)); simpl in *; tidy.

(** Naming the object found at an address. *)
Ltac actor_at w a x :=
  lazymatch goal with
  | H : actors w !! a = Some ?y |- _ => (unify x y || rename y into x)
  end.

Ltac message_at w a x :=
  lazymatch goal with
  | H : messages w !! a = Some ?y |- _ => (unify x y || rename y into x)
  end.

(* ===================================================================== *)
(** * Actor::send *)
(* ===================================================================== *)

(** The mailbox a message sent to [x] (at address [this]) is pushed to:
    the Group's when [x] is part of a Group, else its own. *)
Definition mailbox_owner (this : actor_ptr) (x : Actor) : option actor_ptr :=
  if is_part_of_group x then group x else Some this.

(** The envelope fields as Actor::send stamps them. *)
Definition stamped_by_send (this : actor_ptr) (from : option actor_ptr)
    (msg : Message) : Message :=
  mkMessage (mtype msg) (body msg) from (Some this) false false.

(** C4. Actor::send on a terminated actor returns at once: no mailbox and
    no message changes (only the ghost trace records the call).  On an
    actor that is not terminated, with [m.destination] unset, it stamps
    is_fast := false, last := false, sender, destination := this, and
    pushes [m] to the mailbox of the Group when the actor is part of a
    Group, else to the actor's own mailbox. *)
Theorem send_contract (this m : nat) (from : option nat) (w : World)
    (x : Actor) :
  actors w !! this = Some x →
  (terminated x = true →
   send this m from w =
   Ok (tt, with_trace (trace w ++ [Ev (CallSend this m from) []]) w)) ∧
  (terminated x = false →
   ∀ msg g y,
     messages w !! m = Some msg →
     destination msg = None →
     mailbox_owner this x = Some g →
     actors w !! g = Some y →
     send this m from w =
     Ok (tt, mkWorld
               (<[g := with_msgq (BQueue.push m (msgq y)) y]> (actors w))
               (<[m := stamped_by_send this from msg]> (messages w))
               (trace w ++ [Ev (CallSend this m from) []]))).
Proof.
  intros Hx. split.
  - intros Ht. unfold send.
    rewrite (call_scope_eq _ _ tt w (with_trace [] w)); [reflexivity|].
    rewrite (bind_eq _ _ _ x (with_trace [] w)) by (by apply get_actor_eq).
    by rewrite Ht.
  - intros Ht msg g y Hm Hd Hg Hy. unfold send.
    rewrite (call_scope_eq _ _ tt w
      (mkWorld (<[g := with_msgq (BQueue.push m (msgq y)) y]> (actors w))
               (<[m := stamped_by_send this from msg]> (messages w)) []));
      [reflexivity|].
    rewrite (bind_eq _ _ _ x (with_trace [] w)) by (by apply get_actor_eq).
    rewrite Ht.
    rewrite (bind_eq _ _ _ msg (with_trace [] w)) by (by apply get_message_eq).
    rewrite Hd. simpl.
    rewrite (bind_eq _ _ _ tt (with_trace [] w)) by reflexivity.
    erewrite bind_eq by (by apply update_message_eq).
    unfold mailbox_owner in Hg.
    destruct (is_part_of_group x).
    + rewrite Hg. simpl. erewrite bind_eq by reflexivity.
      unfold add_message_to_queue. by erewrite update_actor_eq.
    + injection Hg as <-. unfold add_message_to_queue.
      by erewrite update_actor_eq.
Qed.

(* ===================================================================== *)
(** * Actor::fast_send on a terminated actor *)
(* ===================================================================== *)

(** The envelope fields as Actor::fast_send stamps them. *)
Definition stamped_by_fast_send (from : option actor_ptr) (msg : Message)
  : Message :=
  mkMessage (mtype msg) (body msg) from (destination msg) true true.

(** The actor after the bookkeeping of Actor::fast_send. *)
Definition counted_fast_send (x : Actor) : Actor :=
  with_msg_cnt (msg_cnt x + 1)
    (with_using_fast_send true (with_reply_message None x)).

Lemma lock_eq a x w :
  actors w !! a = Some x → fast_send_mutex x = false →
  lock a w =
  Ok (tt, with_actors (<[a := with_fast_send_mutex true x]> (actors w)) w).
Proof.
  intros Hx Hm. unfold lock.
  rewrite (bind_eq _ _ _ x w) by (by apply get_actor_eq).
  rewrite Hm. by apply update_actor_eq.
Qed.

Lemma lock_held a x w :
  actors w !! a = Some x → fast_send_mutex x = true → lock a w = Err Deadlock.
Proof.
  intros Hx Hm. unfold lock.
  rewrite (bind_eq _ _ _ x w) by (by apply get_actor_eq).
  by rewrite Hm.
Qed.

(** C10. A fast_send to a terminated actor returns empty and dispatches
    nothing (the call has no inner event: neither a handler nor
    process_message ran), yet it stamps the message (sender, is_fast :=
    true, last := true), clears the reply slot, sets using_fast_send and
    increments the message counter of the actor (a long long, below its
    maximum). *)
Theorem fast_send_terminated (fuel this m : nat) (from : option nat)
    (w : World) (x : Actor) (msg : Message) :
  actors w !! this = Some x →
  terminated x = true →
  fast_send_mutex x = false →
  messages w !! m = Some msg →
  from ≠ Some this →
  msg_cnt x < LLONG_MAX →
  fast_send (S fuel) this m from w =
  Ok (None,
      mkWorld (<[this := counted_fast_send x]> (actors w))
              (<[m := stamped_by_fast_send from msg]> (messages w))
              (trace w ++ [Ev (CallFastSend this m (mtype msg) from) []])).
Proof.
  intros Hx Ht Hmut Hm Hfrom Hcnt. simpl. unfold fast_send_body.
  rewrite (bind_eq _ _ _ msg w) by (by apply get_message_eq).
  set (x1 := with_fast_send_mutex true x).
  set (x2 := counted_fast_send x1).
  rewrite (call_scope_eq _ _ None w
    (mkWorld (<[this := counted_fast_send x]> (actors w))
             (<[m := stamped_by_fast_send from msg]> (messages w)) []));
    [reflexivity|].
  erewrite bind_eq by (by apply (lock_eq this x)).
  rewrite bool_decide_true by congruence. simpl.
  erewrite bind_eq by reflexivity.
  erewrite bind_eq by (by apply update_message_eq).
  erewrite bind_eq by (apply update_actor_eq; simpl; apply lookup_insert_eq).
  erewrite bind_eq
    by (apply incr_msg_cnt_eq; [simpl; apply lookup_insert_eq|done]).
  erewrite bind_eq by (apply get_actor_eq; simpl; apply lookup_insert_eq).
  simpl. rewrite Ht.
  unfold unlock.
  erewrite bind_eq by (apply update_actor_eq; simpl; apply lookup_insert_eq).
  unfold ret, with_actors, with_messages, with_trace. simpl.
  rewrite !insert_insert_eq.
  do 3 f_equal.
  destruct x; simpl in *; subst. reflexivity.
Qed.

(* ===================================================================== *)
(** * What a send, a reply and the code of the embedding program do *)
(* ===================================================================== *)

(** The effect of Actor::send on actors and messages. *)
Definition send_effect (this m : nat) (from : option nat)
    (acts : gmap nat Actor) (msgs : gmap nat Message)
    (acts' : gmap nat Actor) (msgs' : gmap nat Message) : Prop :=
  (∃ x, acts !! this = Some x ∧ terminated x = true ∧
        acts' = acts ∧ msgs' = msgs) ∨
  (∃ x msg g y,
     acts !! this = Some x ∧ terminated x = false ∧
     msgs !! m = Some msg ∧ destination msg = None ∧
     mailbox_owner this x = Some g ∧ acts !! g = Some y ∧
     acts' = <[g := with_msgq (BQueue.push m (msgq y)) y]> acts ∧
     msgs' = <[m := stamped_by_send this from msg]> msgs).

Lemma send_Ok this m from w w' :
  send this m from w = Ok (tt, w') →
  send_effect this m from (actors w) (messages w) (actors w') (messages w') ∧
  trace w' = trace w ++ [Ev (CallSend this m from) []].
Proof.
  intros H. unfold send in H.
  apply call_scope_Ok in H as (w1 & H & ->).
  step_in H. simpl in *.
  destruct (terminated x) eqn:Ht.
  - steps H. split; [|done]. left. eauto.
  - step_in H. step_in H. step_in H. simpl in *. tidy.
    match type of H with
    | _ ?w0 = _ =>
      assert (∃ g, mailbox_owner this x = Some g ∧
                   add_message_to_queue g m w0 = Ok (tt, w1))
        as (g & Hg & Hq)
    end.
    { unfold mailbox_owner. destruct (is_part_of_group x).
      - step_in H. eauto.
      - eauto. }
    unfold add_message_to_queue in Hq. steps Hq.
    split; [|done]. right. eexists x, _, g, _. done.
Qed.

(** The envelope field Actor::reply stamps inside a fast_send. *)
Definition stamped_by_reply (this : actor_ptr) (msg : Message) : Message :=
  mkMessage (mtype msg) (body msg) (Some this) (destination msg)
    (is_fast msg) (last msg).

Lemma reply_fast this r w x rmsg :
  actors w !! this = Some x →
  using_fast_send x = true →
  messages w !! r = Some rmsg →
  reply this r w =
  Ok (tt, mkWorld (<[this := with_reply_message (Some r) x]> (actors w))
                  (<[r := stamped_by_reply this rmsg]> (messages w))
                  (trace w ++ [Ev (CallReply this r) []])).
Proof.
  intros Hx Hf Hr. unfold reply.
  rewrite (call_scope_eq _ _ tt w
    (mkWorld (<[this := with_reply_message (Some r) x]> (actors w))
             (<[r := stamped_by_reply this rmsg]> (messages w)) []));
    [reflexivity|].
  rewrite (bind_eq _ _ _ x (with_trace [] w)) by (by apply get_actor_eq).
  rewrite Hf.
  erewrite bind_eq by (by apply update_message_eq).
  by erewrite update_actor_eq.
Qed.

Lemma reply_async_no_return_address this r w x :
  actors w !! this = Some x →
  using_fast_send x = false →
  reply_to x = None →
  reply this r w = Err (AssertionFailed "no return address").
Proof.
  intros Hx Hf Hr. unfold reply, call_scope.
  rewrite (bind_eq _ _ _ x (with_trace [] w)) by (by apply get_actor_eq).
  rewrite Hf, Hr. reflexivity.
Qed.

Lemma reply_async this r w x t :
  actors w !! this = Some x →
  using_fast_send x = false →
  reply_to x = Some t →
  reply this r w = call_scope (CallReply this r) (send t r (Some this)) w.
Proof.
  intros Hx Hf Hr. unfold reply, call_scope.
  rewrite (bind_eq _ _ _ x (with_trace [] w)) by (by apply get_actor_eq).
  rewrite Hf, Hr. reflexivity.
Qed.

(** The message a command names: an existing one, or a new one. *)
Definition resolved (src : msg_src) (msgs : gmap nat Message) (p : nat)
    (msgs0 : gmap nat Message) : Prop :=
  match src with
  | Ptr q => p = q ∧ msgs0 = msgs
  | NewMsg t b => p = fresh (dom msgs) ∧ msgs0 = <[p := Message_new t b]> msgs
  end.

Lemma resolve_Ok src p w w' :
  resolve src w = Ok (p, w') →
  resolved src (messages w) p (messages w') ∧
  actors w' = actors w ∧ trace w' = trace w.
Proof.
  destruct src as [t b|q]; simpl; intros H; steps H; done.
Qed.

(** One command of the embedding program, as a transition. *)
Inductive cmd_step (this : nat) (c : cmd) (w w' : World) : Prop :=
| step_reply_fast src x p msgs0 rmsg :
    c = CmdReply src →
    actors w !! this = Some x →
    using_fast_send x = true →
    resolved src (messages w) p msgs0 →
    msgs0 !! p = Some rmsg →
    w' = mkWorld (<[this := with_reply_message (Some p) x]> (actors w))
                 (<[p := stamped_by_reply this rmsg]> msgs0)
                 (trace w ++ [Ev (CallReply this p) []]) →
    cmd_step this c w w'
| step_reply_async src x p msgs0 t :
    c = CmdReply src →
    actors w !! this = Some x →
    using_fast_send x = false →
    reply_to x = Some t →
    resolved src (messages w) p msgs0 →
    send_effect t p (Some this) (actors w) msgs0 (actors w') (messages w') →
    trace w' =
      trace w ++ [Ev (CallReply this p) [Ev (CallSend t p (Some this)) []]] →
    cmd_step this c w w'
| step_send t src from p msgs0 :
    c = CmdSend t src from →
    resolved src (messages w) p msgs0 →
    send_effect t p from (actors w) msgs0 (actors w') (messages w') →
    trace w' = trace w ++ [Ev (CallSend t p from) []] →
    cmd_step this c w w'
| step_set_terminated x :
    c = CmdSetTerminated →
    actors w !! this = Some x →
    w' = with_actors (<[this := with_terminated true x]> (actors w)) w →
    cmd_step this c w w'.

Lemma exec_cmd_Ok this c w w' :
  exec_cmd this c w = Ok (tt, w') → cmd_step this c w w'.
Proof.
  destruct c as [src|t src from|]; simpl; intros H.
  - apply bind_Ok in H as (p & w1 & Hr & H).
    apply resolve_Ok in Hr as (Hr & Ha & Ht).
    unfold reply in H. apply call_scope_Ok in H as (w2 & H & ->).
    step_in H. simpl in *.
    destruct (using_fast_send x) eqn:Hf.
    + steps H. rewrite Ha, Ht in *.
      eapply step_reply_fast; eauto.
    + step_in H. step_in H. simpl in *. tidy.
      destruct (reply_to x) as [t|] eqn:Hrt; [|done]. tidy.
      apply send_Ok in H as [He Htr]. simpl in *.
      rewrite Ha, Ht in *.
      eapply step_reply_async; eauto; simpl; try done. by rewrite Htr.
  - apply bind_Ok in H as (p & w1 & Hr & H).
    apply resolve_Ok in Hr as (Hr & Ha & Ht).
    apply send_Ok in H as [He Htr]. rewrite Ha, Ht in *.
    by eapply step_send.
  - steps H. by eapply step_set_terminated.
Qed.

Lemma exec_invariant this (Inv : World → Prop) body :
  (∀ c w1 w2, Inv w1 → cmd_step this c w1 w2 → Inv w2) →
  ∀ w w', Inv w → exec this body w = Ok (tt, w') → Inv w'.
Proof.
  intros Hstep. induction body as [|c rest IH]; intros w w' Hw H; simpl in H.
  - steps H. done.
  - apply bind_Ok in H as ([] & w1 & Hc & H).
    apply exec_cmd_Ok in Hc. eauto.
Qed.

(* ===================================================================== *)
(** * Actor::fast_send and Actor::reply *)
(* ===================================================================== *)

(** Reading the trace of a handler: the messages it replied with and the
    messages it sent. *)
Definition replied (e : event) : option nat :=
  match ev_call e with CallReply _ p => Some p | _ => None end.

Definition sent (e : event) : option nat :=
  match ev_call e with CallSend _ p _ => Some p | _ => None end.

Definition last_reply (evs : list event) : option nat :=
  list.last (omap replied evs).

Definition sends_of (evs : list event) : list nat := omap sent evs.

(** The messages sent after the last reply. *)
Definition sent_since_reply (evs : list event) : list nat :=
  foldl (λ acc e,
           match replied e with
           | Some _ => []
           | None => match sent e with Some p => acc ++ [p] | None => acc end
           end) [] evs.

(** Every mailbox of [w] is found unchanged in [w']. *)
Definition same_mailboxes (w w' : World) : Prop :=
  ∀ a y, actors w !! a = Some y →
         ∃ y', actors w' !! a = Some y' ∧ msgq y' = msgq y.

(** What user code that made the calls [evs] inside a fast_send to [this]
    leaves behind, when it started in [w0] with [x0] at [this]. *)
Definition fast_post (this : nat) (w0 : World) (x0 : Actor)
    (evs : list event) (w : World) : Prop :=
  ∃ x,
    actors w !! this = Some x ∧
    using_fast_send x = true ∧
    cls x = cls x0 ∧
    reply_message x =
      match last_reply evs with Some p => Some p | None => reply_message x0 end ∧
    (sends_of evs = [] → same_mailboxes w0 w) ∧
    (∀ p, last_reply evs = Some p → p ∉ sent_since_reply evs →
          ∃ rmsg, messages w !! p = Some rmsg ∧ sender rmsg = Some this).

Definition fast_inv (this : nat) (w0 : World) (x0 : Actor) (w : World)
  : Prop :=
  ∃ evs, trace w = trace w0 ++ evs ∧ fast_post this w0 x0 evs w.

Lemma resolved_lookup_ne src msgs p msgs0 q :
  resolved src msgs p msgs0 → q ≠ p → msgs0 !! q = msgs !! q.
Proof.
  destruct src as [t b|r]; simpl; intros [-> ->] Hq; [|done].
  by rewrite lookup_insert_ne.
Qed.

Lemma send_effect_lookup_ne t p from acts msgs acts' msgs' q :
  send_effect t p from acts msgs acts' msgs' → q ≠ p → msgs' !! q = msgs !! q.
Proof.
  intros [(x & _ & _ & _ & ->)|(x & msg & g & y & _ & _ & _ & _ & _ & _ & _ & ->)]
    Hq; [done|].
  by rewrite lookup_insert_ne.
Qed.

(** A send changes an actor at most in its mailbox. *)
Lemma send_effect_actor t p from acts msgs acts' msgs' a y :
  send_effect t p from acts msgs acts' msgs' →
  acts !! a = Some y →
  ∃ q, acts' !! a = Some (with_msgq q y).
Proof.
  intros [(x & _ & _ & -> & _)|(x & msg & g & z & _ & _ & _ & _ & _ & Hg & -> & _)]
    Ha.
  - exists (msgq y). rewrite Ha. by destruct y.
  - destruct (decide (g = a)) as [->|Hne].
    + rewrite lookup_insert_eq. rewrite Hg in Ha. injection Ha as ->. eauto.
    + rewrite lookup_insert_ne by done. exists (msgq y). rewrite Ha.
      by destruct y.
Qed.

Lemma fast_inv_step this w0 x0 c w1 w2 :
  fast_inv this w0 x0 w1 → cmd_step this c w1 w2 → fast_inv this w0 x0 w2.
Proof.
  intros (evs & Htr & x & Hx & Hf & Hc & Hrm & Hq & Hs) Hstep.
  destruct Hstep as
    [src x' p msgs0 rmsg -> Hx' Hf' Hres Hp ->
    |src x' p msgs0 t -> Hx' Hf' _ _ _ _
    |t src from p msgs0 -> Hres He Htr'
    |x' -> Hx' ->].
  - (* reply inside the fast_send *)
    rewrite Hx in Hx'. injection Hx' as <-.
    exists (evs ++ [Ev (CallReply this p) []]).
    simpl. rewrite Htr, <- app_assoc. split; [done|].
    exists (with_reply_message (Some p) x). simpl.
    rewrite lookup_insert_eq. do 3 (split; [done|]).
    unfold last_reply, sends_of, sent_since_reply.
    rewrite foldl_snoc, !omap_app. simpl.
    rewrite last_snoc, app_nil_r. split; [done|]. split.
    + intros Hno a y Ha. destruct (Hq Hno a y Ha) as (y' & Hy' & Hmq).
      simpl. destruct (decide (this = a)) as [->|Hne].
      * rewrite lookup_insert_eq. rewrite Hx in Hy'. injection Hy' as <-.
        eauto.
      * rewrite lookup_insert_ne by done. eauto.
    + intros q [= <-] _. rewrite lookup_insert_eq. eauto.
  - (* a reply outside a fast_send cannot happen here *)
    rewrite Hx in Hx'. injection Hx' as <-. congruence.
  - (* send *)
    destruct (send_effect_actor _ _ _ _ _ _ _ this x He Hx) as (q & Hx2).
    exists (evs ++ [Ev (CallSend t p from) []]).
    rewrite Htr', Htr, <- app_assoc. split; [done|].
    exists (with_msgq q x).
    do 3 (split; [done|]).
    unfold last_reply, sends_of, sent_since_reply.
    rewrite foldl_snoc, !omap_app. simpl.
    rewrite app_nil_r. split; [done|]. split.
    + intros Hno. by destruct (omap sent evs).
    + intros r Hr Hnot. apply not_elem_of_app in Hnot as [Hnot Hne].
      apply not_elem_of_cons in Hne as [Hne _].
      destruct (Hs r Hr Hnot) as (rmsg & Hrmsg & Hsender).
      exists rmsg. split; [|done].
      rewrite (send_effect_lookup_ne _ _ _ _ _ _ _ r He Hne).
      by rewrite (resolved_lookup_ne _ _ _ _ r Hres Hne).
  - (* terminated = true *)
    rewrite Hx in Hx'. injection Hx' as <-.
    exists evs. split; [done|].
    exists (with_terminated true x). simpl.
    rewrite lookup_insert_eq. do 4 (split; [done|]). split; [|done].
    intros Hno a y Ha. destruct (Hq Hno a y Ha) as (y' & Hy' & Hmq).
    simpl. destruct (decide (this = a)) as [->|Hne].
    + rewrite lookup_insert_eq. rewrite Hx in Hy'. injection Hy' as <-. eauto.
    + rewrite lookup_insert_ne by done. eauto.
Qed.

Lemma exec_user_fast this body w1 w2 x1 :
  actors w1 !! this = Some x1 →
  using_fast_send x1 = true →
  exec this body (with_trace [] w1) = Ok (tt, w2) →
  fast_post this w1 x1 (trace w2) w2.
Proof.
  intros Hx Hf H.
  assert (fast_inv this (with_trace [] w1) x1 w2) as (evs & Htr & Hpost).
  { eapply (exec_invariant this _ body); [| |exact H].
    - intros c wa wb. apply fast_inv_step.
    - exists []. split; [by rewrite app_nil_r|].
      exists x1. simpl. do 4 (split; [done|]). split.
      + intros _ a y Ha. eauto.
      + intros p Hp. done. }
  simpl in Htr. rewrite Htr. exact Hpost.
Qed.

Lemma same_mailboxes_refl w : same_mailboxes w w.
Proof. intros a y Ha. eauto. Qed.

Lemma same_mailboxes_trans w1 w2 w3 :
  same_mailboxes w1 w2 → same_mailboxes w2 w3 → same_mailboxes w1 w3.
Proof.
  intros H12 H23 a y Ha.
  destruct (H12 a y Ha) as (y2 & Hy2 & Hq2).
  destruct (H23 a y2 Hy2) as (y3 & Hy3 & Hq3).
  exists y3. split; [done|congruence].
Qed.

Lemma same_mailboxes_update w a x y :
  actors w !! a = Some x → msgq y = msgq x →
  same_mailboxes w (with_actors (<[a := y]> (actors w)) w).
Proof.
  intros Hx Hq b z Hb. simpl.
  destruct (decide (a = b)) as [->|Hne].
  - rewrite lookup_insert_eq. rewrite Hx in Hb. injection Hb as <-. eauto.
  - rewrite lookup_insert_ne by done. eauto.
Qed.

Lemma fast_post_rebase this w0 x0 w1 x1 evs w2 :
  fast_post this w1 x1 evs w2 →
  reply_message x1 = reply_message x0 →
  cls x1 = cls x0 →
  same_mailboxes w0 w1 →
  fast_post this w0 x0 evs w2.
Proof.
  intros (x & Hx & Hf & Hc & Hr & Hq & Hs) Hrm Hcls Hsame.
  exists x. split; [done|]. split; [done|]. split; [congruence|].
  split; [by rewrite Hr, Hrm|]. split; [|done].
  intros Hno. eapply same_mailboxes_trans; eauto.
Qed.

Lemma fast_post_update this w0 x0 evs w x y :
  fast_post this w0 x0 evs w →
  actors w !! this = Some x →
  using_fast_send y = using_fast_send x →
  cls y = cls x →
  reply_message y = reply_message x →
  msgq y = msgq x →
  fast_post this w0 x0 evs (with_actors (<[this := y]> (actors w)) w).
Proof.
  intros (x' & Hx' & Hf & Hc & Hr & Hq & Hs) Hx Hf' Hc' Hr' Hq'.
  rewrite Hx in Hx'. injection Hx' as <-.
  exists y. simpl. rewrite lookup_insert_eq.
  split; [done|]. split; [congruence|]. split; [congruence|].
  split; [congruence|]. split; [|done].
  intros Hno. eapply same_mailboxes_trans; [by apply Hq|].
  by apply same_mailboxes_update with x.
Qed.

Lemma fast_post_with_trace this w0 x0 evs w t :
  fast_post this w0 x0 evs w → fast_post this w0 x0 evs (with_trace t w).
Proof. intros H. exact H. Qed.

Lemma process_message_user_fast frec prec this m w1 w2 x1 code :
  actors w1 !! this = Some x1 →
  cls x1 = UserClass code →
  using_fast_send x1 = true →
  process_message frec prec this m w1 = Ok (tt, w2) →
  ∃ evs, trace w2 = trace w1 ++ [Ev (CallProcessMessage this m) evs] ∧
         fast_post this w1 x1 evs w2.
Proof.
  intros Hx Hc Hf H. unfold process_message in H.
  apply call_scope_Ok in H as (wb & H & ->).
  step_in H. simpl in *. tidy. rewrite Hc in H.
  exists (trace wb). split; [done|]. apply fast_post_with_trace.
  by apply (exec_user_fast this (on_process_message code)).
Qed.

Lemma invoke_user_fast frec prec this f m w1 w2 x1 code :
  actors w1 !! this = Some x1 →
  cls x1 = UserClass code →
  using_fast_send x1 = true →
  invoke frec prec this f m w1 = Ok (tt, w2) →
  ∃ evs, trace w2 = trace w1 ++ [Ev (CallHandler this f m) evs] ∧
         fast_post this w1 x1 evs w2.
Proof.
  intros Hx Hc Hf H. unfold invoke in H.
  apply call_scope_Ok in H as (wb & H & ->).
  exists (trace wb). split; [done|]. apply fast_post_with_trace.
  destruct f as [n| |].
  - step_in H. simpl in *. tidy. rewrite Hc in H.
    destruct (on_handler code !! n) as [body|] eqn:Hb; [|done].
    by apply (exec_user_fast this body).
  - unfold start_handler in H. step_in H. simpl in *. tidy.
    by rewrite Hc in H.
  - unfold shutdown_handler in H. step_in H. simpl in *. tidy.
    by rewrite Hc in H.
Qed.

(** The dispatch of Actor::fast_send on an actor of a user class: one
    handler (or the process_message fallback) runs, and it runs user
    code. *)
Lemma dispatch_user_fast frec prec this m w1 w2 x1 code :
  actors w1 !! this = Some x1 →
  cls x1 = UserClass code →
  using_fast_send x1 = true →
  (let* called := call_handler frec prec this m in
   if called : bool then ret tt else process_message frec prec this m) w1
    = Ok (tt, w2) →
  ∃ c evs,
    trace w2 = trace w1 ++ [Ev c evs] ∧
    (c = CallProcessMessage this m ∨ ∃ f, c = CallHandler this f m) ∧
    fast_post this w1 x1 evs w2.
Proof.
  intros Hx Hc Hf H.
  apply bind_Ok in H as (called & wc & Hcall & H).
  unfold call_handler in Hcall.
  apply bind_Ok in Hcall as (msg & ? & Hmsg & Hcall). steps Hmsg.
  apply bind_Ok in Hcall as (x & ? & Hx' & Hcall). steps Hx'.
  apply bind_Ok in Hcall as (f0 & ? & Hf0 & Hcall). steps Hf0.
  destruct f0 as [f|].
  - (* cache hit *)
    apply bind_Ok in Hcall as ([] & wi & Hi & Hcall). steps Hcall.
    steps H.
    destruct (invoke_user_fast _ _ _ _ _ _ _ _ _ Hx Hc Hf Hi) as (evs & ? & ?).
    exists (CallHandler this f m), evs. eauto.
  - apply bind_Ok in Hcall as (dont & ? & Hdont & Hcall). steps Hdont.
    destruct dont.
    + (* negative flag *)
      steps Hcall.
      destruct (process_message_user_fast _ _ _ _ _ _ _ _ Hx Hc Hf H)
        as (evs & ? & ?).
      exists (CallProcessMessage this m), evs. eauto.
    + destruct (handlers x1 !! mtype msg) as [f|] eqn:Hh.
      * (* found in the handler table *)
        apply bind_Ok in Hcall as ([] & wi & Hi & Hcall).
        destruct (invoke_user_fast _ _ _ _ _ _ _ _ _ Hx Hc Hf Hi)
          as (evs & Htr & Hpost).
        apply bind_Ok in Hcall as (x' & ? & Hx' & Hcall). steps Hx'.
        steps Hcall. steps H.
        exists (CallHandler this f m), evs. split; [done|]. split; [eauto|].
        by eapply fast_post_update.
      * (* not found: the negative flag is set, then the fallback runs *)
        steps Hcall.
        match type of H with
        | process_message _ _ _ _ ?w = _ => set (w1' := w) in *
        end.
        destruct (process_message_user_fast _ _ _ _ w1' _
          (with_dont_have_handler
             (<[Z.to_nat (get_message_id (mtype msg)) := true]>
                (dont_have_handler x1)) x1) code
          ltac:(by simpl; rewrite lookup_insert_eq) Hc Hf H) as (evs & ? & ?).
        exists (CallProcessMessage this m), evs. split; [done|].
        split; [eauto|].
        eapply fast_post_rebase; [done..|].
        by apply same_mailboxes_update with x1.
Qed.

Lemma lock_Ok a u w w' :
  lock a w = Ok (u, w') →
  ∃ x, actors w !! a = Some x ∧ fast_send_mutex x = false ∧
       w' = with_actors (<[a := with_fast_send_mutex true x]> (actors w)) w.
Proof.
  intros H. unfold lock in H.
  apply bind_Ok in H as (x & ? & Hx & H). steps Hx.
  destruct (fast_send_mutex x) eqn:Hm; [done|].
  steps H. eauto.
Qed.

Lemma last_reply_or_none evs :
  match last_reply evs with Some p => Some p | None => None end
  = last_reply evs.
Proof. by destruct (last_reply evs). Qed.

(** Actor::fast_send on an actor of a user class that is not terminated. *)
Lemma fast_send_user fuel this m from w w' x code r :
  actors w !! this = Some x →
  cls x = UserClass code →
  terminated x = false →
  fast_send (S fuel) this m from w = Ok (r, w') →
  ∃ msg c evs,
    messages w !! m = Some msg ∧
    trace w' = trace w ++ [Ev (CallFastSend this m (mtype msg) from) [Ev c evs]] ∧
    (c = CallProcessMessage this m ∨ ∃ f, c = CallHandler this f m) ∧
    r = last_reply evs ∧
    (∀ p, r = Some p → p ∉ sent_since_reply evs →
          ∃ rmsg, messages w' !! p = Some rmsg ∧ sender rmsg = Some this) ∧
    (sends_of evs = [] → same_mailboxes w w').
Proof.
  intros Hx Hc Ht H. simpl in H. unfold fast_send_body in H.
  apply bind_Ok in H as (msg & ? & Hmsg & H). steps Hmsg.
  apply call_scope_Ok in H as (wb & H & ->).
  apply bind_Ok in H as ([] & wl & Hl & H).
  apply lock_Ok in Hl as (x0 & Hx0 & Hmut & ->). simpl in Hx0. tidy.
  apply bind_Ok in H as ([] & ? & Ha & H). steps Ha.
  apply bind_Ok in H as ([] & ? & Hu & H). steps Hu.
  apply bind_Ok in H as ([] & ? & Hu & H). steps Hu.
  rewrite lookup_insert_eq in *. tidy.
  apply bind_Ok in H as ([] & ? & Hi & H).
  apply incr_msg_cnt_Ok in Hi as (xi & Hxi & _ & ->). simpl in Hxi.
  rewrite lookup_insert_eq in Hxi. injection Hxi as <-.
  apply bind_Ok in H as (x2 & w2 & Hx2 & H).
  apply get_actor_Ok in Hx2 as [Hx2 ->]. simpl in Hx2.
  rewrite lookup_insert_eq in Hx2. injection Hx2 as <-. simpl in H.
  rewrite Ht in H.
  match type of H with
  | _ ?w0 = Ok _ => set (w1 := w0) in *
  end.
  set (x1 := counted_fast_send (with_fast_send_mutex true x)).
  assert (actors w1 !! this = Some x1) as Hx1
    by (subst w1; simpl; apply lookup_insert_eq).
  assert (same_mailboxes w w1) as Hsame.
  { subst w1. intros a y Hy. simpl. rewrite !insert_insert_eq.
    destruct (decide (this = a)) as [->|Hne].
    - rewrite lookup_insert_eq. rewrite Hx in Hy. injection Hy as <-. eauto.
    - rewrite lookup_insert_ne by done. eauto. }
  rewrite <- (bind_assoc
    (call_handler (fast_send fuel) (process_message_internal fuel) this m)
    (λ called : bool, if called then ret tt
       else process_message (fast_send fuel) (process_message_internal fuel)
              this m)) in H.
  apply bind_Ok in H as ([] & wd & Hd & H).
  destruct (dispatch_user_fast _ _ this m w1 wd x1 code Hx1 Hc eq_refl Hd)
    as (c & evs & Htr & Hkind & x' & Hx' & Hf' & Hc' & Hr' & Hq' & Hs').
  apply bind_Ok in H as (x3 & ? & Hx3 & H). steps Hx3.
  unfold unlock in H. steps H.
  exists msg, c, evs. split; [done|]. simpl. rewrite Htr. simpl.
  split; [done|]. split; [done|]. simpl in Hr'.
  rewrite last_reply_or_none in Hr'. split; [done|]. split.
  - intros p Hp Hnot. rewrite Hr' in Hp. eauto.
  - intros Hno. eapply same_mailboxes_trans; [exact Hsame|].
    eapply same_mailboxes_trans; [by apply Hq'|].
    eapply same_mailboxes_update; eauto.
Qed.

(* ===================================================================== *)
(** * The worker loop: Actor::operator()() *)
(* ===================================================================== *)

Lemma process_message_internal_trace fuel this m d w w' :
  process_message_internal fuel this m d w = Ok (tt, w') →
  ∃ msg inner,
    messages w !! m = Some msg ∧
    trace w' =
      trace w ++ [Ev (CallProcessMessageInternal this m (mtype msg) d) inner].
Proof.
  destruct fuel as [|n]; [done|]. simpl. unfold process_message_internal_body.
  intros H.
  apply bind_Ok in H as (msg & ? & Hmsg & H). steps Hmsg.
  apply call_scope_Ok in H as (wb & H & ->).
  exists msg, (trace wb). done.
Qed.

(** The message a turn of the loop pops, as it is when it is dispatched. *)
Definition popped (last_ : bool) (msg : Message) : Message :=
  mkMessage (mtype msg) (body msg) (sender msg) (destination msg)
    (is_fast msg) last_.

Lemma worker_turn_Ok fuel this stop w w' :
  worker_turn fuel this w = Ok (stop, w') →
  ∃ x m last_ q msg x' inner,
    actors w !! this = Some x ∧
    BQueue.pop (msgq x) = Some (m, last_, q) ∧
    messages w !! m = Some msg ∧
    process_message_internal fuel this m false
      (mkWorld (<[this := with_reply_to (sender msg) (with_msgq q x)]> (actors w))
               (<[m := popped last_ msg]> (messages w))
               (trace w)) = Ok (tt, w') ∧
    trace w' =
      trace w ++
      [Ev (CallProcessMessageInternal this m (mtype msg) false) inner] ∧
    actors w' !! this = Some x' ∧
    stop = (get_message_id (mtype msg) =? 5) || terminated x'.
Proof.
  intros H. unfold worker_turn in H.
  apply bind_Ok in H as (x & ? & Hx & H). steps Hx.
  destruct (BQueue.pop (msgq x)) as [[[m last_] q]|] eqn:Hpop; [|done].
  apply bind_Ok in H as ([] & ? & Hu & H). steps Hu.
  apply bind_Ok in H as ([] & ? & Hu & H).
  apply update_message_Ok in Hu as (msg & Hmsg & ->). simpl in Hmsg.
  apply bind_Ok in H as (msg' & ? & Hmsg' & H).
  apply get_message_Ok in Hmsg' as [Hmsg' ->]. simpl in Hmsg'.
  rewrite lookup_insert_eq in Hmsg'. injection Hmsg' as <-.
  apply bind_Ok in H as ([] & ? & Hu & H).
  apply update_actor_Ok in Hu as (x1 & Hx1 & ->). simpl in Hx1.
  rewrite lookup_insert_eq in Hx1. injection Hx1 as <-.
  apply bind_Ok in H as ([] & wd & Hd & H).
  apply bind_Ok in H as (x' & ? & Hx' & H).
  apply get_actor_Ok in Hx' as [Hx' ->].
  apply ret_Ok in H as [-> ->].
  simpl in Hd. rewrite insert_insert_eq in Hd.
  destruct (process_message_internal_trace _ _ _ _ _ _ Hd)
    as (msg1 & inner & Hm1 & Htr). simpl in Hm1, Htr.
  rewrite lookup_insert_eq in Hm1. injection Hm1 as <-. simpl in Htr.
  exists x, m, last_, q, msg, x', inner. done.
Qed.

(** The class of the message a dispatch event of the worker of [this]
    carries. *)
Definition dispatch_of (this : nat) (e : event) : option type_index :=
  match ev_call e with
  | CallProcessMessageInternal a _ t false =>
      if bool_decide (a = this) then Some t else None
  | _ => None
  end.

Lemma dispatch_of_event this m t inner :
  dispatch_of this (Ev (CallProcessMessageInternal this m t false) inner)
  = Some t.
Proof. unfold dispatch_of. simpl. by rewrite bool_decide_true. Qed.

Lemma worker_loop_unfold fuel this w w' :
  worker_loop (S fuel) this w = Ok (tt, w') ↔
  ∃ stop w1, worker_turn fuel this w = Ok (stop, w1) ∧
             if stop : bool then w' = w1
             else worker_loop fuel this w1 = Ok (tt, w').
Proof.
  simpl. rewrite bind_Ok. split.
  - intros (stop & w1 & Ht & H). exists stop, w1. split; [done|].
    destruct stop; [|done]. by apply ret_Ok in H as [_ ->].
  - intros (stop & w1 & Ht & H). exists stop, w1. split; [done|].
    destruct stop; [|done]. by subst.
Qed.

Lemma worker_loop_Ok fuel this : ∀ w w',
  worker_loop fuel this w = Ok (tt, w') →
  ∃ evs e t x',
    trace w' = trace w ++ evs ++ [e] ∧
    Forall (λ e, ∃ t, dispatch_of this e = Some t ∧ get_message_id t ≠ 5) evs ∧
    dispatch_of this e = Some t ∧
    actors w' !! this = Some x' ∧
    (get_message_id t = 5 ∨ terminated x' = true).
Proof.
  induction fuel as [|n IH]; intros w w' H; [done|].
  apply worker_loop_unfold in H as (stop & w1 & Ht & H).
  apply worker_turn_Ok in Ht
    as (x & m & last_ & q & msg & x' & inner & _ & _ & _ & _ & Htr & Hx' & Hstop).
  destruct stop.
  - subst w'. symmetry in Hstop. apply orb_true_iff in Hstop.
    exists [], (Ev (CallProcessMessageInternal this m (mtype msg) false) inner),
      (mtype msg), x'.
    split; [done|]. split; [constructor|].
    split; [apply dispatch_of_event|]. split; [done|].
    destruct Hstop as [Hid|Hterm]; [left; lia|by right].
  - symmetry in Hstop. apply orb_false_iff in Hstop as [Hid _].
    destruct (IH w1 w' H) as (evs & e & t & x'' & Htr' & Hall & He & Hx'' & Hc).
    exists (Ev (CallProcessMessageInternal this m (mtype msg) false) inner
            :: evs), e, t, x''.
    split; [by rewrite Htr', Htr, <- !app_assoc|].
    split; [|done].
    constructor; [|done]. exists (mtype msg).
    split; [apply dispatch_of_event|lia].
Qed.

Lemma terminated_step this c w1 w2 :
  (∃ x, actors w1 !! this = Some x ∧ terminated x = true) →
  cmd_step this c w1 w2 →
  ∃ x, actors w2 !! this = Some x ∧ terminated x = true.
Proof.
  intros (x & Hx & Ht) Hstep.
  destruct Hstep as
    [src x' p msgs0 rmsg -> Hx' Hf' Hres Hp ->
    |src x' p msgs0 t -> Hx' Hf' _ _ He _
    |t src from p msgs0 -> Hres He Htr'
    |x' -> Hx' ->].
  - rewrite Hx in Hx'. injection Hx' as <-. simpl.
    rewrite lookup_insert_eq. eexists; split; [reflexivity|done].
  - destruct (send_effect_actor _ _ _ _ _ _ _ this x He Hx) as (q & Hx2).
    by exists (with_msgq q x).
  - destruct (send_effect_actor _ _ _ _ _ _ _ this x He Hx) as (q & Hx2).
    by exists (with_msgq q x).
  - simpl. rewrite lookup_insert_eq. eexists; split; [reflexivity|done].
Qed.

Lemma for_each_emit_actors {X} (l : list X) (f : X → call) : ∀ w w',
  for_each l (λ x, emit (f x)) w = Ok (tt, w') → actors w' = actors w.
Proof.
  induction l as [|x l IH]; intros w w' H; simpl in H.
  - by steps H.
  - apply bind_Ok in H as ([] & w1 & He & H).
    unfold emit in He. apply call_scope_Ok in He as (w2 & He & ->).
    steps He. by rewrite (IH _ _ H).
Qed.

Lemma end_terminated this w w' :
  (∃ x, actors w !! this = Some x ∧ terminated x = true) →
  end_ this w = Ok (tt, w') →
  ∃ i x', trace w' = trace w ++ [Ev (CallEnd this) i] ∧
          actors w' !! this = Some x' ∧ terminated x' = true.
Proof.
  intros Hinv H. unfold end_ in H.
  apply call_scope_Ok in H as (wb & H & ->).
  assert (∃ x', actors wb !! this = Some x' ∧ terminated x' = true)
    as (x' & ? & ?); [|by exists (trace wb), x'].
  apply bind_Ok in H as (x & ? & Hx & H). steps Hx.
  destruct (cls x) as [code|gn mem n2a|al tl mn en|le|zs ra re] eqn:Hcls.
  - exact (exec_invariant this
      (λ w, ∃ x, actors w !! this = Some x ∧ terminated x = true)
      (on_end code) (λ c w1 w2, terminated_step this c w1 w2)
      (with_trace [] w) wb Hinv H).
  - steps H. done.
  - unfold Manager_end in H.
    apply bind_Ok in H as (y & ? & Hy & H). steps Hy. rewrite Hcls in H.
    apply for_each_emit_actors in H. simpl in H. by rewrite H.
  - steps H. done.
  - steps H. done.
Qed.

Lemma operator_call_Ok fuel this w w' :
  operator_call fuel this w = Ok (tt, w') →
  ∃ i1 evs e t i2 x',
    trace w' =
      trace w ++ [Ev (CallInit this) i1] ++ evs ++ [e] ++ [Ev (CallEnd this) i2] ∧
    Forall (λ e, ∃ t, dispatch_of this e = Some t ∧ get_message_id t ≠ 5) evs ∧
    dispatch_of this e = Some t ∧
    actors w' !! this = Some x' ∧
    terminated x' = true.
Proof.
  intros H. unfold operator_call in H.
  apply bind_Ok in H as ([] & w1 & Hu & H).
  apply update_actor_Ok in Hu as (x0 & Hx0 & ->).
  apply bind_Ok in H as ([] & w2 & Hi & H).
  unfold init in Hi. apply call_scope_Ok in Hi as (wi & _ & ->).
  apply bind_Ok in H as ([] & w3 & Hl & H).
  apply worker_loop_Ok in Hl as (evs & e & t & x3 & Htr & Hall & He & Hx3 & _).
  apply bind_Ok in H as ([] & w4 & Hu & H).
  apply update_actor_Ok in Hu as (x4 & Hx4 & ->).
  apply end_terminated in H as (i2 & x' & Htr' & Hx' & Ht');
    [|by simpl; rewrite lookup_insert_eq; eauto].
  exists (trace wi), evs, e, t, i2, x'.
  split; [|done]. rewrite Htr'. simpl. rewrite Htr. simpl.
  by rewrite <- !app_assoc.
Qed.

(* ===================================================================== *)
(** * Group: the Start and Shutdown fan-out *)
(* ===================================================================== *)

Lemma fast_send_trace fuel this m from w r w' :
  fast_send fuel this m from w = Ok (r, w') →
  ∃ msg inner,
    messages w !! m = Some msg ∧
    trace w' = trace w ++ [Ev (CallFastSend this m (mtype msg) from) inner].
Proof.
  destruct fuel as [|n]; [done|]. simpl. unfold fast_send_body. intros H.
  apply bind_Ok in H as (msg & ? & Hmsg & H). steps Hmsg.
  apply call_scope_Ok in H as (wb & H & ->).
  exists msg, (trace wb). done.
Qed.

Lemma init_trace frec this w w' :
  init frec this w = Ok (tt, w') →
  ∃ inner, trace w' = trace w ++ [Ev (CallInit this) inner].
Proof.
  unfold init. intros H. apply call_scope_Ok in H as (wb & H & ->).
  by exists (trace wb).
Qed.

Lemma end_trace this w w' :
  end_ this w = Ok (tt, w') →
  ∃ inner, trace w' = trace w ++ [Ev (CallEnd this) inner].
Proof.
  unfold end_. intros H. apply call_scope_Ok in H as (wb & H & ->).
  by exists (trace wb).
Qed.

Lemma drop_unique_ptr_trace p w w' :
  drop_unique_ptr p w = Ok (tt, w') → trace w' = trace w.
Proof. destruct p; simpl; intros H; steps H; done. Qed.

(** The calls a Group makes on its members, without the addresses of the
    messages it allocates for them. *)
Inductive lifecycle :=
| LInit (a : nat)
| LEnd (a : nat)
| LFastSend (a : nat) (t : type_index) (from : option nat)
| LOther.

Definition lifecycle_of (e : event) : lifecycle :=
  match ev_call e with
  | CallInit a => LInit a
  | CallEnd a => LEnd a
  | CallFastSend a _ t from => LFastSend a t from
  | _ => LOther
  end.

Lemma start_fan_out_loop fuel this members : ∀ w w',
  for_each members (λ a,
    init (fast_send fuel) a >>
    let* p := new_message (Message_new Start JNull) in
    let* r := fast_send fuel a p (Some this) in
    drop_unique_ptr r) w = Ok (tt, w') →
  ∃ evs, trace w' = trace w ++ evs ∧
         map lifecycle_of evs =
         flat_map (λ a, [LInit a; LFastSend a Start (Some this)]) members.
Proof.
  induction members as [|a rest IH]; intros w w' H; simpl in H.
  - steps H. exists []. by rewrite app_nil_r.
  - apply bind_Ok in H as ([] & w4 & Hbody & H).
    apply bind_Ok in Hbody as ([] & w1 & Hi & Hbody).
    apply init_trace in Hi as (i1 & Htr1).
    apply bind_Ok in Hbody as (p & w2 & Hn & Hbody).
    apply new_message_Ok in Hn as [-> ->].
    apply bind_Ok in Hbody as (r & w3 & Hf & Hbody).
    apply fast_send_trace in Hf as (msg & i2 & Hmsg & Htr3).
    simpl in Hmsg, Htr3. rewrite lookup_insert_eq in Hmsg.
    injection Hmsg as <-. simpl in Htr3.
    apply drop_unique_ptr_trace in Hbody.
    destruct (IH w4 w' H) as (evs & Htr & Hmap).
    eexists (_ :: _ :: evs). split.
    + rewrite Htr, Hbody, Htr3, Htr1, <- !app_assoc. reflexivity.
    + simpl. by rewrite Hmap.
Qed.

Lemma shutdown_fan_out_loop fuel this members : ∀ w w',
  for_each members (λ a,
    let* p := new_message (Message_new Shutdown JNull) in
    let* r := fast_send fuel a p (Some this) in
    drop_unique_ptr r >>
    end_ a) w = Ok (tt, w') →
  ∃ evs, trace w' = trace w ++ evs ∧
         map lifecycle_of evs =
         flat_map (λ a, [LFastSend a Shutdown (Some this); LEnd a]) members.
Proof.
  induction members as [|a rest IH]; intros w w' H; simpl in H.
  - steps H. exists []. by rewrite app_nil_r.
  - apply bind_Ok in H as ([] & w4 & Hbody & H).
    apply bind_Ok in Hbody as (p & w1 & Hn & Hbody).
    apply new_message_Ok in Hn as [-> ->].
    apply bind_Ok in Hbody as (r & w2 & Hf & Hbody).
    apply fast_send_trace in Hf as (msg & i2 & Hmsg & Htr2).
    simpl in Hmsg, Htr2. rewrite lookup_insert_eq in Hmsg.
    injection Hmsg as <-. simpl in Htr2.
    apply bind_Ok in Hbody as ([] & w3 & Hd & He).
    apply drop_unique_ptr_trace in Hd.
    apply end_trace in He as (i3 & Htr3).
    destruct (IH w4 w' H) as (evs & Htr & Hmap).
    eexists (_ :: _ :: evs). split.
    + rewrite Htr, Htr3, Hd, Htr2, <- !app_assoc. reflexivity.
    + simpl. by rewrite Hmap.
Qed.


(* ===================================================================== *)
(** * The handler cache and the handler table *)
(* ===================================================================== *)

(** The slow path of the dispatch: the handler registered for the runtime
    type of the message. *)
Definition table_dispatch (x : Actor) (msg : Message) : option handler :=
  handlers x !! mtype msg.

(** The cache of [x] holds nothing but what a look-up in the table [T]
    gave for a message class of that identity. *)
Definition cache_sound_for (T : gmap type_index handler) (x : Actor) : Prop :=
  handlers x = T ∧
  (∀ i f, handler_cache x !! i = Some (Some f) →
          ∃ t, get_message_id t = Z.of_nat i ∧ T !! t = Some f) ∧
  (∀ i, dont_have_handler x !! i = Some true →
        ∃ t, get_message_id t = Z.of_nat i ∧ T !! t = None).

(** [tables a] is the handler table the actor at [a] was set up with. *)
Definition caches_sound (tables : nat → gmap type_index handler) (w : World)
  : Prop :=
  ∀ a x, actors w !! a = Some x → cache_sound_for (tables a) x.

(** Every cache as Actor::Actor() leaves it. *)
Definition caches_fresh (w : World) : Prop :=
  ∀ a x, actors w !! a = Some x →
    handler_cache x = replicate ACTOR_HANDLER_CACHE_SIZE None ∧
    dont_have_handler x = replicate ACTOR_HANDLER_CACHE_SIZE false.

Definition tables_of (w : World) (a : nat) : gmap type_index handler :=
  match actors w !! a with
  | Some x => handlers x
  | None => ∅
  end.

Lemma caches_fresh_sound w : caches_fresh w → caches_sound (tables_of w) w.
Proof.
  intros Hfresh a x Hx. destruct (Hfresh a x Hx) as [Hc Hd].
  unfold tables_of. rewrite Hx. split; [done|]. split.
  - intros i f Hi. rewrite Hc in Hi.
    apply lookup_replicate in Hi as [? _]. done.
  - intros i Hi. rewrite Hd in Hi.
    apply lookup_replicate in Hi as [? _]. done.
Qed.

Lemma cache_sound_frame T x y :
  handler_cache y = handler_cache x →
  dont_have_handler y = dont_have_handler x →
  handlers y = handlers x →
  cache_sound_for T x → cache_sound_for T y.
Proof.
  intros Hc Hd Hh (Ht & H1 & H2). unfold cache_sound_for.
  rewrite Hc, Hd, Hh. done.
Qed.

Definition preserves {A} (P : World → Prop) (c : M A) : Prop :=
  ∀ w x w', P w → c w = Ok (x, w') → P w'.

Section Preservation.
Variable tables : nat → gmap type_index handler.
Local Abbreviation P := (caches_sound tables).

Lemma pres_ret {A} (x : A) : preserves P (ret x).
Proof. intros w y w' Hw H. by steps H. Qed.

Lemma pres_throw {A} e : preserves P (throw (A:=A) e).
Proof. intros w y w' Hw H. done. Qed.

Lemma pres_bind {A B} (c : M A) (k : A → M B) :
  preserves P c → (∀ x, preserves P (k x)) → preserves P (bind c k).
Proof.
  intros Hc Hk w y w' Hw H.
  apply bind_Ok in H as (x & w1 & H1 & H2).
  exact (Hk x w1 y w' (Hc w x w1 Hw H1) H2).
Qed.

Lemma pres_assert b s : preserves P (assert b s).
Proof. intros w y w' Hw H. by steps H. Qed.

Lemma pres_deref p : preserves P (deref p).
Proof. intros w y w' Hw H. by steps H. Qed.

Lemma pres_get_actor a : preserves P (get_actor a).
Proof. intros w y w' Hw H. by apply get_actor_Ok in H as [_ ->]. Qed.

Lemma pres_get_message m : preserves P (get_message m).
Proof. intros w y w' Hw H. by apply get_message_Ok in H as [_ ->]. Qed.

Lemma pres_update_message m f : preserves P (update_message m f).
Proof.
  intros w y w' Hw H. by apply update_message_Ok in H as (? & _ & ->).
Qed.

Lemma pres_new_message x : preserves P (new_message x).
Proof. intros w y w' Hw H. by apply new_message_Ok in H as [_ ->]. Qed.

Lemma pres_delete_message m : preserves P (delete_message m).
Proof. intros w y w' Hw H. by apply delete_message_Ok in H as [_ ->]. Qed.

Lemma pres_drop_unique_ptr p : preserves P (drop_unique_ptr p).
Proof. destruct p; [apply pres_delete_message|apply pres_ret]. Qed.

Lemma pres_vector_at {X} (v : list X) i : preserves P (vector_at v i).
Proof. intros w y w' Hw H. by apply vector_at_Ok in H as (_ & _ & ->). Qed.

Lemma pres_vector_in_range {X} (v : list X) i :
  preserves P (vector_in_range v i).
Proof. intros w y w' Hw H. by apply vector_in_range_Ok in H as (_ & ->). Qed.

Lemma pres_call_scope {A} c (body : M A) :
  preserves P body → preserves P (call_scope c body).
Proof.
  intros Hb w y w' Hw H. apply call_scope_Ok in H as (w1 & H & ->).
  exact (Hb (with_trace [] w) y w1 Hw H).
Qed.

Lemma pres_emit c : preserves P (emit c).
Proof. apply pres_call_scope, pres_ret. Qed.

Lemma pres_for_each {X} (l : list X) (f : X → M unit) :
  (∀ x, preserves P (f x)) → preserves P (for_each l f).
Proof.
  intros Hf. induction l as [|x l IH]; simpl.
  - apply pres_ret.
  - apply pres_bind; [apply Hf|]. intros _. apply IH.
Qed.

Lemma pres_update_actor a f :
  (∀ x, cache_sound_for (tables a) x → cache_sound_for (tables a) (f x)) →
  preserves P (update_actor a f).
Proof.
  intros Hf w y w' Hw H. apply update_actor_Ok in H as (x & Hx & ->).
  intros b z Hb. simpl in Hb.
  destruct (decide (a = b)) as [->|Hne].
  - rewrite lookup_insert_eq in Hb. injection Hb as <-. eauto.
  - rewrite lookup_insert_ne in Hb by done. eauto.
Qed.

(** An update that touches neither the cache nor the table. *)
Lemma pres_incr_msg_cnt a : preserves P (incr_msg_cnt a).
Proof.
  intros w y w' Hw H. apply incr_msg_cnt_Ok in H as (x & Hx & _ & ->).
  intros b z Hb. simpl in Hb.
  destruct (decide (a = b)) as [->|Hne].
  - rewrite lookup_insert_eq in Hb. injection Hb as <-.
    by apply (cache_sound_frame _ x); [..|apply (Hw b)].
  - rewrite lookup_insert_ne in Hb by done. eauto.
Qed.

Lemma pres_update_actor_frame a f :
  (∀ x, handler_cache (f x) = handler_cache x ∧
        dont_have_handler (f x) = dont_have_handler x ∧
        handlers (f x) = handlers x) →
  preserves P (update_actor a f).
Proof.
  intros Hf. apply pres_update_actor. intros x Hx.
  destruct (Hf x) as (? & ? & ?). by apply (cache_sound_frame _ x).
Qed.

Ltac frame_update :=
  apply pres_update_actor_frame;
  let x := fresh in
  intros x; simpl; try (destruct (cls x)); done.

Ltac pres_with known :=
  repeat first
    [ assumption
    | known
    | match goal with H : ∀ _, _ |- preserves _ _ => apply H end
    | apply pres_ret
    | apply pres_throw
    | apply pres_assert
    | apply pres_deref
    | apply pres_get_actor
    | apply pres_get_message
    | apply pres_update_message
    | apply pres_new_message
    | apply pres_delete_message
    | apply pres_drop_unique_ptr
    | apply pres_vector_at
    | apply pres_vector_in_range
    | apply pres_emit
    | apply pres_incr_msg_cnt
    | frame_update
    | apply pres_call_scope
    | (apply pres_for_each; intros ?)
    | (apply pres_bind; [|intros ?])
    | match goal with
      | |- preserves _ (if ?b then _ else _) => destruct b
      | |- preserves _ (match ?x with _ => _ end) => destruct x
      end
    | progress unfold set_thread_affinity, fast_terminate, Manager_end,
        resolve, add_message_to_queue, lock, unlock ].

Ltac pres := pres_with fail.

Lemma pres_lock a : preserves P (lock a).
Proof. unfold lock. pres. Qed.

Lemma pres_unlock a : preserves P (unlock a).
Proof. unfold unlock. pres. Qed.

Lemma pres_send this m from : preserves P (send this m from).
Proof. unfold send, add_message_to_queue. pres. Qed.

Lemma pres_reply this m : preserves P (reply this m).
Proof. unfold reply. pres_with ltac:(apply pres_send). Qed.

Lemma pres_exec this body : preserves P (exec this body).
Proof.
  induction body as [|c rest IH]; simpl; [apply pres_ret|].
  apply pres_bind; [|by intros _].
  destruct c; simpl; pres_with ltac:(first [apply pres_reply | apply pres_send]).
Qed.


(** The functions that call each other through handlers keep the caches
    sound when the calls one level deeper do. *)
Section KnotPreservation.
Variable frec : nat → nat → option nat → M (option nat).
Variable prec : nat → nat → bool → M unit.
Hypothesis Hfrec : ∀ a m from, preserves P (frec a m from).
Hypothesis Hprec : ∀ a m d, preserves P (prec a m d).

Lemma pres_Manager_init this : preserves P (Manager_init frec this).
Proof. unfold Manager_init. pres. Qed.

Lemma pres_init this : preserves P (init frec this).
Proof.
  unfold init.
  pres_with ltac:(first [apply pres_exec | apply pres_Manager_init]).
Qed.

Lemma pres_end this : preserves P (end_ this).
Proof. unfold end_. pres_with ltac:(apply pres_exec). Qed.

Lemma pres_forward m : preserves P (forward prec m).
Proof. unfold forward. pres. Qed.

Lemma pres_start_handler this m : preserves P (start_handler frec prec this m).
Proof.
  unfold start_handler.
  pres_with ltac:(first [apply pres_init | apply pres_forward]).
Qed.

Lemma pres_shutdown_handler this m :
  preserves P (shutdown_handler frec prec this m).
Proof.
  unfold shutdown_handler.
  pres_with ltac:(first [apply pres_end | apply pres_forward]).
Qed.

Lemma pres_Manager_process_message this m :
  preserves P (Manager_process_message frec this m).
Proof.
  unfold Manager_process_message. pres_with ltac:(apply pres_end).
Qed.

Lemma pres_process_message this m :
  preserves P (process_message frec prec this m).
Proof.
  unfold process_message.
  pres_with ltac:(first [apply pres_exec | apply pres_forward
                        | apply pres_Manager_process_message]).
Qed.

Lemma pres_invoke this f m : preserves P (invoke frec prec this f m).
Proof.
  unfold invoke.
  pres_with ltac:(first [apply pres_exec | apply pres_start_handler
                        | apply pres_shutdown_handler]).
Qed.

Lemma cache_sound_fill T x (id : Z) t f :
  0 ≤ id →
  get_message_id t = id →
  T !! t = Some f →
  cache_sound_for T x →
  cache_sound_for T
    (with_handler_cache (<[Z.to_nat id := Some f]> (handler_cache x)) x).
Proof.
  intros Hid Ht Hf (Hh & Hc & Hd). split; [done|]. split; [|done].
  simpl. intros i g Hi.
  destruct (decide (i = Z.to_nat id)) as [->|Hne].
  - assert (Z.to_nat id < length (handler_cache x))%nat as Hlt.
    { apply lookup_lt_Some in Hi. by rewrite length_insert in Hi. }
    rewrite list_lookup_insert_eq in Hi by done. injection Hi as <-.
    exists t. split; [lia|done].
  - rewrite list_lookup_insert_ne in Hi by done. eauto.
Qed.

Lemma cache_sound_negative T x (id : Z) t :
  0 ≤ id →
  get_message_id t = id →
  T !! t = None →
  cache_sound_for T x →
  cache_sound_for T
    (with_dont_have_handler (<[Z.to_nat id := true]> (dont_have_handler x)) x).
Proof.
  intros Hid Ht Hf (Hh & Hc & Hd). split; [done|]. split; [done|].
  simpl. intros i Hi.
  destruct (decide (i = Z.to_nat id)) as [->|Hne].
  - exists t. split; [lia|done].
  - rewrite list_lookup_insert_ne in Hi by done. eauto.
Qed.

(** Every dispatch agrees with the handler table, and a dispatch that had
    to consult the table leaves its answer in the cache. *)
Lemma call_handler_agrees this m w called w' x msg :
  (∀ t1 t2, get_message_id t1 = get_message_id t2 → t1 = t2) →
  P w →
  actors w !! this = Some x →
  messages w !! m = Some msg →
  call_handler frec prec this m w = Ok (called, w') →
  match table_dispatch x msg with
  | Some f =>
      called = true ∧
      ∃ inner, trace w' = trace w ++ [Ev (CallHandler this f m) inner]
  | None => called = false ∧ trace w' = trace w
  end ∧
  (handler_cache x !! Z.to_nat (get_message_id (mtype msg)) = Some None →
   ∃ x', actors w' !! this = Some x' ∧
         match table_dispatch x msg with
         | Some f =>
             handler_cache x' !! Z.to_nat (get_message_id (mtype msg))
             = Some (Some f)
         | None =>
             dont_have_handler x' !! Z.to_nat (get_message_id (mtype msg))
             = Some true
         end) ∧
  P w'.
Proof.
  intros Hinj Hw Hx Hm H. unfold table_dispatch.
  destruct (Hw this x Hx) as (Hh & Hc & Hd).
  unfold call_handler in H.
  apply bind_Ok in H as (msg0 & ? & Hmsg & H). steps Hmsg.
  apply bind_Ok in H as (x0 & ? & Hx0 & H). steps Hx0.
  apply bind_Ok in H as (f0 & ? & Hf0 & H).
  apply vector_at_Ok in Hf0 as (Hrange & Hf0 & ->).
  assert (Z.of_nat (Z.to_nat (get_message_id (mtype msg)))
          = get_message_id (mtype msg)) as Hnat by lia.
  destruct f0 as [f|].
  - (* cache hit *)
    destruct (Hc _ _ Hf0) as (t & Ht & Hf). rewrite Hnat in Ht.
    apply Hinj in Ht as ->. rewrite Hh, Hf.
    apply bind_Ok in H as ([] & wi & Hi & H). apply ret_Ok in H as [-> ->].
    split; [|split].
    + split; [done|]. unfold invoke in Hi.
      apply call_scope_Ok in Hi as (wb & _ & ->). by exists (trace wb).
    + intros Hnone. congruence.
    + by apply (pres_invoke this f m w tt wi).
  - apply bind_Ok in H as (dont & ? & Hdont & H).
    apply vector_at_Ok in Hdont as (Hrange' & Hdont & ->).
    destruct dont.
    + (* negative flag *)
      destruct (Hd _ Hdont) as (t & Ht & Hf). rewrite Hnat in Ht.
      apply Hinj in Ht as ->. rewrite Hh, Hf. apply ret_Ok in H as [-> ->].
      split; [done|]. split; [|done]. intros _. eauto.
    + destruct (handlers x !! mtype msg) as [f|] eqn:Hf.
      * (* found in the table *)
        apply bind_Ok in H as ([] & wi & Hi & H).
        pose proof (pres_invoke this f m w tt wi Hw Hi) as Hwi.
        unfold invoke in Hi. apply call_scope_Ok in Hi as (wb & _ & ->).
        apply bind_Ok in H as (x' & ? & Hx' & H).
        apply get_actor_Ok in Hx' as [Hx' ->].
        apply bind_Ok in H as ([] & ? & Hr & H).
        apply vector_in_range_Ok in Hr as [Hr ->].
        apply bind_Ok in H as ([] & ? & Hu & H).
        apply update_actor_Ok in Hu as (x1 & Hx1 & ->).
        rewrite Hx' in Hx1. injection Hx1 as <-.
        apply ret_Ok in H as [-> ->].
        split; [|split].
        -- split; [done|]. by exists (trace wb).
        -- intros _. eexists. simpl. rewrite lookup_insert_eq.
           split; [reflexivity|]. simpl.
           apply list_lookup_insert_eq. lia.
        -- intros b z Hb. simpl in Hb.
           destruct (decide (this = b)) as [<-|Hne].
           ++ rewrite lookup_insert_eq in Hb. injection Hb as <-.
              apply (cache_sound_fill _ _ _ (mtype msg)); [lia|done| |eauto].
              by rewrite <- Hh.
           ++ rewrite lookup_insert_ne in Hb by done. eauto.
      * (* not found *)
        apply bind_Ok in H as ([] & ? & Hu & H).
        apply update_actor_Ok in Hu as (x1 & Hx1 & ->).
        rewrite Hx in Hx1. injection Hx1 as <-.
        apply ret_Ok in H as [-> ->].
        split; [done|]. split.
        -- intros _. eexists. simpl. rewrite lookup_insert_eq.
           split; [reflexivity|]. simpl.
           apply list_lookup_insert_eq. lia.
        -- intros b z Hb. simpl in Hb.
           destruct (decide (this = b)) as [<-|Hne].
           ++ rewrite lookup_insert_eq in Hb. injection Hb as <-.
              apply (cache_sound_negative _ _ _ (mtype msg));
                [lia|done| |eauto].
              by rewrite <- Hh.
           ++ rewrite lookup_insert_ne in Hb by done. eauto.
Qed.

Lemma pres_call_handler this m : preserves P (call_handler frec prec this m).
Proof.
  intros w called w' Hw H.
  unfold call_handler in H.
  apply bind_Ok in H as (msg & ? & Hmsg & H).
  apply get_message_Ok in Hmsg as [Hmsg ->].
  apply bind_Ok in H as (x & ? & Hx & H).
  apply get_actor_Ok in Hx as [Hx ->].
  destruct (Hw this x Hx) as (Hh & Hc & Hd).
  apply bind_Ok in H as (f0 & ? & Hf0 & H).
  apply vector_at_Ok in Hf0 as (Hrange & Hf0 & ->).
  destruct f0 as [f|].
  - apply bind_Ok in H as ([] & wi & Hi & H). apply ret_Ok in H as [-> ->].
    by apply (pres_invoke this f m w tt wi).
  - apply bind_Ok in H as (dont & ? & Hdont & H).
    apply vector_at_Ok in Hdont as (Hrange' & Hdont & ->).
    destruct dont; [by apply ret_Ok in H as [-> ->]|].
    destruct (handlers x !! mtype msg) as [f|] eqn:Hf.
    + apply bind_Ok in H as ([] & wi & Hi & H).
      pose proof (pres_invoke this f m w tt wi Hw Hi) as Hwi.
      apply bind_Ok in H as (x' & ? & Hx' & H).
      apply get_actor_Ok in Hx' as [Hx' ->].
      apply bind_Ok in H as ([] & ? & Hr & H).
      apply vector_in_range_Ok in Hr as [Hr ->].
      apply bind_Ok in H as ([] & ? & Hu & H).
      apply update_actor_Ok in Hu as (x1 & Hx1 & ->).
      rewrite Hx' in Hx1. injection Hx1 as <-.
      apply ret_Ok in H as [-> ->].
      intros b z Hb. simpl in Hb.
      destruct (decide (this = b)) as [<-|Hne].
      * rewrite lookup_insert_eq in Hb. injection Hb as <-.
        apply (cache_sound_fill _ _ _ (mtype msg)); [lia|done| |eauto].
        by rewrite <- Hh.
      * rewrite lookup_insert_ne in Hb by done. eauto.
    + apply bind_Ok in H as ([] & ? & Hu & H).
      apply update_actor_Ok in Hu as (x1 & Hx1 & ->).
      rewrite Hx in Hx1. injection Hx1 as <-.
      apply ret_Ok in H as [-> ->].
      intros b z Hb. simpl in Hb.
      destruct (decide (this = b)) as [<-|Hne].
      * rewrite lookup_insert_eq in Hb. injection Hb as <-.
        apply (cache_sound_negative _ _ _ (mtype msg)); [lia|done| |eauto].
        by rewrite <- Hh.
      * rewrite lookup_insert_ne in Hb by done. eauto.
Qed.

Lemma pres_process_message_internal_body this m d :
  preserves P (process_message_internal_body frec prec this m d).
Proof.
  unfold process_message_internal_body.
  pres_with ltac:(first [apply pres_call_handler
                        | apply pres_process_message]).
Qed.

Lemma pres_fast_send_body this m from :
  preserves P (fast_send_body frec prec this m from).
Proof.
  unfold fast_send_body.
  pres_with ltac:(first [apply pres_call_handler
                        | apply pres_process_message]).
Qed.

End KnotPreservation.


Lemma pres_fuel fuel :
  (∀ a m from, preserves P (fast_send fuel a m from)) ∧
  (∀ a m d, preserves P (process_message_internal fuel a m d)).
Proof.
  induction fuel as [|n [IHf IHp]]; split; intros; simpl;
    try apply pres_throw.
  - by apply pres_fast_send_body.
  - by apply pres_process_message_internal_body.
Qed.

Lemma pres_worker_loop fuel this : preserves P (worker_loop fuel this).
Proof.
  induction fuel as [|n IH]; simpl; [apply pres_throw|].
  apply pres_bind; [|intros []; [apply pres_ret|apply IH]].
  unfold worker_turn.
  pres_with ltac:(apply (proj2 (pres_fuel n))).
Qed.

Lemma pres_operator_call fuel this : preserves P (operator_call fuel this).
Proof.
  unfold operator_call.
  pres_with ltac:(first [apply pres_init; apply (proj1 (pres_fuel fuel))
                        | apply pres_worker_loop
                        | apply pres_end]).
Qed.

End Preservation.

(** C3. Fast-path equivalence.  Message classes have identities of their
    own (get_message_id is injective).  Then: caches as the constructor
    leaves them are sound; send, reply, fast_send,
    process_message_internal and the worker loop keep them sound; and in
    a world with sound caches every dispatch of call_handler invokes
    exactly the handler that the look-up in the handler table by runtime
    type gives (and reports no handler when the table has none).  The
    dispatch that finds the cache entry empty leaves that handler in the
    cache, so that every later dispatch of the identity is served from
    the cache with the same handler. *)
Theorem fast_path_equivalence :
  (∀ t1 t2, get_message_id t1 = get_message_id t2 → t1 = t2) →
  (∀ w, caches_fresh w → caches_sound (tables_of w) w) ∧
  (∀ tables fuel a m from d,
     preserves (caches_sound tables) (send a m from) ∧
     preserves (caches_sound tables) (reply a m) ∧
     preserves (caches_sound tables) (fast_send fuel a m from) ∧
     preserves (caches_sound tables) (process_message_internal fuel a m d) ∧
     preserves (caches_sound tables) (operator_call fuel a)) ∧
  (∀ tables fuel this m w called w' x msg,
     caches_sound tables w →
     actors w !! this = Some x →
     messages w !! m = Some msg →
     call_handler (fast_send fuel) (process_message_internal fuel) this m w
       = Ok (called, w') →
     match table_dispatch x msg with
     | Some f =>
         called = true ∧
         ∃ inner, trace w' = trace w ++ [Ev (CallHandler this f m) inner]
     | None => called = false ∧ trace w' = trace w
     end ∧
     (handler_cache x !! Z.to_nat (get_message_id (mtype msg)) = Some None →
      ∃ x', actors w' !! this = Some x' ∧
            match table_dispatch x msg with
            | Some f =>
                handler_cache x' !! Z.to_nat (get_message_id (mtype msg))
                = Some (Some f)
            | None =>
                dont_have_handler x' !! Z.to_nat (get_message_id (mtype msg))
                = Some true
            end) ∧
     caches_sound tables w').
Proof.
  intros Hinj. split; [|split].
  - apply caches_fresh_sound.
  - intros tables fuel a m from d.
    split; [apply pres_send|]. split; [apply pres_reply|].
    split; [apply pres_fuel|]. split; [apply pres_fuel|].
    apply pres_operator_call.
  - intros tables fuel this m w called w' x msg Hw Hx Hm H.
    eapply (call_handler_agrees tables); eauto; apply pres_fuel.
Qed.

(* ===================================================================== *)
(** * ZmqReceiver: routing of a remote frame *)
(* ===================================================================== *)

Definition reason_actor_not_found (receiver_name : string) : string :=
  "Actor '" ++ receiver_name ++ "' not found".

Definition reason_unknown_type (msg_type : string) : string :=
  "Unknown message type: " ++ msg_type.

(** A Reject goes back to the sender of the frame, if there is one. *)
Definition reject_or_drop (rx : ZmqReceiver) (from : option (string * string))
    (msg_type reason rejected_by : string) : M ZmqReceiver :=
  match from with
  | Some (sender_actor, sender_endpoint) =>
      send_reject rx sender_endpoint sender_actor msg_type reason rejected_by >>
      ret rx
  | None => ret rx
  end.

(** The decoded message is sent to the target, with a new reply proxy as
    its sender if the frame names a sender. *)
Definition deliver (rx : ZmqReceiver) (from : option (string * string))
    (target : actor_ptr) (msg : Message) : M ZmqReceiver :=
  let* p := new_message msg in
  match from with
  | Some (sender_actor, sender_endpoint) =>
      let* proxy := new_actor
        (RemoteReplyProxy_new (sender_ rx) sender_actor sender_endpoint) in
      send target p (Some proxy) >>
      ret (mkZmqReceiver (sender_ rx) (registry_ rx) (proxies_ rx ++ [proxy]))
  | None => send target p None >> ret rx
  end.

(** The routing of a frame, case by case. *)
Definition route (rx : ZmqReceiver) (from : option (string * string))
    (receiver_name msg_type : string) (payload : json) : M ZmqReceiver :=
  match registry_ rx !! receiver_name with
  | None =>
      reject_or_drop rx from msg_type (reason_actor_not_found receiver_name)
        receiver_name
  | Some target =>
      match name_to_entry_ (registry env) !! msg_type with
      | None =>
          reject_or_drop rx from msg_type (reason_unknown_type msg_type)
            receiver_name
      | Some e =>
          match deserialize e payload with
          | Decoded msg => deliver rx from target msg
          | DecodedNull =>
              reject_or_drop rx from msg_type (reason_unknown_type msg_type)
                receiver_name
          | DecodeThrows => throw JsonException
          end
      end
  end.

(** The fields of an envelope that parses: receiver and message_type are
    strings, message is a document, and the sender_* pair is null or a
    pair of strings. *)
Definition parsed_envelope (fields : list (string * json))
    (from : option (string * string)) (receiver_name msg_type : string)
    (payload : json) : Prop :=
  json_lookup fields "receiver" = Some (JString receiver_name) ∧
  json_lookup fields "message_type" = Some (JString msg_type) ∧
  json_lookup fields "message" = Some payload ∧
  match from with
  | Some (sender_actor, sender_endpoint) =>
      json_lookup fields "sender_actor" = Some (JString sender_actor) ∧
      json_lookup fields "sender_endpoint" = Some (JString sender_endpoint)
  | None => json_lookup fields "sender_actor" = Some JNull
  end.

Lemma json_at_eq fields key v w :
  json_lookup fields key = Some v → json_at (JObject fields) key w = Ok (v, w).
Proof. intros H. unfold json_at. by rewrite H. Qed.

Lemma handle_remote_message_route rx fields from receiver_name msg_type
    payload w :
  parsed_envelope fields from receiver_name msg_type payload →
  handle_remote_message rx (JObject fields) w =
  route rx from receiver_name msg_type payload w.
Proof.
  intros (Hr & Ht & Hp & Hs). unfold handle_remote_message, route.
  rewrite (bind_eq _ _ _ _ _ (json_at_eq _ _ _ w Hr)). simpl.
  rewrite (bind_eq _ _ _ receiver_name w) by reflexivity.
  rewrite (bind_eq _ _ _ _ _ (json_at_eq _ _ _ w Ht)). simpl.
  rewrite (bind_eq _ _ _ msg_type w) by reflexivity.
  destruct from as [[sa se]|].
  - destruct Hs as [Hsa Hse].
    rewrite (bind_eq _ _ _ _ _ (json_at_eq _ _ _ w Hsa)). simpl.
    rewrite (bind_eq _ _ _ sa w) by reflexivity.
    rewrite (bind_eq _ _ _ se w)
      by (by rewrite (bind_eq _ _ _ _ _ (json_at_eq _ _ _ w Hse))).
    destruct (registry_ rx !! receiver_name) as [target|]; [|reflexivity].
    rewrite (bind_eq _ _ _ _ _ (json_at_eq _ _ _ w Hp)).
    unfold MessageRegistry_deserialize.
    destruct (name_to_entry_ (registry env) !! msg_type) as [e|];
      [|reflexivity].
    destruct (deserialize e payload); reflexivity.
  - rewrite (bind_eq _ _ _ _ _ (json_at_eq _ _ _ w Hs)). simpl.
    rewrite (bind_eq _ _ _ ""%string w) by reflexivity.
    rewrite (bind_eq _ _ _ ""%string w) by reflexivity.
    destruct (registry_ rx !! receiver_name) as [target|]; [|reflexivity].
    rewrite (bind_eq _ _ _ _ _ (json_at_eq _ _ _ w Hp)).
    unfold MessageRegistry_deserialize.
    destruct (name_to_entry_ (registry env) !! msg_type) as [e|];
      [|reflexivity].
    destruct (deserialize e payload); reflexivity.
Qed.

Lemma send_to_trace zs endpoint actor_name m from w w' :
  send_to zs endpoint actor_name m from w = Ok (tt, w') →
  ∃ msg inner,
    messages w !! m = Some msg ∧
    trace w' = trace w ++ [Ev (CallSendTo zs endpoint actor_name msg from) inner].
Proof.
  unfold send_to. intros H.
  apply bind_Ok in H as (msg & ? & Hmsg & H).
  apply get_message_Ok in Hmsg as [Hmsg ->].
  apply call_scope_Ok in H as (wb & H & ->).
  exists msg, (trace wb). done.
Qed.

Lemma send_reject_trace rx endpoint actor_name msg_type reason rejected_by
    w w' :
  send_reject rx endpoint actor_name msg_type reason rejected_by w
    = Ok (tt, w') →
  ∃ inner,
    trace w' =
    trace w ++ [Ev (CallSendTo (sender_ rx) endpoint actor_name
                      (Reject_new msg_type reason rejected_by) None) inner].
Proof.
  unfold send_reject. intros H.
  apply bind_Ok in H as (p & ? & Hp & H).
  apply new_message_Ok in Hp as [-> ->].
  apply send_to_trace in H as (msg & inner & Hmsg & Htr).
  simpl in Hmsg, Htr. rewrite lookup_insert_eq in Hmsg. injection Hmsg as <-.
  by exists inner.
Qed.

Lemma reject_or_drop_Ok rx from msg_type reason rejected_by w rx' w' :
  reject_or_drop rx from msg_type reason rejected_by w = Ok (rx', w') →
  rx' = rx ∧
  match from with
  | Some (sender_actor, sender_endpoint) =>
      ∃ inner,
        trace w' =
        trace w ++ [Ev (CallSendTo (sender_ rx) sender_endpoint sender_actor
                          (Reject_new msg_type reason rejected_by) None) inner]
  | None => w' = w
  end.
Proof.
  unfold reject_or_drop. destruct from as [[sa se]|]; intros H.
  - apply bind_Ok in H as ([] & w1 & Hs & H). apply ret_Ok in H as [-> ->].
    split; [done|]. by apply send_reject_trace in Hs.
  - by apply ret_Ok in H as [-> ->].
Qed.

Lemma deliver_Ok rx from target msg w rx' w' :
  deliver rx from target msg w = Ok (rx', w') →
  ∃ reply_actor,
    trace w' =
      trace w ++ [Ev (CallSend target (fresh (dom (messages w))) reply_actor) []] ∧
    match from with
    | Some (sender_actor, sender_endpoint) =>
        reply_actor = Some (fresh (dom (actors w))) ∧
        rx' = mkZmqReceiver (sender_ rx) (registry_ rx)
                (proxies_ rx ++ [fresh (dom (actors w))])
    | None => reply_actor = None ∧ rx' = rx
    end.
Proof.
  unfold deliver. intros H.
  apply bind_Ok in H as (p & ? & Hp & H).
  apply new_message_Ok in Hp as [-> ->].
  destruct from as [[sa se]|].
  - apply bind_Ok in H as (proxy & w1 & Hn & H).
    unfold new_actor in Hn. injection Hn as <- <-. simpl in H.
    apply bind_Ok in H as ([] & w2 & Hs & H). apply ret_Ok in H as [-> ->].
    apply send_Ok in Hs as [_ Htr]. simpl in Htr. eauto.
  - apply bind_Ok in H as ([] & w2 & Hs & H). apply ret_Ok in H as [-> ->].
    apply send_Ok in Hs as [_ Htr]. simpl in Htr. eauto.
Qed.

(** The routing of a frame whose envelope parses is what [route] says:
    (a) the receiver name is not in its registry: a
    Reject (identity 9) with the reason that the actor was not found and
    rejected_by the unknown receiver name goes back to the sender if one
    is present, else nothing happens; (b) the wire name is not registered
    (or its decoder returns no message): a Reject with the reason that the
    message type is unknown goes back if a sender is present, else
    nothing happens; (c) both look-ups succeed and the decoder returns a
    message: exactly one asynchronous send of that message to the target,
    with a new reply proxy as its sender when a sender is present; and a
    decoder that throws makes the routing throw, with no Reject and no
    delivery. *)
Theorem remote_routing :
  (∀ rx fields from receiver_name msg_type payload w,
     parsed_envelope fields from receiver_name msg_type payload →
     handle_remote_message rx (JObject fields) w =
     route rx from receiver_name msg_type payload w) ∧
  (∀ rx from msg_type reason rejected_by w rx' w',
     reject_or_drop rx from msg_type reason rejected_by w = Ok (rx', w') →
     rx' = rx ∧
     match from with
     | Some (sender_actor, sender_endpoint) =>
         ∃ inner,
           trace w' =
           trace w ++ [Ev (CallSendTo (sender_ rx) sender_endpoint sender_actor
                             (Reject_new msg_type reason rejected_by) None)
                          inner]
     | None => w' = w
     end) ∧
  (∀ rx from target msg w rx' w',
     deliver rx from target msg w = Ok (rx', w') →
     ∃ reply_actor,
       trace w' =
         trace w ++
         [Ev (CallSend target (fresh (dom (messages w))) reply_actor) []] ∧
       match from with
       | Some (sender_actor, sender_endpoint) =>
           reply_actor = Some (fresh (dom (actors w))) ∧
           rx' = mkZmqReceiver (sender_ rx) (registry_ rx)
                   (proxies_ rx ++ [fresh (dom (actors w))])
       | None => reply_actor = None ∧ rx' = rx
       end) ∧
  get_message_id Reject = 9.
Proof.
  split; [|split; [|split]].
  - apply handle_remote_message_route.
  - apply reject_or_drop_Ok.
  - apply deliver_Ok.
  - reflexivity.
Qed.


(** C9. A decoder that throws leaves the sender without an answer.  For
    a frame whose envelope parses and names a sender, whose receiver is
    registered and whose wire name has a decoder: if the decoder throws
    nlohmann::json::exception on the payload, handle_remote_message is
    left by that exception before any Reject is built and before
    anything is delivered; a decoder that returns nullptr on the same
    frame, in contrast, makes the receiver send the Reject "Unknown
    message type" back to the sender. *)
Theorem decoder_exception_unanswered rx fields sender_actor sender_endpoint
    receiver_name msg_type payload target e :
  parsed_envelope fields (Some (sender_actor, sender_endpoint)) receiver_name
    msg_type payload →
  registry_ rx !! receiver_name = Some target →
  name_to_entry_ (registry env) !! msg_type = Some e →
  (deserialize e payload = DecodeThrows →
   ∀ w, handle_remote_message rx (JObject fields) w = Err JsonException) ∧
  (deserialize e payload = DecodedNull →
   ∀ w rx' w',
     handle_remote_message rx (JObject fields) w = Ok (rx', w') →
     ∃ inner,
       trace w' =
       trace w ++
       [Ev (CallSendTo (sender_ rx) sender_endpoint sender_actor
              (Reject_new msg_type ("Unknown message type: " ++ msg_type)
                 receiver_name) None) inner]).
Proof.
  intros Hp Hreg He. split; intros Hdec w.
  - rewrite (handle_remote_message_route _ _ _ _ _ _ _ Hp).
    unfold route. by rewrite Hreg, He, Hdec.
  - intros rx' w' H.
    rewrite (handle_remote_message_route _ _ _ _ _ _ _ Hp) in H.
    unfold route in H. rewrite Hreg, He, Hdec in H.
    by apply reject_or_drop_Ok in H as [_ H].
Qed.
(* ===================================================================== *)
(** * fast_send returns *)
(* ===================================================================== *)

(** [returns P c Q]: from every world in [P], the run of [c] ends with a
    value and a world in [Q]. *)
Definition returns {A} (P : World → Prop) (c : M A) (Q : A → World → Prop)
  : Prop :=
  ∀ w, P w → ∃ x w', c w = Ok (x, w') ∧ Q x w'.

Lemma returns_bind {A B} P (c : M A) Q (k : A → M B) R :
  returns P c Q → (∀ x, returns (Q x) (k x) R) → returns P (bind c k) R.
Proof.
  intros Hc Hk w Hw. destruct (Hc w Hw) as (x & w1 & H1 & HQ).
  destruct (Hk x w1 HQ) as (y & w2 & H2 & HR).
  exists y, w2. split; [|done]. by rewrite (bind_eq _ _ _ x w1).
Qed.

Lemma returns_ret {A} (P : World → Prop) (x : A) :
  returns P (ret x) (λ _, P).
Proof. intros w Hw. by exists x, w. Qed.

(** Code of the embedding program that does nothing but reply with new
    messages. *)
Definition is_new_reply (c : cmd) : bool :=
  match c with
  | CmdReply (NewMsg _ _) => true
  | _ => false
  end.

Definition replies_only (code : UserCode) (f : handler) : bool :=
  match f with
  | UserHandler n =>
      match on_handler code !! n with
      | Some body => forallb is_new_reply body
      | None => false
      end
  | _ => false
  end.

(** The state of the callee while fast_send dispatches [m]: the flag
    using_fast_send is set, the identity of [m] is within the cache, and
    every handler of the actor replies only. *)
Definition in_fast_send (this m : nat) (code : UserCode) (msg : Message)
    (w : World) : Prop :=
  ∃ x, actors w !! this = Some x ∧
       cls x = UserClass code ∧
       using_fast_send x = true ∧
       0 ≤ get_message_id (mtype msg) < Z.of_nat (length (handler_cache x)) ∧
       get_message_id (mtype msg) < Z.of_nat (length (dont_have_handler x)) ∧
       (∀ t f, handlers x !! t = Some f → replies_only code f = true) ∧
       (∀ i f, handler_cache x !! i = Some (Some f) →
               replies_only code f = true) ∧
       messages w !! m = Some msg.

Section Returns.
Variables (this m : nat) (code : UserCode) (msg : Message).
Variable frec : nat → nat → option nat → M (option nat).
Variable prec : nat → nat → bool → M unit.
Local Abbreviation Inv := (in_fast_send this m code msg).

Lemma returns_call_scope {A} c (body : M A) :
  returns Inv body (λ _, Inv) → returns Inv (call_scope c body) (λ _, Inv).
Proof.
  intros Hb w Hw. destruct (Hb (with_trace [] w) Hw) as (x & w1 & H & H1).
  exists x, (with_trace (trace w ++ [Ev c (trace w1)]) w1).
  split; [by apply call_scope_eq|exact H1].
Qed.

Lemma exec_returns body :
  forallb is_new_reply body = true →
  returns Inv (exec this body) (λ _, Inv).
Proof.
  induction body as [|c rest IH]; simpl; [intros _; apply returns_ret|].
  intros [Hc Hrest]%andb_true_iff.
  apply (returns_bind _ _ (λ _, Inv)); [|intros _; by apply IH].
  destruct c as [[t b|]| |]; try done. clear.
  intros w (x & Hx & Hcls & Hf & Hr1 & Hr2 & Hh & Hc & Hm).
  set (p := fresh (dom (messages w))).
  set (w1 := with_messages (<[p := Message_new t b]> (messages w)) w).
  assert (p ≠ m) as Hp.
  { intros E0. pose proof (fresh_message w) as E. fold p in E.
    rewrite E0 in E. congruence. }
  eexists tt, _. split.
  - simpl. rewrite (bind_eq _ _ _ p w1) by reflexivity.
    apply (reply_fast this p w1 x (Message_new t b)); [done|done|].
    apply lookup_insert_eq.
  - exists (with_reply_message (Some p) x). simpl.
    split; [apply lookup_insert_eq|]. repeat (split; [done|]).
    by rewrite !lookup_insert_ne.
Qed.

Lemma invoke_returns f :
  replies_only code f = true →
  returns Inv (invoke frec prec this f m) (λ _, Inv).
Proof.
  intros Hf. unfold invoke. apply returns_call_scope.
  destruct f as [n| |]; try done. simpl in Hf.
  destruct (on_handler code !! n) as [body|] eqn:Hbody; [|done].
  intros w Hw. pose proof Hw as (x & Hx & Hcls & _).
  rewrite (bind_eq _ _ _ x w) by (by apply get_actor_eq).
  rewrite Hcls, Hbody. by apply exec_returns.
Qed.

Lemma process_message_returns :
  forallb is_new_reply (on_process_message code) = true →
  returns Inv (process_message frec prec this m) (λ _, Inv).
Proof.
  intros Hb. unfold process_message. apply returns_call_scope.
  intros w Hw. pose proof Hw as (x & Hx & Hcls & _).
  rewrite (bind_eq _ _ _ x w) by (by apply get_actor_eq).
  rewrite Hcls. by apply exec_returns.
Qed.

Lemma call_handler_returns :
  returns Inv (call_handler frec prec this m) (λ _, Inv).
Proof.
  intros w Hw. pose proof Hw as (x & Hx & Hcls & Hf & Hr1 & Hr2 & Hh & Hc & Hm).
  unfold call_handler.
  rewrite (bind_eq _ _ _ msg w) by (by apply get_message_eq).
  rewrite (bind_eq _ _ _ x w) by (by apply get_actor_eq).
  set (id := get_message_id (mtype msg)) in *.
  destruct (lookup_lt_is_Some_2 (handler_cache x) (Z.to_nat id)) as [f0 Hf0];
    [lia|].
  rewrite (bind_eq _ _ _ f0 w) by (by apply vector_at_Ok).
  destruct f0 as [f|].
  { refine (returns_bind Inv _ (λ _, Inv) _ (λ _, Inv) _ _ w Hw).
    - apply invoke_returns. eauto.
    - intros _. apply returns_ret. }
  destruct (lookup_lt_is_Some_2 (dont_have_handler x) (Z.to_nat id))
    as [d Hd]; [lia|].
  rewrite (bind_eq _ _ _ d w) by (apply vector_at_Ok; split; [lia|done]).
  destruct d; [by exists false, w|].
  destruct (handlers x !! mtype msg) as [f|] eqn:Hlook.
  - assert (replies_only code f = true) as Hvalid by eauto.
    refine (returns_bind Inv _ (λ _, Inv) _ (λ _, Inv) _ _ w Hw).
    { by apply invoke_returns. }
    intros _ w2 (x2 & Hx2 & Hcls2 & Hf2 & Hr12 & Hr22 & Hh2 & Hc2 & Hm2).
    rewrite (bind_eq _ _ _ x2 w2) by (by apply get_actor_eq).
    rewrite (bind_eq _ _ _ tt w2) by (by apply vector_in_range_Ok).
    erewrite bind_eq by (by apply update_actor_eq).
    eexists true, _. split; [reflexivity|].
    eexists. simpl. split; [apply lookup_insert_eq|]. simpl.
    rewrite length_insert. repeat (split; [done|]). split; [|done].
    intros i g [(_ & [= <-] & _)|[_ Hi]]%list_lookup_insert_Some; eauto.
  - erewrite bind_eq by (by apply update_actor_eq).
    eexists false, _. split; [reflexivity|].
    eexists. simpl. split; [apply lookup_insert_eq|]. simpl.
    rewrite length_insert. by repeat (split; [done|]).
Qed.

End Returns.

(** A fast_send to a running actor whose code only replies returns: the
    lock is free, the caller is not the callee, the message counter is
    below LLONG_MAX and the identity of the message is within the
    cache. *)
Lemma fast_send_returns fuel this m from w x code msg :
  actors w !! this = Some x →
  cls x = UserClass code →
  terminated x = false →
  fast_send_mutex x = false →
  from ≠ Some this →
  msg_cnt x < LLONG_MAX →
  messages w !! m = Some msg →
  0 ≤ get_message_id (mtype msg) < Z.of_nat (length (handler_cache x)) →
  get_message_id (mtype msg) < Z.of_nat (length (dont_have_handler x)) →
  (∀ t f, handlers x !! t = Some f → replies_only code f = true) →
  (∀ i f, handler_cache x !! i = Some (Some f) →
          replies_only code f = true) →
  forallb is_new_reply (on_process_message code) = true →
  ∃ r w', fast_send (S fuel) this m from w = Ok (r, w').
Proof.
  intros Hx Hcls Ht Hmut Hfrom Hcnt Hm Hr1 Hr2 Hh Hc Hpm.
  simpl. unfold fast_send_body.
  rewrite (bind_eq _ _ _ msg w) by (by apply get_message_eq).
  set (msg1 := mkMessage (mtype msg) (body msg) from (destination msg)
                 true true).
  set (x1 := with_msg_cnt (msg_cnt x + 1)
               (with_using_fast_send true
                  (with_reply_message None (with_fast_send_mutex true x)))).
  set (w1 := mkWorld (<[this := x1]> (actors w)) (<[m := msg1]> (messages w))
               []).
  assert (in_fast_send this m code msg1 w1) as Hinv.
  { exists x1. split; [apply lookup_insert_eq|].
    repeat (split; [done|]). apply lookup_insert_eq. }
  destruct (call_handler_returns this m code msg1 (fast_send fuel)
              (process_message_internal fuel) w1 Hinv)
    as (called & w2 & Hcall & Hinv2).
  assert (∃ w3, (if called : bool then ret tt
                 else process_message (fast_send fuel)
                        (process_message_internal fuel) this m) w2
                = Ok (tt, w3) ∧ in_fast_send this m code msg1 w3)
    as (w3 & Hw3 & (x3 & Hx3 & _)).
  { destruct called; [by exists w2|].
    destruct (process_message_returns this m code msg1 (fast_send fuel)
                (process_message_internal fuel) Hpm w2 Hinv2)
      as ([] & w3 & ? & ?).
    by exists w3. }
  cut (∃ r wb,
         (lock this >>
          assert (bool_decide (Some this ≠ from)) "fast send to itself" >>
          update_message m (λ msg,
            mkMessage (mtype msg) (body msg) from (destination msg) true
              true) >>
          update_actor this (λ x,
            with_using_fast_send true (with_reply_message None x)) >>
          incr_msg_cnt this >>
          let* x := get_actor this in
          if terminated x then unlock this >> ret (reply_message x)
          else
            let* called := call_handler (fast_send fuel)
                             (process_message_internal fuel) this m in
            (if called : bool then ret tt
             else process_message (fast_send fuel)
                    (process_message_internal fuel) this m) >>
            let* x' := get_actor this in
            unlock this >> ret (reply_message x')) (with_trace [] w)
         = Ok (r, wb)).
  { intros (r & wb & H). eexists r, _. by apply call_scope_eq. }
  erewrite bind_eq by (by apply (lock_eq this x)).
  rewrite bool_decide_true by congruence. simpl.
  erewrite bind_eq by reflexivity.
  erewrite bind_eq by (by apply update_message_eq).
  erewrite bind_eq by (apply update_actor_eq; simpl; apply lookup_insert_eq).
  erewrite bind_eq
    by (apply incr_msg_cnt_eq; [simpl; apply lookup_insert_eq|done]).
  erewrite bind_eq by (apply get_actor_eq; simpl; apply lookup_insert_eq).
  simpl. rewrite Ht.
  unfold with_actors, with_messages, with_trace. simpl.
  rewrite !insert_insert_eq. fold x1 msg1 w1.
  rewrite (bind_eq _ _ _ called w2) by done.
  rewrite (bind_eq _ _ _ tt w3) by done.
  rewrite (bind_eq _ _ _ x3 w3) by (by apply get_actor_eq).
  unfold unlock. erewrite bind_eq by (by apply update_actor_eq).
  by eexists _, _.
Qed.

(* ===================================================================== *)
(** * Mailboxes change by send only *)
(* ===================================================================== *)

Definition is_send (c : call) : bool :=
  match c with CallSend _ _ _ => true | _ => false end.

(** No Actor::send was called in the event, nor inside it. *)
Fixpoint no_send (e : event) : bool :=
  match e with
  | Ev c inner => negb (is_send c) && forallb no_send inner
  end.

(** A computation that leaves every mailbox as it is unless a send
    appears among the calls it makes. *)
Definition quiet {A} (c : M A) : Prop :=
  ∀ w r w', c w = Ok (r, w') →
    ∃ evs, trace w' = trace w ++ evs ∧
           (forallb no_send evs = true → same_mailboxes w w').

Lemma same_mailboxes_actors w w' :
  actors w' = actors w → same_mailboxes w w'.
Proof. intros E a y Ha. rewrite E. eauto. Qed.

Section Quiet.

Lemma quiet_still {A} (c : M A) :
  (∀ w r w', c w = Ok (r, w') → trace w' = trace w ∧ same_mailboxes w w') →
  quiet c.
Proof.
  intros Hc w r w' H. destruct (Hc _ _ _ H) as [Ht Hs].
  exists []. by rewrite app_nil_r.
Qed.

Lemma quiet_ret {A} (x : A) : quiet (ret x).
Proof.
  apply quiet_still. intros w r w' H. apply ret_Ok in H as [_ ->].
  split; [done|apply same_mailboxes_refl].
Qed.

Lemma quiet_throw {A} e : quiet (throw (A:=A) e).
Proof. intros w r w' H. done. Qed.

Lemma quiet_bind {A B} (k1 : M A) (k2 : A → M B) :
  quiet k1 → (∀ x, quiet (k2 x)) → quiet (bind k1 k2).
Proof.
  intros H1 H2 w r w' H. apply bind_Ok in H as (x & w1 & Hx & Hy).
  destruct (H1 _ _ _ Hx) as (e1 & Ht1 & Hs1).
  destruct (H2 x _ _ _ Hy) as (e2 & Ht2 & Hs2).
  exists (e1 ++ e2). rewrite Ht2, Ht1, <- app_assoc. split; [done|].
  rewrite forallb_app. intros [Ha Hb]%andb_true_iff.
  eapply same_mailboxes_trans; eauto.
Qed.

Lemma quiet_assert b s : quiet (assert b s).
Proof.
  apply quiet_still. intros w r w' H. apply assert_Ok in H as [_ ->].
  split; [done|apply same_mailboxes_refl].
Qed.

Lemma quiet_deref p : quiet (deref p).
Proof.
  apply quiet_still. intros w r w' H. apply deref_Ok in H as [_ ->].
  split; [done|apply same_mailboxes_refl].
Qed.

Lemma quiet_get_actor a : quiet (get_actor a).
Proof.
  apply quiet_still. intros w r w' H. apply get_actor_Ok in H as [_ ->].
  split; [done|apply same_mailboxes_refl].
Qed.

Lemma quiet_get_message m : quiet (get_message m).
Proof.
  apply quiet_still. intros w r w' H. apply get_message_Ok in H as [_ ->].
  split; [done|apply same_mailboxes_refl].
Qed.

Lemma quiet_update_message m f : quiet (update_message m f).
Proof.
  apply quiet_still. intros w r w' H.
  apply update_message_Ok in H as (? & _ & ->).
  split; [done|by apply same_mailboxes_actors].
Qed.

Lemma quiet_new_message x : quiet (new_message x).
Proof.
  apply quiet_still. intros w r w' H. apply new_message_Ok in H as [_ ->].
  split; [done|by apply same_mailboxes_actors].
Qed.

Lemma quiet_delete_message m : quiet (delete_message m).
Proof.
  apply quiet_still. intros w r w' H. apply delete_message_Ok in H as [_ ->].
  split; [done|by apply same_mailboxes_actors].
Qed.

Lemma quiet_drop_unique_ptr p : quiet (drop_unique_ptr p).
Proof. destruct p; [apply quiet_delete_message|apply quiet_ret]. Qed.

Lemma quiet_vector_at {X} (v : list X) i : quiet (vector_at v i).
Proof.
  apply quiet_still. intros w r w' H. apply vector_at_Ok in H as (_ & _ & ->).
  split; [done|apply same_mailboxes_refl].
Qed.

Lemma quiet_vector_in_range {X} (v : list X) i : quiet (vector_in_range v i).
Proof.
  apply quiet_still. intros w r w' H.
  apply vector_in_range_Ok in H as (_ & ->).
  split; [done|apply same_mailboxes_refl].
Qed.

(** The calls made inside a call count for it. *)
Lemma quiet_call_scope {A} c (body : M A) :
  quiet body → quiet (call_scope c body).
Proof.
  intros Hb w r w' H. apply call_scope_Ok in H as (w1 & H & ->).
  destruct (Hb _ _ _ H) as (evs & Ht & Hs). simpl in Ht.
  exists [Ev c (trace w1)]. split; [done|].
  simpl. rewrite andb_true_r, Ht. intros [_ Hn]%andb_true_iff.
  intros a y Ha. exact (Hs Hn a y Ha).
Qed.

Lemma quiet_emit c : quiet (emit c).
Proof. apply quiet_call_scope, quiet_ret. Qed.

(** Actor::send is the call that is excepted. *)
Lemma quiet_send a m from : quiet (send a m from).
Proof.
  intros w r w' H. unfold send in H.
  apply call_scope_Ok in H as (w1 & H & ->).
  exists [Ev (CallSend a m from) (trace w1)]. split; [done|]. done.
Qed.

Lemma quiet_for_each {X} (l : list X) (f : X → M unit) :
  (∀ x, quiet (f x)) → quiet (for_each l f).
Proof.
  intros Hf. induction l as [|x l IH]; simpl.
  - apply quiet_ret.
  - apply quiet_bind; [apply Hf|]. intros _. apply IH.
Qed.

(** An update that leaves the mailbox alone. *)
Lemma quiet_update_actor a f :
  (∀ x, msgq (f x) = msgq x) → quiet (update_actor a f).
Proof.
  intros Hf. apply quiet_still. intros w r w' H.
  apply update_actor_Ok in H as (x & Hx & ->).
  split; [done|]. by apply same_mailboxes_update with x.
Qed.

Lemma quiet_incr_msg_cnt a : quiet (incr_msg_cnt a).
Proof.
  apply quiet_still. intros w r w' H.
  apply incr_msg_cnt_Ok in H as (x & Hx & _ & ->).
  split; [done|]. by apply same_mailboxes_update with x.
Qed.

Lemma quiet_lock a : quiet (lock a).
Proof.
  apply quiet_still. intros w r w' H.
  apply lock_Ok in H as (x & Hx & _ & ->).
  split; [done|]. by apply same_mailboxes_update with x.
Qed.

Lemma quiet_unlock a : quiet (unlock a).
Proof. unfold unlock. by apply quiet_update_actor. Qed.

Ltac quiet_update :=
  apply quiet_update_actor;
  let x := fresh in
  intros x; simpl; try (destruct (cls x)); done.

Ltac quiet_with known :=
  repeat first
    [ assumption
    | known
    | match goal with H : ∀ _, _ |- quiet _ => apply H end
    | apply quiet_ret
    | apply quiet_throw
    | apply quiet_assert
    | apply quiet_deref
    | apply quiet_get_actor
    | apply quiet_get_message
    | apply quiet_update_message
    | apply quiet_new_message
    | apply quiet_delete_message
    | apply quiet_drop_unique_ptr
    | apply quiet_vector_at
    | apply quiet_vector_in_range
    | apply quiet_emit
    | apply quiet_send
    | apply quiet_incr_msg_cnt
    | apply quiet_lock
    | apply quiet_unlock
    | quiet_update
    | apply quiet_call_scope
    | (apply quiet_for_each; intros ?)
    | (apply quiet_bind; [|intros ?])
    | match goal with
      | |- quiet (if ?b then _ else _) => destruct b
      | |- quiet (match ?x with _ => _ end) => destruct x
      end
    | progress unfold set_thread_affinity, fast_terminate, Manager_end,
        resolve ].

Ltac quiets := quiet_with fail.

Lemma quiet_reply a m : quiet (reply a m).
Proof. unfold reply. quiets. Qed.

Lemma quiet_exec a body : quiet (exec a body).
Proof.
  induction body as [|k rest IH]; simpl; [apply quiet_ret|].
  apply quiet_bind; [|by intros _].
  destruct k; simpl; quiet_with ltac:(apply quiet_reply).
Qed.

Section KnotQuiet.
Variable frec : nat → nat → option nat → M (option nat).
Variable prec : nat → nat → bool → M unit.
Hypothesis Hfrec : ∀ a m from, quiet (frec a m from).
Hypothesis Hprec : ∀ a m d, quiet (prec a m d).

Lemma quiet_Manager_init a : quiet (Manager_init frec a).
Proof. unfold Manager_init. quiets. Qed.

Lemma quiet_init a : quiet (init frec a).
Proof.
  unfold init.
  quiet_with ltac:(first [apply quiet_exec | apply quiet_Manager_init]).
Qed.

Lemma quiet_end a : quiet (end_ a).
Proof. unfold end_. quiet_with ltac:(apply quiet_exec). Qed.

Lemma quiet_forward m : quiet (forward prec m).
Proof. unfold forward. quiets. Qed.

Lemma quiet_start_handler a m : quiet (start_handler frec prec a m).
Proof.
  unfold start_handler.
  quiet_with ltac:(first [apply quiet_init | apply quiet_forward]).
Qed.

Lemma quiet_shutdown_handler a m : quiet (shutdown_handler frec prec a m).
Proof.
  unfold shutdown_handler.
  quiet_with ltac:(first [apply quiet_end | apply quiet_forward]).
Qed.

Lemma quiet_Manager_process_message a m :
  quiet (Manager_process_message frec a m).
Proof. unfold Manager_process_message. quiet_with ltac:(apply quiet_end). Qed.

Lemma quiet_process_message a m : quiet (process_message frec prec a m).
Proof.
  unfold process_message.
  quiet_with ltac:(first [apply quiet_exec | apply quiet_forward
                         | apply quiet_Manager_process_message]).
Qed.

Lemma quiet_invoke a f m : quiet (invoke frec prec a f m).
Proof.
  unfold invoke.
  quiet_with ltac:(first [apply quiet_exec | apply quiet_start_handler
                         | apply quiet_shutdown_handler]).
Qed.

Lemma quiet_call_handler a m : quiet (call_handler frec prec a m).
Proof. unfold call_handler. quiet_with ltac:(apply quiet_invoke). Qed.

Lemma quiet_process_message_internal_body a m d :
  quiet (process_message_internal_body frec prec a m d).
Proof.
  unfold process_message_internal_body.
  quiet_with ltac:(first [ apply quiet_call_handler
                         | apply quiet_process_message ]).
Qed.

Lemma quiet_fast_send_body a m from :
  quiet (fast_send_body frec prec a m from).
Proof.
  unfold fast_send_body.
  quiet_with ltac:(first [ apply quiet_call_handler
                         | apply quiet_process_message ]).
Qed.

End KnotQuiet.

Lemma quiet_fuel fuel :
  (∀ a m from, quiet (fast_send fuel a m from)) ∧
  (∀ a m d, quiet (process_message_internal fuel a m d)).
Proof.
  induction fuel as [|n [IHf IHp]]; [by split; intros ? ? ? w r w' H|].
  split; intros ? ? ?.
  - by apply quiet_fast_send_body.
  - by apply quiet_process_message_internal_body.
Qed.

End Quiet.

(* ===================================================================== *)
(** * The reply slot of an actor of a library class *)
(* ===================================================================== *)

(** Actors of the classes of an embedding program run user code; Group,
    Manager, ZmqSender and RemoteReplyProxy are classes of the library. *)
Definition is_user (c : actor_class) : bool :=
  match c with UserClass _ => true | _ => false end.

(** The actor at [this] is of a library class and its reply slot is
    empty. *)
Definition slot_empty (this : nat) (w : World) : Prop :=
  ∃ x, actors w !! this = Some x ∧ is_user (cls x) = false ∧
       reply_message x = None.

Section SlotEmpty.
Variable this : nat.
Local Abbreviation E := (slot_empty this).

Lemma se_ret {A} (x : A) : preserves E (ret x).
Proof. intros w y w' Hw H. by steps H. Qed.

Lemma se_throw {A} e : preserves E (throw (A:=A) e).
Proof. intros w y w' Hw H. done. Qed.

Lemma se_bind {A B} (k1 : M A) (k2 : A → M B) :
  preserves E k1 → (∀ x, preserves E (k2 x)) → preserves E (bind k1 k2).
Proof.
  intros H1 H2 w y w' Hw H.
  apply bind_Ok in H as (x & w1 & Hx & Hy).
  exact (H2 x w1 y w' (H1 w x w1 Hw Hx) Hy).
Qed.

Lemma se_assert b s : preserves E (assert b s).
Proof. intros w y w' Hw H. by steps H. Qed.

Lemma se_deref p : preserves E (deref p).
Proof. intros w y w' Hw H. by steps H. Qed.

Lemma se_get_actor a : preserves E (get_actor a).
Proof. intros w y w' Hw H. by apply get_actor_Ok in H as [_ ->]. Qed.

Lemma se_get_message m : preserves E (get_message m).
Proof. intros w y w' Hw H. by apply get_message_Ok in H as [_ ->]. Qed.

Lemma se_update_message m f : preserves E (update_message m f).
Proof.
  intros w y w' Hw H. by apply update_message_Ok in H as (? & _ & ->).
Qed.

Lemma se_new_message x : preserves E (new_message x).
Proof. intros w y w' Hw H. by apply new_message_Ok in H as [_ ->]. Qed.

Lemma se_delete_message m : preserves E (delete_message m).
Proof. intros w y w' Hw H. by apply delete_message_Ok in H as [_ ->]. Qed.

Lemma se_drop_unique_ptr p : preserves E (drop_unique_ptr p).
Proof. destruct p; [apply se_delete_message|apply se_ret]. Qed.

Lemma se_vector_at {X} (v : list X) i : preserves E (vector_at v i).
Proof. intros w y w' Hw H. by apply vector_at_Ok in H as (_ & _ & ->). Qed.

Lemma se_vector_in_range {X} (v : list X) i :
  preserves E (vector_in_range v i).
Proof. intros w y w' Hw H. by apply vector_in_range_Ok in H as (_ & ->). Qed.

Lemma se_call_scope {A} e (body : M A) :
  preserves E body → preserves E (call_scope e body).
Proof.
  intros Hb w y w' Hw H. apply call_scope_Ok in H as (w1 & H & ->).
  exact (Hb (with_trace [] w) y w1 Hw H).
Qed.

Lemma se_emit e : preserves E (emit e).
Proof. apply se_call_scope, se_ret. Qed.

Lemma se_for_each {X} (l : list X) (f : X → M unit) :
  (∀ x, preserves E (f x)) → preserves E (for_each l f).
Proof.
  intros Hf. induction l as [|x l IH]; simpl.
  - apply se_ret.
  - apply se_bind; [apply Hf|]. intros _. apply IH.
Qed.

(** An update that keeps the kind of the class and leaves an empty slot
    empty. *)
Lemma se_update_actor a f :
  (∀ x, is_user (cls (f x)) = is_user (cls x) ∧
        (reply_message x = None → reply_message (f x) = None)) →
  preserves E (update_actor a f).
Proof.
  intros Hf w y w' (x & Hx & Hu & Hr) H.
  apply update_actor_Ok in H as (z & Hz & ->). unfold slot_empty. simpl.
  destruct (decide (a = this)) as [->|Hne].
  - rewrite lookup_insert_eq. exists (f z).
    rewrite Hx in Hz. injection Hz as <-.
    destruct (Hf x) as [-> Hn]. auto.
  - rewrite lookup_insert_ne by done. eauto.
Qed.

Lemma se_update_other a f : a ≠ this → preserves E (update_actor a f).
Proof.
  intros Hne w y w' (x & Hx & Hu & Hr) H.
  apply update_actor_Ok in H as (z & Hz & ->). unfold slot_empty. simpl.
  rewrite lookup_insert_ne by done. eauto.
Qed.

Lemma se_incr_msg_cnt a : preserves E (incr_msg_cnt a).
Proof.
  intros w y w' (x & Hx & Hu & Hr) H.
  apply incr_msg_cnt_Ok in H as (z & Hz & _ & ->). unfold slot_empty. simpl.
  destruct (decide (a = this)) as [->|Hne].
  - rewrite lookup_insert_eq. rewrite Hx in Hz. injection Hz as <-. eauto.
  - rewrite lookup_insert_ne by done. eauto.
Qed.

(** What the actor at [this] is, is known when it is looked up. *)
Lemma se_get_actor_this {B} (k : Actor → M B) :
  (∀ x, is_user (cls x) = false → preserves E (k x)) →
  preserves E (let* x := get_actor this in k x).
Proof.
  intros Hk w y w' Hw H.
  apply bind_Ok in H as (x & w1 & Hx & H).
  apply get_actor_Ok in Hx as [Hx ->].
  destruct Hw as (x0 & Hx0 & Hu & Hr).
  rewrite Hx in Hx0. injection Hx0 as <-.
  apply (Hk x Hu w y w'); [|done]. exists x. done.
Qed.

Ltac se_update :=
  apply se_update_actor;
  let x := fresh in
  let E := fresh in
  intros x; simpl; try (destruct (cls x) eqn:E; simpl; rewrite ?E); done.

Ltac se_with known :=
  repeat first
    [ assumption
    | known
    | match goal with H : ∀ _, _ |- preserves _ _ => apply H end
    | apply se_ret
    | apply se_throw
    | apply se_assert
    | apply se_deref
    | apply se_get_actor
    | apply se_get_message
    | apply se_update_message
    | apply se_new_message
    | apply se_delete_message
    | apply se_drop_unique_ptr
    | apply se_vector_at
    | apply se_vector_in_range
    | apply se_emit
    | apply se_incr_msg_cnt
    | se_update
    | apply se_call_scope
    | (apply se_for_each; intros ?)
    | (apply se_bind; [|intros ?])
    | match goal with
      | |- preserves _ (if ?b then _ else _) => destruct b
      | |- preserves _ (match ?x with _ => _ end) => destruct x
      end
    | progress unfold set_thread_affinity, fast_terminate, Manager_end,
        resolve, add_message_to_queue, lock, unlock ].

Ltac ses := se_with fail.

Lemma se_send a m from : preserves E (send a m from).
Proof. unfold send. ses. Qed.

(** Another actor's reply. *)
Lemma se_reply a m : a ≠ this → preserves E (reply a m).
Proof.
  intros Hne. unfold reply.
  se_with ltac:(first [apply se_send | by apply se_update_other]).
Qed.

(** Another actor's code. *)
Lemma se_exec a body : a ≠ this → preserves E (exec a body).
Proof.
  intros Hne. induction body as [|k rest IH]; simpl; [apply se_ret|].
  apply se_bind; [|by intros _].
  destruct k; simpl;
    se_with ltac:(first [by apply se_reply | apply se_send]).
Qed.

Section KnotSlotEmpty.
Variable frec : nat → nat → option nat → M (option nat).
Variable prec : nat → nat → bool → M unit.
Hypothesis Hfrec : ∀ a m from, preserves E (frec a m from).
Hypothesis Hprec : ∀ a m d, preserves E (prec a m d).

Lemma se_Manager_init a : preserves E (Manager_init frec a).
Proof. unfold Manager_init. se_with ltac:(apply se_send). Qed.

Lemma se_init a : preserves E (init frec a).
Proof.
  unfold init. apply se_call_scope.
  destruct (decide (a = this)) as [->|Hne].
  - apply se_get_actor_this. intros x Hu.
    destruct (cls x); try done; se_with ltac:(apply se_Manager_init).
  - se_with ltac:(first [by apply se_exec | apply se_Manager_init]).
Qed.

Lemma se_end a : preserves E (end_ a).
Proof.
  unfold end_. apply se_call_scope.
  destruct (decide (a = this)) as [->|Hne].
  - apply se_get_actor_this. intros x Hu. destruct (cls x); try done; ses.
  - se_with ltac:(by apply se_exec).
Qed.

Lemma se_forward m : preserves E (forward prec m).
Proof. unfold forward. ses. Qed.

Lemma se_start_handler a m : preserves E (start_handler frec prec a m).
Proof.
  unfold start_handler.
  se_with ltac:(first [apply se_init | apply se_forward]).
Qed.

Lemma se_shutdown_handler a m :
  preserves E (shutdown_handler frec prec a m).
Proof.
  unfold shutdown_handler.
  se_with ltac:(first [apply se_end | apply se_forward]).
Qed.

Lemma se_Manager_process_message a m :
  preserves E (Manager_process_message frec a m).
Proof. unfold Manager_process_message. se_with ltac:(apply se_end). Qed.

Lemma se_process_message a m : preserves E (process_message frec prec a m).
Proof.
  unfold process_message. apply se_call_scope.
  destruct (decide (a = this)) as [->|Hne].
  - apply se_get_actor_this. intros x Hu.
    destruct (cls x); try done;
      se_with ltac:(first [apply se_forward
                          | apply se_Manager_process_message]).
  - se_with ltac:(first [by apply se_exec | apply se_forward
                        | apply se_Manager_process_message]).
Qed.

Lemma se_invoke a f m : preserves E (invoke frec prec a f m).
Proof.
  unfold invoke. apply se_call_scope. destruct f.
  - destruct (decide (a = this)) as [->|Hne].
    + apply se_get_actor_this. intros x Hu. destruct (cls x); try done; ses.
    + se_with ltac:(by apply se_exec).
  - apply se_start_handler.
  - apply se_shutdown_handler.
Qed.

Lemma se_call_handler a m : preserves E (call_handler frec prec a m).
Proof. unfold call_handler. se_with ltac:(apply se_invoke). Qed.

Lemma se_process_message_internal_body a m d :
  preserves E (process_message_internal_body frec prec a m d).
Proof.
  unfold process_message_internal_body.
  se_with ltac:(first [ apply se_call_handler | apply se_process_message ]).
Qed.

Lemma se_fast_send_body a m from :
  preserves E (fast_send_body frec prec a m from).
Proof.
  unfold fast_send_body.
  se_with ltac:(first [ apply se_call_handler | apply se_process_message ]).
Qed.

End KnotSlotEmpty.

Lemma se_fuel fuel :
  (∀ a m from, preserves E (fast_send fuel a m from)) ∧
  (∀ a m d, preserves E (process_message_internal fuel a m d)).
Proof.
  induction fuel as [|n [IHf IHp]]; [by split; intros ? ? ? w r w' Hw H|].
  split; intros ? ? ?.
  - by apply se_fast_send_body.
  - by apply se_process_message_internal_body.
Qed.

End SlotEmpty.

(* ===================================================================== *)
(** * Actor::fast_send on an actor that is not terminated *)
(* ===================================================================== *)

(** Actor::fast_send up to the dispatch, and after it. *)
Lemma fast_send_running fuel this m from w r w' x :
  actors w !! this = Some x →
  terminated x = false →
  fast_send (S fuel) this m from w = Ok (r, w') →
  ∃ msg wd x',
    messages w !! m = Some msg ∧
    (let* called :=
       call_handler (fast_send fuel) (process_message_internal fuel) this m in
     if called : bool then ret tt
     else process_message (fast_send fuel) (process_message_internal fuel)
            this m)
      (mkWorld
         (<[this := counted_fast_send (with_fast_send_mutex true x)]>
            (actors w))
         (<[m := stamped_by_fast_send from msg]> (messages w)) [])
    = Ok (tt, wd) ∧
    actors wd !! this = Some x' ∧
    r = reply_message x' ∧
    w' = mkWorld (<[this := with_fast_send_mutex false x']> (actors wd))
           (messages wd)
           (trace w ++ [Ev (CallFastSend this m (mtype msg) from) (trace wd)]).
Proof.
  intros Hx Ht H. simpl in H. unfold fast_send_body in H.
  apply bind_Ok in H as (msg & ? & Hmsg & H).
  apply get_message_Ok in Hmsg as [Hmsg ->].
  apply call_scope_Ok in H as (wb & H & ->).
  apply bind_Ok in H as ([] & wl & Hl & H).
  apply lock_Ok in Hl as (x0 & Hx0 & Hmut & ->). simpl in Hx0.
  rewrite Hx in Hx0. injection Hx0 as <-.
  apply bind_Ok in H as ([] & ? & Ha & H).
  apply assert_Ok in Ha as [_ ->].
  apply bind_Ok in H as ([] & ? & Hu & H).
  apply update_message_Ok in Hu as (msg0 & Hmsg0 & ->). simpl in Hmsg0.
  rewrite Hmsg in Hmsg0. injection Hmsg0 as <-.
  apply bind_Ok in H as ([] & ? & Hu & H).
  apply update_actor_Ok in Hu as (xu & Hxu & ->). simpl in Hxu.
  rewrite lookup_insert_eq in Hxu. injection Hxu as <-.
  apply bind_Ok in H as ([] & ? & Hi & H).
  apply incr_msg_cnt_Ok in Hi as (xi & Hxi & _ & ->). simpl in Hxi.
  rewrite lookup_insert_eq in Hxi. injection Hxi as <-.
  apply bind_Ok in H as (x2 & ? & Hx2 & H).
  apply get_actor_Ok in Hx2 as [Hx2 ->]. simpl in Hx2.
  rewrite lookup_insert_eq in Hx2. injection Hx2 as <-. simpl in H.
  rewrite Ht in H.
  rewrite <- (bind_assoc
    (call_handler (fast_send fuel) (process_message_internal fuel) this m)
    (λ called : bool, if called then ret tt
       else process_message (fast_send fuel) (process_message_internal fuel)
              this m)) in H.
  apply bind_Ok in H as ([] & wd & Hd & H).
  apply bind_Ok in H as (x' & ? & Hx' & H).
  apply get_actor_Ok in Hx' as [Hx' ->].
  apply bind_Ok in H as ([] & ? & Hun & H).
  apply ret_Ok in H as [-> ->].
  unfold unlock in Hun.
  apply update_actor_Ok in Hun as (xf & Hxf & ->).
  rewrite Hx' in Hxf. injection Hxf as <-.
  exists msg, wd, x'. split; [done|]. split.
  - unfold with_actors, with_messages, with_trace in Hd. simpl in Hd.
    rewrite !insert_insert_eq in Hd. exact Hd.
  - done.
Qed.

(** The events a Group's fan-out leaves are no replies. *)
Lemma lifecycle_no_reply evs :
  Forall (λ l, l ≠ LOther) (map lifecycle_of evs) → omap replied evs = [].
Proof.
  induction evs as [|[c inner] evs IH]; [done|]. simpl.
  intros H. apply Forall_cons in H as [Hc H].
  unfold replied. simpl. destruct c; try done; by apply IH.
Qed.

Lemma start_fan_out_lifecycle this members :
  Forall (λ l, l ≠ LOther)
    (flat_map (λ a, [LInit a; LFastSend a Start (Some this)]) members).
Proof. induction members; simpl; repeat constructor; done. Qed.

Lemma shutdown_fan_out_lifecycle this members :
  Forall (λ l, l ≠ LOther)
    (flat_map (λ a, [LFastSend a Shutdown (Some this); LEnd a]) members).
Proof. induction members; simpl; repeat constructor; done. Qed.

(** A handler invoked on an actor of a library class, for a message that
    came by fast_send: the code of the library makes no reply. *)
Lemma invoke_library fuel this f m w w' x msg :
  actors w !! this = Some x →
  is_user (cls x) = false →
  messages w !! m = Some msg →
  is_fast msg = true →
  invoke (fast_send fuel) (process_message_internal fuel) this f m w
    = Ok (tt, w') →
  ∃ evs, trace w' = trace w ++ [Ev (CallHandler this f m) evs] ∧
         omap replied evs = [].
Proof.
  intros Hx Hu Hm Hf H. unfold invoke in H.
  apply call_scope_Ok in H as (wb & H & ->).
  exists (trace wb). split; [done|].
  destruct f as [n| |].
  - apply bind_Ok in H as (x0 & ? & Hx0 & H).
    apply get_actor_Ok in Hx0 as [Hx0 ->]. simpl in Hx0.
    rewrite Hx in Hx0. injection Hx0 as <-. by destruct (cls x).
  - unfold start_handler in H.
    apply bind_Ok in H as (x0 & ? & Hx0 & H).
    apply get_actor_Ok in Hx0 as [Hx0 ->]. simpl in Hx0.
    rewrite Hx in Hx0. injection Hx0 as <-.
    destruct (cls x) as [|gname members n2a| | |]; try done.
    apply bind_Ok in H as (msg0 & ? & Hm0 & H).
    apply get_message_Ok in Hm0 as [Hm0 ->]. simpl in Hm0.
    rewrite Hm in Hm0. injection Hm0 as <-.
    destruct (bool_decide (sender msg ≠ Some this)).
    + apply start_fan_out_loop in H as (evs & -> & Hl). simpl.
      apply lifecycle_no_reply. rewrite Hl. apply start_fan_out_lifecycle.
    + unfold forward in H.
      apply bind_Ok in H as (msg0 & ? & Hm0 & H).
      apply get_message_Ok in Hm0 as [Hm0 ->]. simpl in Hm0.
      rewrite Hm in Hm0. injection Hm0 as <-.
      apply bind_Ok in H as ([] & ? & Ha & _).
      apply assert_Ok in Ha as [Ha _]. by rewrite Hf in Ha.
  - unfold shutdown_handler in H.
    apply bind_Ok in H as (x0 & ? & Hx0 & H).
    apply get_actor_Ok in Hx0 as [Hx0 ->]. simpl in Hx0.
    rewrite Hx in Hx0. injection Hx0 as <-.
    destruct (cls x) as [|gname members n2a| | |]; try done.
    apply bind_Ok in H as (msg0 & ? & Hm0 & H).
    apply get_message_Ok in Hm0 as [Hm0 ->]. simpl in Hm0.
    rewrite Hm in Hm0. injection Hm0 as <-.
    destruct (bool_decide (sender msg ≠ Some this)).
    + apply shutdown_fan_out_loop in H as (evs & -> & Hl). simpl.
      apply lifecycle_no_reply. rewrite Hl. apply shutdown_fan_out_lifecycle.
    + unfold forward in H.
      apply bind_Ok in H as (msg0 & ? & Hm0 & H).
      apply get_message_Ok in Hm0 as [Hm0 ->]. simpl in Hm0.
      rewrite Hm in Hm0. injection Hm0 as <-.
      apply bind_Ok in H as ([] & ? & Ha & _).
      apply assert_Ok in Ha as [Ha _]. by rewrite Hf in Ha.
Qed.

(** The process_message of the library classes, for a message that came
    by fast_send: nothing is called that returns. *)
Lemma process_message_library fuel this m w w' x msg :
  actors w !! this = Some x →
  is_user (cls x) = false →
  messages w !! m = Some msg →
  is_fast msg = true →
  process_message (fast_send fuel) (process_message_internal fuel) this m w
    = Ok (tt, w') →
  trace w' = trace w ++ [Ev (CallProcessMessage this m) []].
Proof.
  intros Hx Hu Hm Hf H. unfold process_message in H.
  apply call_scope_Ok in H as (wb & H & ->). simpl.
  do 3 f_equal.
  apply bind_Ok in H as (x0 & ? & Hx0 & H).
  apply get_actor_Ok in Hx0 as [Hx0 ->]. simpl in Hx0.
  rewrite Hx in Hx0. injection Hx0 as <-.
  destruct (cls x) as [|gname members n2a|al tl mn en| |] eqn:Hc; try done.
  - unfold forward in H.
    apply bind_Ok in H as (msg0 & ? & Hm0 & H).
    apply get_message_Ok in Hm0 as [Hm0 ->]. simpl in Hm0.
    rewrite Hm in Hm0. injection Hm0 as <-.
    apply bind_Ok in H as ([] & ? & Ha & _).
    apply assert_Ok in Ha as [Ha _]. by rewrite Hf in Ha.
  - unfold Manager_process_message in H.
    apply bind_Ok in H as (x0 & ? & Hx0 & H).
    apply get_actor_Ok in Hx0 as [Hx0 ->]. simpl in Hx0.
    rewrite Hx in Hx0. injection Hx0 as <-. rewrite Hc in H.
    apply bind_Ok in H as (msg0 & ? & Hm0 & H).
    apply get_message_Ok in Hm0 as [Hm0 ->].
    destruct (bool_decide (mtype msg0 = Start));
      [by apply ret_Ok in H as [_ ->]|].
    destruct (bool_decide (mtype msg0 = Shutdown));
      [|by apply ret_Ok in H as [_ ->]].
    by apply bind_Ok in H as ([] & ? & _ & H).
  - by apply ret_Ok in H as [_ ->].
  - by apply ret_Ok in H as [_ ->].
Qed.

(** The dispatch of Actor::fast_send on an actor of a library class. *)
Lemma dispatch_library fuel this m w1 w2 x1 msg :
  actors w1 !! this = Some x1 →
  is_user (cls x1) = false →
  messages w1 !! m = Some msg →
  is_fast msg = true →
  (let* called :=
     call_handler (fast_send fuel) (process_message_internal fuel) this m in
   if called : bool then ret tt
   else process_message (fast_send fuel) (process_message_internal fuel)
          this m) w1
    = Ok (tt, w2) →
  ∃ c evs,
    trace w2 = trace w1 ++ [Ev c evs] ∧
    (c = CallProcessMessage this m ∨ ∃ f, c = CallHandler this f m) ∧
    omap replied evs = [].
Proof.
  intros Hx Hu Hm Hf H.
  apply bind_Ok in H as (called & wc & Hcall & H).
  unfold call_handler in Hcall.
  apply bind_Ok in Hcall as (msg0 & ? & Hmsg & Hcall).
  apply get_message_Ok in Hmsg as [Hmsg ->].
  rewrite Hm in Hmsg. injection Hmsg as <-.
  apply bind_Ok in Hcall as (x & ? & Hx' & Hcall).
  apply get_actor_Ok in Hx' as [Hx' ->].
  rewrite Hx in Hx'. injection Hx' as <-.
  apply bind_Ok in Hcall as (f0 & ? & Hf0 & Hcall).
  apply vector_at_Ok in Hf0 as (_ & _ & ->).
  destruct f0 as [f|].
  - apply bind_Ok in Hcall as ([] & wi & Hi & Hcall).
    apply ret_Ok in Hcall as [-> ->]. apply ret_Ok in H as [_ ->].
    destruct (invoke_library _ _ _ _ _ _ _ _ Hx Hu Hm Hf Hi) as (evs & ? & ?).
    exists (CallHandler this f m), evs. eauto.
  - apply bind_Ok in Hcall as (dont & ? & Hdont & Hcall).
    apply vector_at_Ok in Hdont as (_ & _ & ->).
    destruct dont.
    + apply ret_Ok in Hcall as [-> ->].
      exists (CallProcessMessage this m), [].
      split; [by eapply process_message_library|]. split; [eauto|done].
    + destruct (handlers x1 !! mtype msg) as [f|] eqn:Hh.
      * apply bind_Ok in Hcall as ([] & wi & Hi & Hcall).
        destruct (invoke_library _ _ _ _ _ _ _ _ Hx Hu Hm Hf Hi)
          as (evs & Htr & Hno).
        apply bind_Ok in Hcall as (x' & ? & Hx' & Hcall).
        apply get_actor_Ok in Hx' as [Hx' ->].
        apply bind_Ok in Hcall as ([] & ? & Hr & Hcall).
        apply vector_in_range_Ok in Hr as [_ ->].
        apply bind_Ok in Hcall as ([] & ? & Hup & Hcall).
        apply update_actor_Ok in Hup as (? & _ & ->).
        apply ret_Ok in Hcall as [-> ->]. apply ret_Ok in H as [_ ->].
        exists (CallHandler this f m), evs. eauto.
      * apply bind_Ok in Hcall as ([] & ? & Hup & Hcall).
        apply update_actor_Ok in Hup as (xu & Hxu & ->).
        rewrite Hx in Hxu. injection Hxu as <-.
        apply ret_Ok in Hcall as [-> ->].
        exists (CallProcessMessage this m), [].
        split; [|split; [eauto|done]].
        match type of H with
        | process_message _ _ _ _ ?w = _ =>
            apply (process_message_library fuel this m w w2
                     (with_dont_have_handler
                        (<[Z.to_nat (get_message_id (mtype msg)) := true]>
                           (dont_have_handler x1)) x1) msg)
        end; [simpl; apply lookup_insert_eq|done|done|done|exact H].
Qed.

(** Actor::fast_send on a terminated actor. *)
Lemma fast_send_stopped fuel this m from w r w' x :
  actors w !! this = Some x →
  terminated x = true →
  fast_send (S fuel) this m from w = Ok (r, w') →
  r = None ∧
  ∃ msg,
    messages w !! m = Some msg ∧
    w' = mkWorld (<[this := counted_fast_send x]> (actors w))
           (<[m := stamped_by_fast_send from msg]> (messages w))
           (trace w ++ [Ev (CallFastSend this m (mtype msg) from) []]).
Proof.
  intros Hx Ht H. simpl in H. unfold fast_send_body in H.
  apply bind_Ok in H as (msg & ? & Hmsg & H).
  apply get_message_Ok in Hmsg as [Hmsg ->].
  apply call_scope_Ok in H as (wb & H & ->).
  apply bind_Ok in H as ([] & wl & Hl & H).
  apply lock_Ok in Hl as (x0 & Hx0 & Hmut & ->). simpl in Hx0.
  rewrite Hx in Hx0. injection Hx0 as <-.
  apply bind_Ok in H as ([] & ? & Ha & H).
  apply assert_Ok in Ha as [_ ->].
  apply bind_Ok in H as ([] & ? & Hu & H).
  apply update_message_Ok in Hu as (msg0 & Hmsg0 & ->). simpl in Hmsg0.
  rewrite Hmsg in Hmsg0. injection Hmsg0 as <-.
  apply bind_Ok in H as ([] & ? & Hu & H).
  apply update_actor_Ok in Hu as (xu & Hxu & ->). simpl in Hxu.
  rewrite lookup_insert_eq in Hxu. injection Hxu as <-.
  apply bind_Ok in H as ([] & ? & Hi & H).
  apply incr_msg_cnt_Ok in Hi as (xi & Hxi & _ & ->). simpl in Hxi.
  rewrite lookup_insert_eq in Hxi. injection Hxi as <-.
  apply bind_Ok in H as (x2 & ? & Hx2 & H).
  apply get_actor_Ok in Hx2 as [Hx2 ->]. simpl in Hx2.
  rewrite lookup_insert_eq in Hx2. injection Hx2 as <-. simpl in H.
  rewrite Ht in H.
  apply bind_Ok in H as ([] & ? & Hun & H).
  apply ret_Ok in H as [-> ->].
  unfold unlock in Hun.
  apply update_actor_Ok in Hun as (xf & Hxf & ->). simpl in Hxf.
  rewrite lookup_insert_eq in Hxf. injection Hxf as <-.
  split; [done|]. exists msg. split; [done|].
  unfold with_actors, with_messages, with_trace. simpl.
  rewrite !insert_insert_eq. do 2 f_equal.
  destruct x; simpl in *; subst. reflexivity.
Qed.
(* ===================================================================== *)
(** * The contracts of fast_send, reply and the worker loop *)
(* ===================================================================== *)

(** The actor as Actor::process_message_internal prepares it for the
    dispatch. *)
Definition counted_async (x : Actor) : Actor :=
  with_using_fast_send false
    (with_msg_cnt (msg_cnt x + 1) (with_fast_send_mutex true x)).

Lemma process_message_internal_dispatch fuel this m d w w' :
  process_message_internal (S fuel) this m d w = Ok (tt, w') →
  ∃ x msg called wd,
    actors w !! this = Some x ∧
    messages w !! m = Some msg ∧
    using_fast_send (counted_async x) = false ∧
    call_handler (fast_send fuel) (process_message_internal fuel) this m
      (mkWorld (<[this := counted_async x]> (actors w)) (messages w) [])
      = Ok (called, wd).
Proof.
  simpl. unfold process_message_internal_body. intros H.
  apply bind_Ok in H as (msg & ? & Hmsg & H).
  apply get_message_Ok in Hmsg as [Hmsg ->].
  apply call_scope_Ok in H as (wb & H & ->).
  apply bind_Ok in H as ([] & wl & Hl & H).
  apply lock_Ok in Hl as (x & Hx & Hmut & ->). simpl in Hx.
  apply bind_Ok in H as ([] & ? & Hi & H).
  apply incr_msg_cnt_Ok in Hi as (xi & Hxi & _ & ->). simpl in Hxi.
  rewrite lookup_insert_eq in Hxi. injection Hxi as <-.
  apply bind_Ok in H as ([] & ? & Hu & H).
  apply update_actor_Ok in Hu as (x1 & Hx1 & ->). simpl in Hx1.
  rewrite lookup_insert_eq in Hx1. injection Hx1 as <-.
  apply bind_Ok in H as (called & wd & Hc & H).
  exists x, msg, called, wd. split; [done|]. split; [done|]. split; [done|].
  simpl in Hc. rewrite !insert_insert_eq in Hc. exact Hc.
Qed.


(** C2. Actor::call_handler reads handler_cache[id] and
    dont_have_handler[id] with the identity of the message as it is: for
    an identity that is not below the length of the cache (512), or is
    negative, the first read is already out of bounds, and no look-up in
    the handler table takes place. *)
Theorem cache_index_unchecked frec prec this m w x msg :
  actors w !! this = Some x →
  messages w !! m = Some msg →
  ¬ (0 ≤ get_message_id (mtype msg) < Z.of_nat (length (handler_cache x))) →
  call_handler frec prec this m w = Err OutOfBounds.
Proof.
  intros Hx Hm Hid. unfold call_handler.
  rewrite (bind_eq _ _ _ msg w) by (by apply get_message_eq).
  rewrite (bind_eq _ _ _ x w) by (by apply get_actor_eq).
  apply bind_Err. by apply vector_at_out_of_bounds.
Qed.

(* ===================================================================== *)
(** * A message is enqueued once *)
(* ===================================================================== *)

Lemma call_scope_Err {A} c (body : M A) w e :
  body (with_trace [] w) = Err e → call_scope c body w = Err e.
Proof. intros H. unfold call_scope. by rewrite H. Qed.

(** Actor::send to an actor that is not terminated, as an equation. *)
Lemma send_eq this m from w x msg g y :
  actors w !! this = Some x →
  terminated x = false →
  messages w !! m = Some msg →
  destination msg = None →
  mailbox_owner this x = Some g →
  actors w !! g = Some y →
  send this m from w =
  Ok (tt, mkWorld
            (<[g := with_msgq (BQueue.push m (msgq y)) y]> (actors w))
            (<[m := stamped_by_send this from msg]> (messages w))
            (trace w ++ [Ev (CallSend this m from) []])).
Proof.
  intros Hx Ht Hm Hd Hg Hy. unfold send.
  rewrite (call_scope_eq _ _ tt w
    (mkWorld (<[g := with_msgq (BQueue.push m (msgq y)) y]> (actors w))
             (<[m := stamped_by_send this from msg]> (messages w)) []));
    [reflexivity|].
  rewrite (bind_eq _ _ _ x (with_trace [] w)) by (by apply get_actor_eq).
  rewrite Ht.
  rewrite (bind_eq _ _ _ msg (with_trace [] w)) by (by apply get_message_eq).
  rewrite Hd. simpl.
  rewrite (bind_eq _ _ _ tt (with_trace [] w)) by reflexivity.
  erewrite bind_eq by (by apply update_message_eq).
  unfold mailbox_owner in Hg.
  destruct (is_part_of_group x).
  + rewrite Hg. simpl. erewrite bind_eq by reflexivity.
    unfold add_message_to_queue. by erewrite update_actor_eq.
  + injection Hg as <-. unfold add_message_to_queue.
    by erewrite update_actor_eq.
Qed.

Lemma send_reused this m from w x msg :
  actors w !! this = Some x →
  terminated x = false →
  messages w !! m = Some msg →
  destination msg ≠ None →
  send this m from w = Err (AssertionFailed "cannot reuse message").
Proof.
  intros Hx Ht Hm Hd. unfold send. apply call_scope_Err.
  rewrite (bind_eq _ _ _ x (with_trace [] w)) by (by apply get_actor_eq).
  rewrite Ht.
  rewrite (bind_eq _ _ _ msg (with_trace [] w)) by (by apply get_message_eq).
  apply bind_Err. by rewrite bool_decide_false.
Qed.

(** X5. A message object is enqueued at most once.  After a send that
    put the message in a mailbox, every further send of the same object
    to an actor that is not terminated fails the assertion "cannot reuse
    message", whoever the target and the sender are; a copy made with the
    copy constructor has its destination reset and can be sent again. *)
Theorem message_enqueued_once (this m : nat) (from : option nat)
    (w w1 : World) (x : Actor) :
  actors w !! this = Some x →
  terminated x = false →
  send this m from w = Ok (tt, w1) →
  ∃ msg1,
    messages w1 !! m = Some msg1 ∧
    destination msg1 = Some this ∧
    (∀ b from' y,
       actors w1 !! b = Some y → terminated y = false →
       send b m from' w1 = Err (AssertionFailed "cannot reuse message")) ∧
    (∀ b from' y g z,
       actors w1 !! b = Some y → terminated y = false →
       mailbox_owner b y = Some g → actors w1 !! g = Some z →
       (let* p := new_message (Message_copy msg1) in send b p from') w1 =
       Ok (tt, mkWorld
                 (<[g := with_msgq
                           (BQueue.push (fresh (dom (messages w1))) (msgq z))
                           z]> (actors w1))
                 (<[fresh (dom (messages w1)) :=
                      stamped_by_send b from' (Message_copy msg1)]>
                    (messages w1))
                 (trace w1 ++
                  [Ev (CallSend b (fresh (dom (messages w1))) from') []]))).
Proof.
  intros Hx Ht H. apply send_Ok in H as [[H|H] _].
  { destruct H as (x0 & Hx0 & Ht0 & _). congruence. }
  destruct H as (x0 & msg & g & y & _ & _ & Hm & _ & _ & _ & _ & Hmsgs).
  exists (stamped_by_send this from msg).
  assert (messages w1 !! m = Some (stamped_by_send this from msg)) as Hm1
    by (rewrite Hmsgs; apply lookup_insert_eq).
  split; [done|]. split; [done|]. split.
  - intros b from' y0 Hb Htb. by apply (send_reused b m from' w1 y0 _ Hb Htb Hm1).
  - intros b from' y0 g0 z Hb Htb Hg Hz.
    set (p := fresh (dom (messages w1))).
    set (w2 := with_messages
                 (<[p := Message_copy (stamped_by_send this from msg)]>
                    (messages w1)) w1).
    rewrite (bind_eq _ _ _ p w2) by reflexivity.
    rewrite (send_eq b p from' w2 y0
               (Message_copy (stamped_by_send this from msg)) g0 z Hb Htb
               (lookup_insert_eq _ _ _) eq_refl Hg Hz).
    subst w2. simpl. by rewrite insert_insert_eq.
Qed.

(* ===================================================================== *)
(** * The lock and the message counter *)
(* ===================================================================== *)

(** The actor at [this] is inside a dispatch: its lock is held, its
    counter is [c] and its flag using_fast_send is [u]. *)
Definition dispatching (this : nat) (c : Z) (u : bool) (w : World) : Prop :=
  ∃ x, actors w !! this = Some x ∧ fast_send_mutex x = true ∧
       msg_cnt x = c ∧ using_fast_send x = u.

Section Dispatching.
Variables (this : nat) (c : Z) (u : bool).
Local Abbreviation D := (dispatching this c u).

Lemma keeps_ret {A} (x : A) : preserves D (ret x).
Proof. intros w y w' Hw H. by steps H. Qed.

Lemma keeps_throw {A} e : preserves D (throw (A:=A) e).
Proof. intros w y w' Hw H. done. Qed.

Lemma keeps_bind {A B} (k1 : M A) (k2 : A → M B) :
  preserves D k1 → (∀ x, preserves D (k2 x)) → preserves D (bind k1 k2).
Proof.
  intros H1 H2 w y w' Hw H.
  apply bind_Ok in H as (x & w1 & Hx & Hy).
  exact (H2 x w1 y w' (H1 w x w1 Hw Hx) Hy).
Qed.

Lemma keeps_assert b s : preserves D (assert b s).
Proof. intros w y w' Hw H. by steps H. Qed.

Lemma keeps_deref p : preserves D (deref p).
Proof. intros w y w' Hw H. by steps H. Qed.

Lemma keeps_get_actor a : preserves D (get_actor a).
Proof. intros w y w' Hw H. by apply get_actor_Ok in H as [_ ->]. Qed.

Lemma keeps_get_message m : preserves D (get_message m).
Proof. intros w y w' Hw H. by apply get_message_Ok in H as [_ ->]. Qed.

Lemma keeps_update_message m f : preserves D (update_message m f).
Proof.
  intros w y w' Hw H. by apply update_message_Ok in H as (? & _ & ->).
Qed.

Lemma keeps_new_message x : preserves D (new_message x).
Proof. intros w y w' Hw H. by apply new_message_Ok in H as [_ ->]. Qed.

Lemma keeps_delete_message m : preserves D (delete_message m).
Proof. intros w y w' Hw H. by apply delete_message_Ok in H as [_ ->]. Qed.

Lemma keeps_drop_unique_ptr p : preserves D (drop_unique_ptr p).
Proof. destruct p; [apply keeps_delete_message|apply keeps_ret]. Qed.

Lemma keeps_vector_at {X} (v : list X) i : preserves D (vector_at v i).
Proof. intros w y w' Hw H. by apply vector_at_Ok in H as (_ & _ & ->). Qed.

Lemma keeps_vector_in_range {X} (v : list X) i :
  preserves D (vector_in_range v i).
Proof. intros w y w' Hw H. by apply vector_in_range_Ok in H as (_ & ->). Qed.

Lemma keeps_call_scope {A} e (body : M A) :
  preserves D body → preserves D (call_scope e body).
Proof.
  intros Hb w y w' Hw H. apply call_scope_Ok in H as (w1 & H & ->).
  exact (Hb (with_trace [] w) y w1 Hw H).
Qed.

Lemma keeps_emit e : preserves D (emit e).
Proof. apply keeps_call_scope, keeps_ret. Qed.

Lemma keeps_for_each {X} (l : list X) (f : X → M unit) :
  (∀ x, preserves D (f x)) → preserves D (for_each l f).
Proof.
  intros Hf. induction l as [|x l IH]; simpl.
  - apply keeps_ret.
  - apply keeps_bind; [apply Hf|]. intros _. apply IH.
Qed.

(** An update that leaves the lock, the counter and the flag alone. *)
Lemma keeps_update_actor a f :
  (∀ x, fast_send_mutex (f x) = fast_send_mutex x ∧
        msg_cnt (f x) = msg_cnt x ∧
        using_fast_send (f x) = using_fast_send x) →
  preserves D (update_actor a f).
Proof.
  intros Hf w y w' (x & Hx & Hm & Hc & Hu) H.
  apply update_actor_Ok in H as (z & Hz & ->). unfold dispatching. simpl.
  destruct (decide (a = this)) as [->|Hne].
  - rewrite lookup_insert_eq. exists (f z).
    rewrite Hx in Hz. injection Hz as <-.
    destruct (Hf x) as (-> & -> & ->). done.
  - rewrite lookup_insert_ne by done. eauto.
Qed.

(** An update of another actor. *)
Lemma keeps_update_other a f : a ≠ this → preserves D (update_actor a f).
Proof.
  intros Hne w y w' (x & Hx & Hm & Hc & Hu) H.
  apply update_actor_Ok in H as (z & Hz & ->). unfold dispatching. simpl.
  rewrite lookup_insert_ne by done. eauto.
Qed.

Lemma keeps_incr_other a : a ≠ this → preserves D (incr_msg_cnt a).
Proof.
  intros Hne w y w' (x & Hx & Hm & Hc & Hu) H.
  apply incr_msg_cnt_Ok in H as (z & Hz & _ & ->). unfold dispatching. simpl.
  rewrite lookup_insert_ne by done. eauto.
Qed.

(** The lock of the dispatching actor cannot be taken. *)
Lemma dispatching_locked {A} (k : M A) w r :
  D w → (lock this >> k) w = Ok r → False.
Proof.
  intros (x & Hx & Hm & _) H. destruct r as [y w'].
  apply bind_Ok in H as ([] & w1 & Hl & _).
  apply lock_Ok in Hl as (x0 & Hx0 & Hm0 & _). congruence.
Qed.

Lemma keeps_lock_other a : a ≠ this → preserves D (lock a).
Proof.
  intros Hne w y w' (x & Hx & Hm & Hc & Hu) H.
  apply lock_Ok in H as (z & Hz & _ & ->). unfold dispatching. simpl.
  rewrite lookup_insert_ne by done. eauto.
Qed.

Lemma keeps_unlock_other a : a ≠ this → preserves D (unlock a).
Proof. intros Hne. unfold unlock. by apply keeps_update_other. Qed.

Ltac keeps_update :=
  apply keeps_update_actor;
  let x := fresh in
  intros x; simpl; try (destruct (cls x)); done.

Ltac keeps_with known :=
  repeat first
    [ assumption
    | known
    | match goal with H : ∀ _, _ |- preserves _ _ => apply H end
    | apply keeps_ret
    | apply keeps_throw
    | apply keeps_assert
    | apply keeps_deref
    | apply keeps_get_actor
    | apply keeps_get_message
    | apply keeps_update_message
    | apply keeps_new_message
    | apply keeps_delete_message
    | apply keeps_drop_unique_ptr
    | apply keeps_vector_at
    | apply keeps_vector_in_range
    | apply keeps_emit
    | keeps_update
    | apply keeps_call_scope
    | (apply keeps_for_each; intros ?)
    | (apply keeps_bind; [|intros ?])
    | match goal with
      | |- preserves _ (if ?b then _ else _) => destruct b
      | |- preserves _ (match ?x with _ => _ end) => destruct x
      end
    | progress unfold set_thread_affinity, fast_terminate, Manager_end,
        resolve, add_message_to_queue ].

Ltac keeps := keeps_with fail.

Lemma keeps_send a m from : preserves D (send a m from).
Proof. unfold send, add_message_to_queue. keeps. Qed.

Lemma keeps_reply a m : preserves D (reply a m).
Proof. unfold reply. keeps_with ltac:(apply keeps_send). Qed.

Lemma keeps_exec a body : preserves D (exec a body).
Proof.
  induction body as [|k rest IH]; simpl; [apply keeps_ret|].
  apply keeps_bind; [|by intros _].
  destruct k; simpl;
    keeps_with ltac:(first [apply keeps_reply | apply keeps_send]).
Qed.

Section KnotDispatching.
Variable frec : nat → nat → option nat → M (option nat).
Variable prec : nat → nat → bool → M unit.
Hypothesis Hfrec : ∀ a m from, preserves D (frec a m from).
Hypothesis Hprec : ∀ a m d, preserves D (prec a m d).

Lemma keeps_Manager_init a : preserves D (Manager_init frec a).
Proof. unfold Manager_init. keeps. Qed.

Lemma keeps_init a : preserves D (init frec a).
Proof.
  unfold init.
  keeps_with ltac:(first [apply keeps_exec | apply keeps_Manager_init]).
Qed.

Lemma keeps_end a : preserves D (end_ a).
Proof. unfold end_. keeps_with ltac:(apply keeps_exec). Qed.

Lemma keeps_forward m : preserves D (forward prec m).
Proof. unfold forward. keeps. Qed.

Lemma keeps_start_handler a m : preserves D (start_handler frec prec a m).
Proof.
  unfold start_handler.
  keeps_with ltac:(first [apply keeps_init | apply keeps_forward]).
Qed.

Lemma keeps_shutdown_handler a m :
  preserves D (shutdown_handler frec prec a m).
Proof.
  unfold shutdown_handler.
  keeps_with ltac:(first [apply keeps_end | apply keeps_forward]).
Qed.

Lemma keeps_Manager_process_message a m :
  preserves D (Manager_process_message frec a m).
Proof.
  unfold Manager_process_message. keeps_with ltac:(apply keeps_end).
Qed.

Lemma keeps_process_message a m :
  preserves D (process_message frec prec a m).
Proof.
  unfold process_message.
  keeps_with ltac:(first [apply keeps_exec | apply keeps_forward
                         | apply keeps_Manager_process_message]).
Qed.

Lemma keeps_invoke a f m : preserves D (invoke frec prec a f m).
Proof.
  unfold invoke.
  keeps_with ltac:(first [apply keeps_exec | apply keeps_start_handler
                         | apply keeps_shutdown_handler]).
Qed.

Lemma keeps_call_handler a m : preserves D (call_handler frec prec a m).
Proof. unfold call_handler. keeps_with ltac:(apply keeps_invoke). Qed.

Lemma keeps_process_message_internal_body a m d :
  preserves D (process_message_internal_body frec prec a m d).
Proof.
  destruct (decide (a = this)) as [->|Hne].
  - intros w y w' Hw H. unfold process_message_internal_body in H.
    apply bind_Ok in H as (msg & ? & Hmsg & H).
    apply get_message_Ok in Hmsg as [_ ->].
    apply call_scope_Ok in H as (wb & H & _).
    by destruct (dispatching_locked _ (with_trace [] w) _ Hw H).
  - unfold process_message_internal_body.
    keeps_with ltac:(first [ apply keeps_call_handler
                           | apply keeps_process_message
                           | by apply keeps_lock_other
                           | by apply keeps_unlock_other
                           | by apply keeps_incr_other
                           | by apply keeps_update_other ]).
Qed.

Lemma keeps_fast_send_body a m from :
  preserves D (fast_send_body frec prec a m from).
Proof.
  destruct (decide (a = this)) as [->|Hne].
  - intros w y w' Hw H. unfold fast_send_body in H.
    apply bind_Ok in H as (msg & ? & Hmsg & H).
    apply get_message_Ok in Hmsg as [_ ->].
    apply call_scope_Ok in H as (wb & H & _).
    by destruct (dispatching_locked _ (with_trace [] w) _ Hw H).
  - unfold fast_send_body.
    keeps_with ltac:(first [ apply keeps_call_handler
                           | apply keeps_process_message
                           | by apply keeps_lock_other
                           | by apply keeps_unlock_other
                           | by apply keeps_incr_other
                           | by apply keeps_update_other ]).
Qed.

End KnotDispatching.

Lemma keeps_fuel fuel :
  (∀ a m from, preserves D (fast_send fuel a m from)) ∧
  (∀ a m d, preserves D (process_message_internal fuel a m d)).
Proof.
  induction fuel as [|n [IHf IHp]]; [by split; intros ? ? ? w r w' Hw H|].
  split; intros ? ? ?.
  - by apply keeps_fast_send_body.
  - by apply keeps_process_message_internal_body.
Qed.

End Dispatching.

(** X6. Every dispatch that returns leaves the books of the actor in
    order: the lock is free again, the message counter is exactly one
    higher than before (nothing the handler does, however deep its calls
    go, can dispatch to the same actor in between), and using_fast_send
    tells which kind of dispatch came last.  What fast_send returns is
    the reply slot of the actor as it is at the end; an asynchronous
    dispatch with dontdel = false has freed the message. *)
Theorem dispatch_bookkeeping :
  (∀ fuel this m from w r w' x,
     actors w !! this = Some x →
     fast_send (S fuel) this m from w = Ok (r, w') →
     ∃ x', actors w' !! this = Some x' ∧
           msg_cnt x' = msg_cnt x + 1 ∧
           fast_send_mutex x' = false ∧
           using_fast_send x' = true ∧
           r = reply_message x') ∧
  (∀ fuel this m d w w' x,
     actors w !! this = Some x →
     process_message_internal (S fuel) this m d w = Ok (tt, w') →
     ∃ x', actors w' !! this = Some x' ∧
           msg_cnt x' = msg_cnt x + 1 ∧
           fast_send_mutex x' = false ∧
           using_fast_send x' = false ∧
           (d = false → messages w' !! m = None)).
Proof.
  split.
  - intros fuel this m from w r w' x Hx H.
    simpl in H. unfold fast_send_body in H.
    apply bind_Ok in H as (msg & ? & Hmsg & H).
    apply get_message_Ok in Hmsg as [Hmsg ->].
    apply call_scope_Ok in H as (wb & H & ->).
    apply bind_Ok in H as ([] & wl & Hl & H).
    apply lock_Ok in Hl as (x0 & Hx0 & Hmut & ->). simpl in Hx0.
    rewrite Hx in Hx0. injection Hx0 as <-.
    apply bind_Ok in H as ([] & ? & Ha & H).
    apply assert_Ok in Ha as [_ ->].
    apply bind_Ok in H as ([] & ? & Hu & H).
    apply update_message_Ok in Hu as (? & _ & ->).
    apply bind_Ok in H as ([] & ? & Hu & H).
    apply update_actor_Ok in Hu as (xu & Hxu & ->). simpl in Hxu.
    rewrite lookup_insert_eq in Hxu. injection Hxu as <-.
    apply bind_Ok in H as ([] & wD & Hi & H).
    apply incr_msg_cnt_Ok in Hi as (xi & Hxi & _ & ->). simpl in Hxi.
    rewrite lookup_insert_eq in Hxi. injection Hxi as <-.
    match type of H with _ ?w0 = Ok _ => set (wD := w0) in * end.
    assert (dispatching this (msg_cnt x + 1) true wD) as HD.
    { eexists. split; [subst wD; simpl; apply lookup_insert_eq|]. done. }
    apply bind_Ok in H as (xt & ? & Hxt & H).
    apply get_actor_Ok in Hxt as [Hxt ->].
    assert (∃ wE x', dispatching this (msg_cnt x + 1) true wE ∧
                     actors wE !! this = Some x' ∧
                     (unlock this >> ret (reply_message x')) wE = Ok (r, wb))
      as (wE & x' & (xe & Hxe & Hm3 & Hc3 & Hu3) & Hx' & Hend).
    { destruct (terminated xt); [by exists wD, xt|].
      apply bind_Ok in H as (called & wd & Hcall & H).
      destruct (keeps_fuel this (msg_cnt x + 1) true fuel) as [Hf Hp].
      pose proof (keeps_call_handler this _ _ _ _ Hf Hp this m
                    wD called wd HD Hcall) as HDd.
      apply bind_Ok in H as ([] & wF & Hpm & H).
      assert (dispatching this (msg_cnt x + 1) true wF) as HD3.
      { destruct called; [by apply ret_Ok in Hpm as [_ ->]|].
        exact (keeps_process_message this _ _ _ _ Hf Hp this m
                 wd tt wF HDd Hpm). }
      apply bind_Ok in H as (x' & ? & Hx' & H).
      apply get_actor_Ok in Hx' as [Hx' ->].
      by exists wF, x'. }
    rewrite Hxe in Hx'. injection Hx' as <-.
    apply bind_Ok in Hend as ([] & wG & Hun & Hend).
    apply ret_Ok in Hend as [-> ->].
    unfold unlock in Hun.
    apply update_actor_Ok in Hun as (xf & Hxf & ->).
    rewrite Hxe in Hxf. injection Hxf as <-.
    exists (with_fast_send_mutex false xe). simpl.
    split; [apply lookup_insert_eq|]. done.
  - intros fuel this m d w w' x Hx H.
    simpl in H. unfold process_message_internal_body in H.
    apply bind_Ok in H as (msg & ? & Hmsg & H).
    apply get_message_Ok in Hmsg as [Hmsg ->].
    apply call_scope_Ok in H as (wb & H & ->).
    apply bind_Ok in H as ([] & wl & Hl & H).
    apply lock_Ok in Hl as (x0 & Hx0 & Hmut & ->). simpl in Hx0.
    rewrite Hx in Hx0. injection Hx0 as <-.
    apply bind_Ok in H as ([] & ? & Hi & H).
    apply incr_msg_cnt_Ok in Hi as (xi & Hxi & _ & ->). simpl in Hxi.
    rewrite lookup_insert_eq in Hxi. injection Hxi as <-.
    apply bind_Ok in H as ([] & ? & Hu & H).
    apply update_actor_Ok in Hu as (xu & Hxu & ->). simpl in Hxu.
    rewrite lookup_insert_eq in Hxu. injection Hxu as <-.
    match type of H with _ ?w0 = Ok _ => set (wD := w0) in * end.
    assert (dispatching this (msg_cnt x + 1) false wD) as HD.
    { eexists. split; [subst wD; simpl; apply lookup_insert_eq|]. done. }
    destruct (keeps_fuel this (msg_cnt x + 1) false fuel) as [Hf Hp].
    apply bind_Ok in H as (called & wd & Hcall & H).
    pose proof (keeps_call_handler this _ _ _ _ Hf Hp this m
                  wD called wd HD Hcall) as HDd.
    apply bind_Ok in H as ([] & wF & Hpm & H).
    assert (dispatching this (msg_cnt x + 1) false wF) as HD3.
    { destruct called; [by apply ret_Ok in Hpm as [_ ->]|].
      exact (keeps_process_message this _ _ _ _ Hf Hp this m
               wd tt wF HDd Hpm). }
    apply bind_Ok in H as ([] & wG & Hdel & H).
    assert (dispatching this (msg_cnt x + 1) false wG ∧
            (d = false → messages wG !! m = None))
      as [(xe & Hxe & Hm3 & Hc3 & Hu3) Hfreed].
    { destruct d.
      - apply ret_Ok in Hdel as [_ ->]. done.
      - apply delete_message_Ok in Hdel as [_ ->]. split; [done|].
        intros _. simpl. apply lookup_delete_eq. }
    unfold unlock in H.
    apply update_actor_Ok in H as (xf & Hxf & ->).
    rewrite Hxe in Hxf. injection Hxf as <-.
    exists (with_fast_send_mutex false xe). simpl.
    split; [apply lookup_insert_eq|]. done.
Qed.

(** X7. Dispatch is not re-entrant.  Both fast_send and the asynchronous
    dispatch take the lock of the actor first, so on an actor whose lock
    is held (it is inside a dispatch) they deadlock, whoever the sender
    is; the assertion "fast send to itself" is only reached, and fails,
    when the lock is free. *)
Theorem dispatch_not_reentrant (fuel this m : nat) (w : World) (x : Actor)
    (msg : Message) :
  actors w !! this = Some x →
  messages w !! m = Some msg →
  (fast_send_mutex x = true →
   (∀ from, fast_send (S fuel) this m from w = Err Deadlock) ∧
   (∀ d, process_message_internal (S fuel) this m d w = Err Deadlock)) ∧
  (fast_send_mutex x = false →
   fast_send (S fuel) this m (Some this) w
   = Err (AssertionFailed "fast send to itself")).
Proof.
  intros Hx Hm. split.
  - intros Hmut. split.
    + intros from. simpl. unfold fast_send_body.
      rewrite (bind_eq _ _ _ msg w) by (by apply get_message_eq).
      apply call_scope_Err, bind_Err. by apply (lock_held this x).
    + intros d. simpl. unfold process_message_internal_body.
      rewrite (bind_eq _ _ _ msg w) by (by apply get_message_eq).
      apply call_scope_Err, bind_Err. by apply (lock_held this x).
  - intros Hmut. simpl. unfold fast_send_body.
    rewrite (bind_eq _ _ _ msg w) by (by apply get_message_eq).
    apply call_scope_Err.
    erewrite bind_eq by (by apply (lock_eq this x)).
    apply bind_Err. by rewrite bool_decide_false by (by intros []).
Qed.

(* ===================================================================== *)
(** * The contract of fast_send and reply *)
(* ===================================================================== *)

Lemma no_send_dispatch this m c evs msg from :
  c = CallProcessMessage this m ∨ (∃ f, c = CallHandler this f m) →
  forallb no_send evs = true →
  forallb no_send [Ev (CallFastSend this m (mtype msg) from) [Ev c evs]]
  = true.
Proof. intros [->|[f ->]] H; simpl; by rewrite H. Qed.


(* ===================================================================== *)
(** * What a Group does with the messages in its mailbox *)
(* ===================================================================== *)

Section GroupDispatch.
Hypothesis ids_unique :
  ∀ t1 t2, get_message_id t1 = get_message_id t2 → t1 = t2.
Variable frec : nat → nat → option nat → M (option nat).
Variable prec : nat → nat → bool → M unit.

(** A dispatch of a message class with a registered handler runs that
    handler, from the cache or from the table. *)
Lemma call_handler_registered this m w called w' x msg f :
  cache_sound_for (handlers x) x →
  actors w !! this = Some x →
  messages w !! m = Some msg →
  handlers x !! mtype msg = Some f →
  call_handler frec prec this m w = Ok (called, w') →
  called = true ∧
  ∃ wi, invoke frec prec this f m w = Ok (tt, wi) ∧
        trace w' = trace wi ∧ messages w' = messages wi.
Proof.
  intros (_ & Hc & Hd) Hx Hm Hf H. unfold call_handler in H.
  apply bind_Ok in H as (msg0 & ? & Hmsg & H).
  apply get_message_Ok in Hmsg as [Hmsg ->].
  rewrite Hm in Hmsg. injection Hmsg as <-.
  apply bind_Ok in H as (x0 & ? & Hx0 & H).
  apply get_actor_Ok in Hx0 as [Hx0 ->].
  rewrite Hx in Hx0. injection Hx0 as <-.
  apply bind_Ok in H as (f0 & ? & Hf0 & H).
  apply vector_at_Ok in Hf0 as (Hrange & Hf0 & ->).
  assert (Z.of_nat (Z.to_nat (get_message_id (mtype msg)))
          = get_message_id (mtype msg)) as Hnat by lia.
  destruct f0 as [g|].
  - destruct (Hc _ _ Hf0) as (t & Ht & Hg). rewrite Hnat in Ht.
    apply ids_unique in Ht as ->. rewrite Hf in Hg. injection Hg as <-.
    apply bind_Ok in H as ([] & wi & Hi & H). apply ret_Ok in H as [-> ->].
    split; [done|]. by exists wi.
  - apply bind_Ok in H as (dont & ? & Hdont & H).
    apply vector_at_Ok in Hdont as (_ & Hdont & ->).
    destruct dont.
    + destruct (Hd _ Hdont) as (t & Ht & Hg). rewrite Hnat in Ht.
      apply ids_unique in Ht as ->. congruence.
    + rewrite Hf in H.
      apply bind_Ok in H as ([] & wi & Hi & H).
      apply bind_Ok in H as (x' & ? & Hx' & H).
      apply get_actor_Ok in Hx' as [Hx' ->].
      apply bind_Ok in H as ([] & ? & Hr & H).
      apply vector_in_range_Ok in Hr as [_ ->].
      apply bind_Ok in H as ([] & ? & Hu & H).
      apply update_actor_Ok in Hu as (xu & _ & ->).
      apply ret_Ok in H as [-> ->].
      split; [done|]. by exists wi.
Qed.

(** A dispatch of a message class without a handler runs nothing and
    touches the negative flag of the actor at most. *)
Lemma call_handler_unregistered this m w called w' x msg :
  cache_sound_for (handlers x) x →
  actors w !! this = Some x →
  messages w !! m = Some msg →
  handlers x !! mtype msg = None →
  call_handler frec prec this m w = Ok (called, w') →
  called = false ∧ trace w' = trace w ∧ messages w' = messages w ∧
  ∃ x', actors w' = <[this := x']> (actors w) ∧
        cls x' = cls x ∧ fast_send_mutex x' = fast_send_mutex x.
Proof.
  intros (_ & Hc & Hd) Hx Hm Hf H. unfold call_handler in H.
  apply bind_Ok in H as (msg0 & ? & Hmsg & H).
  apply get_message_Ok in Hmsg as [Hmsg ->].
  rewrite Hm in Hmsg. injection Hmsg as <-.
  apply bind_Ok in H as (x0 & ? & Hx0 & H).
  apply get_actor_Ok in Hx0 as [Hx0 ->].
  rewrite Hx in Hx0. injection Hx0 as <-.
  apply bind_Ok in H as (f0 & ? & Hf0 & H).
  apply vector_at_Ok in Hf0 as (Hrange & Hf0 & ->).
  assert (Z.of_nat (Z.to_nat (get_message_id (mtype msg)))
          = get_message_id (mtype msg)) as Hnat by lia.
  destruct f0 as [g|].
  { destruct (Hc _ _ Hf0) as (t & Ht & Hg). rewrite Hnat in Ht.
    apply ids_unique in Ht as ->. congruence. }
  apply bind_Ok in H as (dont & ? & Hdont & H).
  apply vector_at_Ok in Hdont as (_ & Hdont & ->).
  destruct dont.
  - apply ret_Ok in H as [-> ->]. repeat (split; [done|]).
    exists x. by rewrite insert_id.
  - rewrite Hf in H.
    apply bind_Ok in H as ([] & ? & Hu & H).
    apply update_actor_Ok in Hu as (xu & Hxu & ->).
    rewrite Hx in Hxu. injection Hxu as <-.
    apply ret_Ok in H as [-> ->]. repeat (split; [done|]).
    by eexists.
Qed.

End GroupDispatch.

(** The actor as Actor::process_message_internal dispatches in it has the
    table and the caches it had before. *)
Lemma cache_sound_counted_async x :
  cache_sound_for (handlers x) x →
  cache_sound_for (handlers (counted_async x)) (counted_async x).
Proof. intros H. by apply (cache_sound_frame _ x). Qed.

(** The asynchronous dispatch up to the call of call_handler. *)
Lemma process_message_internal_enter fuel this m d w w' x :
  actors w !! this = Some x →
  process_message_internal (S fuel) this m d w = Ok (tt, w') →
  ∃ msg called wd wb,
    messages w !! m = Some msg ∧
    call_handler (fast_send fuel) (process_message_internal fuel) this m
      (mkWorld (<[this := counted_async x]> (actors w)) (messages w) [])
      = Ok (called, wd) ∧
    (if called : bool then ret tt
     else process_message (fast_send fuel) (process_message_internal fuel)
            this m) wd = Ok (tt, wb) ∧
    trace w' =
      trace w ++
      [Ev (CallProcessMessageInternal this m (mtype msg) d) (trace wb)] ∧
    (d = false → messages w' !! m = None).
Proof.
  intros Hx H. simpl in H. unfold process_message_internal_body in H.
  apply bind_Ok in H as (msg & ? & Hmsg & H).
  apply get_message_Ok in Hmsg as [Hmsg ->].
  apply call_scope_Ok in H as (we & H & ->).
  apply bind_Ok in H as ([] & wl & Hl & H).
  apply lock_Ok in Hl as (x0 & Hx0 & Hmut & ->). simpl in Hx0.
  rewrite Hx in Hx0. injection Hx0 as <-.
  apply bind_Ok in H as ([] & ? & Hi & H).
  apply incr_msg_cnt_Ok in Hi as (xi & Hxi & _ & ->). simpl in Hxi.
  rewrite lookup_insert_eq in Hxi. injection Hxi as <-.
  apply bind_Ok in H as ([] & ? & Hu & H).
  apply update_actor_Ok in Hu as (xu & Hxu & ->). simpl in Hxu.
  rewrite lookup_insert_eq in Hxu. injection Hxu as <-.
  apply bind_Ok in H as (called & wd & Hcall & H).
  apply bind_Ok in H as ([] & wb & Hpm & H).
  apply bind_Ok in H as ([] & wf & Hdel & H).
  unfold unlock in H. apply update_actor_Ok in H as (xf & _ & ->).
  exists msg, called, wd, wb. split; [done|]. split.
  { simpl in Hcall. rewrite !insert_insert_eq in Hcall. exact Hcall. }
  split; [done|].
  destruct d.
  - apply ret_Ok in Hdel as [_ ->]. simpl. done.
  - apply delete_message_Ok in Hdel as [_ ->]. simpl.
    split; [done|]. intros _. apply lookup_delete_eq.
Qed.


(** X9. Every other message in the mailbox of a Group is forwarded to
    the actor it is addressed to.  When the worker of a Group dispatches
    a message of a class the Group has no handler for, Group::forward
    runs the asynchronous dispatch of the destination actor (which is
    never the Group itself) on the thread of the Group, exactly once and
    with dontdel set; the message was not sent by fast_send, and it is
    freed by the Group when the member is done. *)
Theorem group_forwards_to_destination (fuel g m : nat) (w w' : World)
    (x : Actor) (gname : string) (members : list nat)
    (n2a : gmap string nat) (msg : Message) :
  (∀ t1 t2, get_message_id t1 = get_message_id t2 → t1 = t2) →
  actors w !! g = Some x →
  cls x = GroupClass gname members n2a →
  cache_sound_for (handlers x) x →
  handlers x !! mtype msg = None →
  messages w !! m = Some msg →
  process_message_internal (S fuel) g m false w = Ok (tt, w') →
  ∃ d inner,
    destination msg = Some d ∧ d ≠ g ∧ is_fast msg = false ∧
    trace w' =
      trace w ++
      [Ev (CallProcessMessageInternal g m (mtype msg) false)
         [Ev (CallProcessMessage g m)
            [Ev (CallProcessMessageInternal d m (mtype msg) true) inner]]] ∧
    messages w' !! m = None.
Proof.
  intros Hinj Hx Hcls Hsound Hnone Hm H.
  apply (process_message_internal_enter fuel g m false w w' x Hx) in H
    as (msg0 & called & wd & wb & Hm0 & Hcall & Hpm & Htr & Hfreed).
  rewrite Hm in Hm0. injection Hm0 as <-.
  set (w1 := mkWorld (<[g := counted_async x]> (actors w)) (messages w) [])
    in *.
  assert (actors w1 !! g = Some (counted_async x)) as Hx1
    by apply lookup_insert_eq.
  destruct (call_handler_unregistered Hinj _ _ g m w1 called wd
              (counted_async x) msg
              (cache_sound_counted_async x Hsound) Hx1 Hm Hnone Hcall)
    as (-> & Htrd & Hmsgs & x' & Hacts & Hcls' & Hmut').
  unfold process_message in Hpm.
  apply call_scope_Ok in Hpm as (wp & Hpm & ->).
  apply bind_Ok in Hpm as (xg & ? & Hxg & Hpm).
  apply get_actor_Ok in Hxg as [Hxg ->]. simpl in Hxg.
  rewrite Hacts, lookup_insert_eq in Hxg. injection Hxg as <-.
  simpl in Hcls'. rewrite Hcls', Hcls in Hpm.
  unfold forward in Hpm.
  apply bind_Ok in Hpm as (msg1 & ? & Hmsg1 & Hpm).
  apply get_message_Ok in Hmsg1 as [Hmsg1 ->]. simpl in Hmsg1.
  rewrite Hmsgs in Hmsg1. simpl in Hmsg1.
  rewrite Hm in Hmsg1. injection Hmsg1 as <-.
  apply bind_Ok in Hpm as ([] & ? & Ha & Hpm).
  apply assert_Ok in Ha as [Hfast ->].
  apply bind_Ok in Hpm as (d & ? & Hd & Hpm).
  apply deref_Ok in Hd as [Hd ->].
  apply bind_Ok in Hpm as ([] & wu & Hu & Hpm).
  apply update_actor_Ok in Hu as (y & Hy & ->). simpl in Hy.
  pose proof Hpm as Hinner.
  apply process_message_internal_trace in Hinner
    as (msg2 & inner & Hmsg2 & Htrp).
  simpl in Hmsg2. rewrite Hmsgs in Hmsg2. simpl in Hmsg2.
  rewrite Hm in Hmsg2. injection Hmsg2 as <-.
  exists d, inner. split; [done|]. split.
  { intros ->. rewrite Hacts, lookup_insert_eq in Hy. injection Hy as <-.
    destruct fuel as [|n]; [done|].
    simpl in Hpm. unfold process_message_internal_body in Hpm.
    apply bind_Ok in Hpm as (msg3 & ? & Hmsg3 & Hpm).
    apply get_message_Ok in Hmsg3 as [_ ->].
    apply call_scope_Ok in Hpm as (we & Hpm & _).
    apply bind_Ok in Hpm as ([] & wl & Hl & _).
    apply lock_Ok in Hl as (z & Hz & Hmz & _). simpl in Hz.
    rewrite lookup_insert_eq in Hz. injection Hz as <-.
    simpl in Hmz. simpl in Hmut'. congruence. }
  split; [by destruct (is_fast msg)|].
  split; [|by apply Hfreed].
  rewrite Htr. simpl. rewrite Htrp, Htrd. simpl. done.
Qed.

Lemma call_handler_unregistered_eq frec prec this m w x msg :
  (∀ t1 t2, get_message_id t1 = get_message_id t2 → t1 = t2) →
  cache_sound_for (handlers x) x →
  actors w !! this = Some x →
  messages w !! m = Some msg →
  handlers x !! mtype msg = None →
  0 ≤ get_message_id (mtype msg) < Z.of_nat (length (handler_cache x)) →
  get_message_id (mtype msg) < Z.of_nat (length (dont_have_handler x)) →
  ∃ x', call_handler frec prec this m w
        = Ok (false, with_actors (<[this := x']> (actors w)) w) ∧
        cls x' = cls x ∧ fast_send_mutex x' = fast_send_mutex x.
Proof.
  intros Hinj (_ & Hc & _) Hx Hm Hf Hr1 Hr2. unfold call_handler.
  rewrite (bind_eq _ _ _ msg w) by (by apply get_message_eq).
  rewrite (bind_eq _ _ _ x w) by (by apply get_actor_eq).
  set (id := get_message_id (mtype msg)) in *.
  assert (Z.of_nat (Z.to_nat id) = id) as Hnat by lia.
  destruct (lookup_lt_is_Some_2 (handler_cache x) (Z.to_nat id)) as [f0 Hf0];
    [lia|].
  destruct f0 as [g|].
  { destruct (Hc _ _ Hf0) as (t & Ht & Hg). rewrite Hnat in Ht.
    apply Hinj in Ht as ->. congruence. }
  rewrite (bind_eq _ _ _ None w) by (by apply vector_at_Ok).
  destruct (lookup_lt_is_Some_2 (dont_have_handler x) (Z.to_nat id))
    as [d0 Hd0]; [lia|].
  rewrite (bind_eq _ _ _ d0 w) by (apply vector_at_Ok; split; [lia|done]).
  destruct d0.
  - exists x. split; [|done]. rewrite insert_id by done. by destruct w.
  - rewrite Hf. erewrite bind_eq by (by apply update_actor_eq).
    by eexists.
Qed.

(** X10. Two ways of sending to a Group that end the process.  A message
    of a class without a handler that is addressed to the Group itself
    (group.send(m)) makes Group::forward dispatch to the Group while its
    lock is held: the worker of the Group deadlocks.  A fast_send of such
    a message to a Group fails the assertion "cannot fast send here",
    whatever its destination. *)
Theorem group_misdirected_messages (fuel g m : nat) (w : World) (x : Actor)
    (gname : string) (members : list nat) (n2a : gmap string nat)
    (msg : Message) :
  (∀ t1 t2, get_message_id t1 = get_message_id t2 → t1 = t2) →
  actors w !! g = Some x →
  cls x = GroupClass gname members n2a →
  cache_sound_for (handlers x) x →
  handlers x !! mtype msg = None →
  messages w !! m = Some msg →
  fast_send_mutex x = false →
  msg_cnt x < LLONG_MAX →
  0 ≤ get_message_id (mtype msg) < Z.of_nat (length (handler_cache x)) →
  get_message_id (mtype msg) < Z.of_nat (length (dont_have_handler x)) →
  (is_fast msg = false → destination msg = Some g →
   ∀ d, process_message_internal (S (S fuel)) g m d w = Err Deadlock) ∧
  (terminated x = false →
   ∀ from, from ≠ Some g →
     fast_send (S fuel) g m from w
     = Err (AssertionFailed "cannot fast send here")).
Proof.
  intros Hinj Hx Hcls Hsound Hnone Hm Hmut Hcnt Hr1 Hr2. split.
  - intros Hfast Hdest d.
    change (process_message_internal (S (S fuel)) g m d w)
      with (process_message_internal_body (fast_send (S fuel))
              (process_message_internal (S fuel)) g m d w).
    unfold process_message_internal_body.
    rewrite (bind_eq _ _ _ msg w) by (by apply get_message_eq).
    apply call_scope_Err.
    erewrite bind_eq by (by apply (lock_eq g x)).
    erewrite bind_eq
      by (apply incr_msg_cnt_eq; [simpl; apply lookup_insert_eq|done]).
    erewrite bind_eq by (apply update_actor_eq; simpl; apply lookup_insert_eq).
    match goal with |- _ ?w0 = _ => set (w1 := w0) end.
    assert (actors w1 !! g = Some (counted_async x)) as Hx1
      by (subst w1; simpl; apply lookup_insert_eq).
    assert (messages w1 !! m = Some msg) as Hm1 by (subst w1; exact Hm).
    destruct (call_handler_unregistered_eq (fast_send (S fuel))
                (process_message_internal (S fuel)) g m w1
                (counted_async x) msg Hinj
                (cache_sound_counted_async x Hsound) Hx1 Hm1 Hnone Hr1 Hr2)
      as (x' & Hcall & Hcls' & Hmut').
    rewrite (bind_eq _ _ _ _ _ Hcall).
    apply bind_Err. unfold process_message. apply call_scope_Err.
    erewrite bind_eq by (apply get_actor_eq; simpl; apply lookup_insert_eq).
    simpl in Hcls'. rewrite Hcls', Hcls. unfold forward.
    match goal with |- _ ?w0 = _ => set (w2 := w0) end.
    assert (messages w2 !! m = Some msg) as Hm2
      by (subst w2 w1; simpl; exact Hm).
    assert (actors w2 !! g = Some x') as Hx2
      by (subst w2; simpl; apply lookup_insert_eq).
    rewrite (bind_eq _ _ _ msg w2) by (by apply get_message_eq).
    rewrite Hfast. simpl.
    rewrite (bind_eq _ _ _ tt w2) by reflexivity.
    rewrite Hdest. simpl.
    rewrite (bind_eq _ _ _ g w2) by reflexivity.
    erewrite bind_eq by (by apply update_actor_eq).
    unfold process_message_internal_body.
    erewrite bind_eq by (apply get_message_eq; simpl; exact Hm2).
    apply call_scope_Err, bind_Err.
    eapply lock_held; [simpl; apply lookup_insert_eq|].
    simpl. by rewrite Hmut'.
  - intros Hterm from Hfrom. simpl. unfold fast_send_body.
    rewrite (bind_eq _ _ _ msg w) by (by apply get_message_eq).
    apply call_scope_Err.
    erewrite bind_eq by (by apply (lock_eq g x)).
    rewrite bool_decide_true by congruence. simpl.
    erewrite bind_eq by reflexivity.
    erewrite bind_eq by (by apply update_message_eq).
    erewrite bind_eq by (apply update_actor_eq; simpl; apply lookup_insert_eq).
    erewrite bind_eq
      by (apply incr_msg_cnt_eq; [simpl; apply lookup_insert_eq|done]).
    erewrite bind_eq by (apply get_actor_eq; simpl; apply lookup_insert_eq).
    simpl. rewrite Hterm.
    match goal with |- _ ?w0 = _ => set (w1 := w0) end.
    set (msg1 := mkMessage (mtype msg) (body msg) from (destination msg)
                   true true) in *.
    set (x1 := counted_fast_send (with_fast_send_mutex true x)).
    assert (cache_sound_for (handlers x1) x1) as Hsound1
      by (by apply (cache_sound_frame _ x)).
    assert (actors w1 !! g = Some x1) as Hx1
      by (subst w1; simpl; apply lookup_insert_eq).
    assert (messages w1 !! m = Some msg1) as Hm1
      by (subst w1; simpl; apply lookup_insert_eq).
    destruct (call_handler_unregistered_eq (fast_send fuel)
                (process_message_internal fuel) g m w1 x1 msg1 Hinj
                Hsound1 Hx1 Hm1 Hnone Hr1 Hr2)
      as (x' & Hcall & Hcls' & Hmut').
    rewrite (bind_eq _ _ _ _ _ Hcall).
    apply bind_Err. unfold process_message. apply call_scope_Err.
    erewrite bind_eq by (apply get_actor_eq; simpl; apply lookup_insert_eq).
    simpl in Hcls'. rewrite Hcls', Hcls. unfold forward.
    match goal with |- _ ?w0 = _ => set (w2 := w0) end.
    rewrite (bind_eq _ _ _ msg1 w2)
      by (apply get_message_eq; subst w2 w1; simpl; apply lookup_insert_eq).
    by apply bind_Err.
Qed.

(* ===================================================================== *)
(** * Manager::manage *)
(* ===================================================================== *)

Lemma bad_core_id (affinity_ : list Z) :
  Exists (λ c, c < 0 ∨ nprocs env ≤ c) affinity_ →
  forallb (λ c, negb ((c <? 0) || (nprocs env <=? c))) affinity_ = false.
Proof.
  induction 1 as [c l Hc|c l _ IH]; simpl.
  - destruct Hc as [Hc|Hc].
    + apply Z.ltb_lt in Hc. by rewrite Hc.
    + apply Z.leb_le in Hc. rewrite Hc. by rewrite orb_true_r.
  - rewrite IH. apply andb_false_r.
Qed.

(** X11. What Manager::manage refuses.  Each of these ends in a failed
    assertion: an actor that is already managed, or whose name is already
    managed; an actor whose name belongs to a member of a Group that is
    managed; a core id that is negative or not below the number of
    processors; a Group to which no actor was added. *)
Theorem manage_refuses (this actor : nat) (affinity_ : list Z)
    (priority_ priority_type_ : Z) (w : World) (x a : Actor)
    (al tl : list nat) (mn en : gmap string nat) :
  actors w !! this = Some x →
  cls x = ManagerClass al tl mn en →
  actors w !! actor = Some a →
  (is_managed a = true ∨ is_Some (mn !! get_name a) →
   Manager_manage this actor affinity_ priority_ priority_type_ w
   = Err (AssertionFailed "actor with this name already managed")) ∧
  (is_managed a = false → mn !! get_name a = None →
   is_Some (en !! get_name a) →
   Manager_manage this actor affinity_ priority_ priority_type_ w
   = Err (AssertionFailed
            "actor cannot be managed because it's part of a group that was already managed")) ∧
  (is_managed a = false → mn !! get_name a = None →
   en !! get_name a = None →
   Exists (λ c, c < 0 ∨ nprocs env ≤ c) affinity_ →
   Manager_manage this actor affinity_ priority_ priority_type_ w
   = Err (AssertionFailed "core id out of range")) ∧
  (is_managed a = false → mn !! get_name a = None →
   en !! get_name a = None →
   Forall (λ c, 0 ≤ c < nprocs env) affinity_ →
   (∃ gname, cls a = GroupClass gname [] ∅) →
   Manager_manage this actor affinity_ priority_ priority_type_ w
   = Err (AssertionFailed "add actors to group before managing group")).
Proof.
  intros Hx Hcls Ha.
  unfold Manager_manage.
  rewrite (bind_eq _ _ _ x w) by (by apply get_actor_eq). rewrite Hcls.
  rewrite (bind_eq _ _ _ a w) by (by apply get_actor_eq).
  split; [|split; [|split]].
  - intros Hm. apply bind_Err.
    destruct Hm as [->|Hm]; [done|].
    rewrite (bool_decide_true _ Hm). by rewrite orb_true_r.
  - intros Hm Hn He.
    rewrite Hm, bool_decide_false by (rewrite Hn; by intros [? ?]).
    simpl. rewrite (bind_eq _ _ _ tt w) by reflexivity.
    apply bind_Err. rewrite bool_decide_false; [done|].
    destruct He as [? He]. by rewrite He.
  - intros Hm Hn He Hbad.
    rewrite Hm, bool_decide_false by (rewrite Hn; by intros [? ?]).
    simpl. rewrite (bind_eq _ _ _ tt w) by reflexivity.
    rewrite bool_decide_true by done. simpl.
    rewrite (bind_eq _ _ _ tt w) by reflexivity.
    apply bind_Err. by rewrite bad_core_id.
  - intros Hm Hn He Hgood [gname Hg].
    rewrite Hm, bool_decide_false by (rewrite Hn; by intros [? ?]).
    simpl. rewrite (bind_eq _ _ _ tt w) by reflexivity.
    rewrite bool_decide_true by done. simpl.
    rewrite (bind_eq _ _ _ tt w) by reflexivity.
    assert (forallb (λ c, negb ((c <? 0) || (nprocs env <=? c))) affinity_
            = true) as ->.
    { apply forallb_forall. intros c Hc%list_elem_of_In.
      rewrite Forall_forall in Hgood. specialize (Hgood c Hc). lia. }
    simpl. rewrite (bind_eq _ _ _ tt w) by reflexivity.
    erewrite bind_eq by (by apply update_actor_eq).
    rewrite Hg. simpl.
    erewrite bind_eq by reflexivity.
    apply bind_Err. apply bind_Err. by rewrite bool_decide_true.
Qed.

(** The members of a Group, and the names it keeps them under. *)
Definition group_members (x : Actor) : list actor_ptr :=
  match cls x with GroupClass _ members _ => members | _ => [] end.

Definition group_names (x : Actor) : gmap string actor_ptr :=
  match cls x with GroupClass _ _ name_to_actor => name_to_actor | _ => ∅ end.

(** Every actor of [al], and every member of a Group of [al], is alive
    and has its name in the map [en]. *)
Definition names_covered (w : World) (en : gmap string actor_ptr)
    (al : list actor_ptr) : Prop :=
  ∀ a, a ∈ al →
    ∃ x, actors w !! a = Some x ∧ is_Some (en !! get_name x) ∧
         ∀ b, b ∈ group_members x →
           ∃ y, actors w !! b = Some y ∧ is_Some (en !! get_name y).

(** Classes that agree, up to the lists a Manager keeps. *)
Definition same_kind (c c' : actor_class) : Prop :=
  match c with
  | ManagerClass _ _ _ _ =>
      match c' with ManagerClass _ _ _ _ => True | _ => False end
  | _ => c' = c
  end.

Lemma same_kind_refl c : same_kind c c.
Proof. by destruct c. Qed.

Lemma same_kind_trans c1 c2 c3 :
  same_kind c1 c2 → same_kind c2 c3 → same_kind c1 c3.
Proof.
  destruct c1; simpl; try (by intros -> ->).
  destruct c2; try done.
Qed.

(** The actors of [w] are in [w'] with the names and members they had. *)
Definition same_names (w w' : World) : Prop :=
  ∀ b y, actors w !! b = Some y →
    ∃ y', actors w' !! b = Some y' ∧ name y' = name y ∧
          same_kind (cls y) (cls y').

Lemma same_kind_names y y' :
  name y' = name y → same_kind (cls y) (cls y') →
  get_name y' = get_name y ∧ group_members y' = group_members y.
Proof.
  unfold get_name, group_members, same_kind. intros Hn Hk.
  destruct (cls y); try (by rewrite Hk).
  by destruct (cls y').
Qed.

Lemma same_names_refl w : same_names w w.
Proof. intros b y Hb. exists y. by split; [|split; [|apply same_kind_refl]]. Qed.

Lemma same_names_trans w1 w2 w3 :
  same_names w1 w2 → same_names w2 w3 → same_names w1 w3.
Proof.
  intros H12 H23 b y Hb.
  destruct (H12 b y Hb) as (y2 & Hb2 & Hn2 & Hg2).
  destruct (H23 b y2 Hb2) as (y3 & Hb3 & Hn3 & Hg3).
  exists y3. split; [done|]. split; [congruence|].
  by apply (same_kind_trans _ (cls y2)).
Qed.

Lemma update_actor_same_names a f w w' :
  (∀ y, actors w !! a = Some y →
        name (f y) = name y ∧ same_kind (cls y) (cls (f y))) →
  update_actor a f w = Ok (tt, w') → same_names w w'.
Proof.
  intros Hf H. apply update_actor_Ok in H as (x & Hx & ->).
  intros b y Hb. simpl.
  destruct (decide (a = b)) as [->|Hne].
  - rewrite lookup_insert_eq. rewrite Hx in Hb. injection Hb as <-.
    destruct (Hf x Hx). eauto.
  - rewrite lookup_insert_ne by done.
    exists y. by split; [|split; [|apply same_kind_refl]].
Qed.

Lemma for_each_update_same_names (l : list nat) (f : Actor → Actor) :
  (∀ y, name (f y) = name y ∧ same_kind (cls y) (cls (f y))) →
  ∀ w w', for_each l (λ b, update_actor b f) w = Ok (tt, w') →
          same_names w w'.
Proof.
  intros Hf. induction l as [|b l IH]; intros w w' H; simpl in H.
  - apply ret_Ok in H as [_ ->]. apply same_names_refl.
  - apply bind_Ok in H as ([] & w1 & H1 & H2).
    eapply same_names_trans; [|by apply IH].
    apply (update_actor_same_names b f); [|done]. intros y _. apply Hf.
Qed.

Lemma find_member_none name w ms :
  (∀ b, b ∈ ms → ∃ y, actors w !! b = Some y ∧ get_name y ≠ name) →
  find_member ms name w = Ok (None, w).
Proof.
  induction ms as [|b ms IH]; intros H; simpl; [done|].
  destruct (H b) as (y & Hy & Hn); [by left|].
  rewrite (bind_eq _ _ _ y w) by (by apply get_actor_eq).
  rewrite bool_decide_false by done.
  apply IH. intros c Hc. apply H. by right.
Qed.

Lemma find_actor_skip name w al rest :
  (∀ a, a ∈ al →
     ∃ x, actors w !! a = Some x ∧ get_name x ≠ name ∧
          ∀ b, b ∈ group_members x →
            ∃ y, actors w !! b = Some y ∧ get_name y ≠ name) →
  find_actor (al ++ rest) name w = find_actor rest name w.
Proof.
  induction al as [|a al IH]; intros H; simpl; [done|].
  destruct (H a) as (x & Hx & Hn & Hms); [by left|].
  rewrite (bind_eq _ _ _ x w) by (by apply get_actor_eq).
  rewrite bool_decide_false by done.
  assert (find_actor (al ++ rest) name w = find_actor rest name w) as IH'.
  { apply IH. intros c Hc. apply H. by right. }
  unfold group_members in Hms.
  destruct (cls x); try done.
  by rewrite (bind_eq _ _ _ None w) by (by apply find_member_none).
Qed.

(** Manager::manage, when it returns. *)
Lemma Manager_manage_Ok this actor affinity_ priority_ priority_type_
    w w' x a al tl mn en :
  actors w !! this = Some x →
  cls x = ManagerClass al tl mn en →
  actors w !! actor = Some a →
  Manager_manage this actor affinity_ priority_ priority_type_ w
  = Ok (tt, w') →
  en !! get_name a = None ∧
  group_names a !! get_name a = None ∧
  same_names w w' ∧
  ∃ x', actors w' !! this = Some x' ∧
        cls x' = ManagerClass (al ++ [actor]) tl (<[get_name a := actor]> mn)
                   (group_names a ∪ <[get_name a := actor]> en).
Proof.
  intros Hx Hcls Ha H. unfold Manager_manage in H.
  rewrite (bind_eq _ _ _ x w) in H by (by apply get_actor_eq).
  rewrite Hcls in H.
  rewrite (bind_eq _ _ _ a w) in H by (by apply get_actor_eq).
  apply bind_Ok in H as ([] & ? & H1 & H). apply assert_Ok in H1 as [_ ->].
  apply bind_Ok in H as ([] & ? & H2 & H). apply assert_Ok in H2 as [He ->].
  apply bool_decide_eq_true in He.
  apply bind_Ok in H as ([] & ? & H3 & H). apply assert_Ok in H3 as [_ ->].
  apply bind_Ok in H as ([] & w1 & Hu1 & H).
  apply bind_Ok in H as ([] & w2 & Hu2 & H).
  apply bind_Ok in H as (en2 & w3 & Hen & H).
  apply bind_Ok in H as ([] & w4 & Hu4 & H).
  assert (same_names w w1) as S1.
  { apply (update_actor_same_names actor _ _ _ ) in Hu1; [done|].
    intros y _. simpl. split; [done|apply same_kind_refl]. }
  assert (same_names w1 w2) as S2.
  { destruct (cls a); try (apply ret_Ok in Hu2 as [_ ->]; apply same_names_refl).
    apply for_each_update_same_names in Hu2; [done|].
    intros y. simpl. split; [done|apply same_kind_refl]. }
  assert (w3 = w2 ∧ en2 = group_names a ∪ <[get_name a := actor]> en ∧
          group_names a !! get_name a = None) as (-> & -> & Hgn).
  { unfold group_names. destruct (cls a) eqn:Hca.
    1,3,4,5: apply ret_Ok in Hen as [-> ->]; split; [done|];
      split; [by rewrite (left_id_L ∅ (∪))|done].
    apply bind_Ok in Hen as ([] & ? & Hne & Hen).
    apply assert_Ok in Hne as [_ ->].
    apply bind_Ok in Hen as ([] & ? & Hall & Hen).
    apply assert_Ok in Hall as [Hall ->]. apply bool_decide_eq_true in Hall.
    apply ret_Ok in Hen as [-> ->]. split; [done|]. split; [done|].
    destruct (name_to_actor !! get_name a) as [b|] eqn:Hb; [|done].
    specialize (Hall _ _ Hb). simpl in Hall.
    by rewrite lookup_insert_eq in Hall. }
  destruct (S1 this x Hx) as (xa & Hxa & Hna & Hka).
  destruct (S2 this xa Hxa) as (xb & Hxb & Hnb & Hkb).
  assert (∃ a1 a2 a3 a4, cls xb = ManagerClass a1 a2 a3 a4)
    as (a1 & a2 & a3 & a4 & Hclsb).
  { pose proof (same_kind_trans _ _ _ Hka Hkb) as Hk. rewrite Hcls in Hk.
    simpl in Hk. destruct (cls xb); try done. eauto. }
  assert (same_names w2 w4) as S3.
  { apply (update_actor_same_names this _ _ _) in Hu4; [done|].
    intros y Hy. rewrite Hxb in Hy. injection Hy as <-.
    simpl. split; [done|]. by rewrite Hclsb. }
  assert (same_names w4 w') as S4.
  { apply (update_actor_same_names actor _ _ _) in H; [done|].
    intros y _. simpl. split; [done|apply same_kind_refl]. }
  split; [done|]. split; [done|]. split.
  { eapply same_names_trans; [exact S1|].
    eapply same_names_trans; [exact S2|].
    eapply same_names_trans; [exact S3|exact S4]. }
  apply update_actor_Ok in Hu4 as (xc & Hxc & ->).
  apply update_actor_Ok in H as (xd & Hxd & ->). simpl in *.
  destruct (decide (actor = this)) as [->|Hne].
  - rewrite lookup_insert_eq in *. injection Hxd as <-.
    eexists. split; [reflexivity|]. done.
  - rewrite lookup_insert_ne by done. rewrite lookup_insert_eq.
    eexists. split; [reflexivity|]. done.
Qed.

(** X12. An actor that Manager::manage accepted is found by its name.
    Provided the names of all actors managed so far, and of the members
    of managed Groups, are in expanded_name_map (which holds for a new
    Manager and is kept by every manage), and a Group that is managed
    keeps every member under its name: after manage(actor) returns,
    get_actor_by_name(actor->get_name()) is that actor,
    get_name_map() maps the name to it, and the names are still covered. *)
Theorem manage_then_lookup (this actor : nat) (affinity_ : list Z)
    (priority_ priority_type_ : Z) (w w' : World) (x a : Actor)
    (al tl : list nat) (mn en : gmap string nat) :
  actors w !! this = Some x →
  cls x = ManagerClass al tl mn en →
  names_covered w en al →
  actors w !! actor = Some a →
  (∀ b, b ∈ group_members a →
     ∃ y, actors w !! b = Some y ∧ is_Some (group_names a !! get_name y)) →
  Manager_manage this actor affinity_ priority_ priority_type_ w
  = Ok (tt, w') →
  get_actor_by_name this (get_name a) w' = Ok (Some actor, w') ∧
  ∃ en', get_name_map this w' = Ok (en', w') ∧
         en' !! get_name a = Some actor ∧
         names_covered w' en' (al ++ [actor]).
Proof.
  intros Hx Hcls Hcov Ha Hgroup H.
  destruct (Manager_manage_Ok _ _ _ _ _ _ _ _ _ _ _ _ _ Hx Hcls Ha H)
    as (Hen & Hgn & S & x' & Hx' & Hcls').
  set (en' := group_names a ∪ <[get_name a := actor]> en) in *.
  assert (∀ n, is_Some (en !! n) → is_Some (en' !! n) ∧ n ≠ get_name a)
    as Hold.
  { intros n Hn. split.
    - apply lookup_union_is_Some. right. apply lookup_insert_is_Some'. by right.
    - intros ->. rewrite Hen in Hn. by destruct Hn. }
  assert (∀ b y, actors w !! b = Some y →
            ∃ y', actors w' !! b = Some y' ∧ get_name y' = get_name y ∧
                  group_members y' = group_members y) as S'.
  { intros b y Hb. destruct (S b y Hb) as (y' & Hb' & Hn & Hk).
    exists y'. split; [done|]. by apply same_kind_names. }
  assert (∀ a0, a0 ∈ al →
            ∃ x0, actors w' !! a0 = Some x0 ∧
                  (is_Some (en' !! get_name x0) ∧ get_name x0 ≠ get_name a) ∧
                  ∀ b, b ∈ group_members x0 →
                    ∃ y, actors w' !! b = Some y ∧
                         (is_Some (en' !! get_name y) ∧
                          get_name y ≠ get_name a)) as Hal.
  { intros a0 Ha0. destruct (Hcov a0 Ha0) as (x0 & Hx0 & Hn0 & Hms).
    destruct (S' a0 x0 Hx0) as (x0' & Hx0' & Hn0' & Hg0').
    exists x0'. split; [done|]. rewrite Hn0', Hg0'. split; [by apply Hold|].
    intros b Hb. destruct (Hms b Hb) as (y & Hy & Hny).
    destruct (S' b y Hy) as (y' & Hy' & Hny' & _).
    exists y'. split; [done|]. rewrite Hny'. by apply Hold. }
  destruct (S' actor a Ha) as (a' & Ha' & Hna' & Hga').
  split.
  - unfold get_actor_by_name.
    rewrite (bind_eq _ _ _ x' w') by (by apply get_actor_eq).
    rewrite Hcls'. rewrite find_actor_skip.
    + simpl. rewrite (bind_eq _ _ _ a' w') by (by apply get_actor_eq).
      by rewrite bool_decide_true.
    + intros a0 Ha0. destruct (Hal a0 Ha0) as (x0 & Hx0 & [_ Hn0] & Hms).
      exists x0. split; [done|]. split; [done|].
      intros b Hb. destruct (Hms b Hb) as (y & Hy & _ & Hny). eauto.
  - exists en'. split.
    { unfold get_name_map.
      rewrite (bind_eq _ _ _ x' w') by (by apply get_actor_eq).
      by rewrite Hcls'. }
    split.
    { unfold en'. rewrite lookup_union_r by done. apply lookup_insert_eq. }
    intros a0 [Ha0| ->%list_elem_of_singleton]%elem_of_app.
    + destruct (Hal a0 Ha0) as (x0 & Hx0 & [Hn0 _] & Hms).
      exists x0. split; [done|]. split; [done|].
      intros b Hb. destruct (Hms b Hb) as (y & Hy & Hny & _). eauto.
    + exists a'. split; [done|]. rewrite Hna', Hga'. split.
      * apply lookup_union_is_Some. right. rewrite lookup_insert_eq. eauto.
      * intros b Hb. destruct (Hgroup b Hb) as (y & Hy & Hny).
        destruct (S' b y Hy) as (y' & Hy' & Hny' & _).
        exists y'. split; [done|]. rewrite Hny'.
        apply lookup_union_is_Some. by left.
Qed.

(* ===================================================================== *)
(** * Manager::init *)
(* ===================================================================== *)

(** The calls to the operating system in a trace. *)
Definition is_os_call (c : call) : bool :=
  match c with
  | OsThread _ | OsSetAffinity _ _ | OsSetSchedParam _ _ _ | OsJoin _
  | OsPerror _ => true
  | _ => false
  end.

(** The actor a new std::thread runs. *)
Definition thread_of (e : event) : option nat :=
  match ev_call e with OsThread a => Some a | _ => None end.

(** [c] adds only calls to the operating system to the trace, and starts
    the threads [ts]. *)
Definition os_only {A} (ts : list nat) (c : M A) : Prop :=
  ∀ w r w', c w = Ok (r, w') →
    ∃ evs, trace w' = trace w ++ evs ∧
           Forall (λ e, is_os_call (ev_call e) = true) evs ∧
           omap thread_of evs = ts.

Lemma os_only_silent {A} (c : M A) :
  (∀ w r w', c w = Ok (r, w') → trace w' = trace w) → os_only [] c.
Proof.
  intros Hc w r w' H. exists []. rewrite app_nil_r. split; [eauto|done].
Qed.

Lemma os_only_bind {A B} ts1 ts2 (c : M A) (k : A → M B) :
  os_only ts1 c → (∀ x, os_only ts2 (k x)) → os_only (ts1 ++ ts2) (bind c k).
Proof.
  intros Hc Hk w r w' H. apply bind_Ok in H as (x & w1 & H1 & H2).
  destruct (Hc _ _ _ H1) as (e1 & Ht1 & Hf1 & Ho1).
  destruct (Hk x _ _ _ H2) as (e2 & Ht2 & Hf2 & Ho2).
  exists (e1 ++ e2). rewrite Ht2, Ht1, <- app_assoc. split; [done|].
  split; [by apply Forall_app|]. by rewrite omap_app, Ho1, Ho2.
Qed.

Lemma os_only_emit c :
  is_os_call c = true →
  os_only (match c with OsThread a => [a] | _ => [] end) (emit c).
Proof.
  intros Hc w r w' H. unfold emit in H.
  apply call_scope_Ok in H as (w1 & H & ->). apply ret_Ok in H as [_ ->].
  exists [Ev c []]. simpl. split; [done|]. split; [by repeat constructor|].
  unfold thread_of. simpl. by destruct c.
Qed.

Lemma os_only_ret {A} (x : A) : os_only [] (ret x).
Proof. apply os_only_silent. intros w r w' H. by apply ret_Ok in H as [_ ->]. Qed.

Lemma os_only_update_actor a f : os_only [] (update_actor a f).
Proof.
  apply os_only_silent. intros w r w' H.
  by apply update_actor_Ok in H as (? & _ & ->).
Qed.

Lemma os_only_get_actor a : os_only [] (get_actor a).
Proof.
  apply os_only_silent. intros w r w' H.
  by apply get_actor_Ok in H as [_ ->].
Qed.

Lemma os_only_set_thread_affinity core_ids thread :
  os_only [] (set_thread_affinity core_ids thread).
Proof.
  unfold set_thread_affinity.
  destruct (bool_decide (core_ids = [])); [apply os_only_ret|].
  destruct (find _ core_ids).
  - apply (os_only_bind [] []); [by apply (os_only_emit (OsPerror _))|].
    intros _. apply os_only_ret.
  - apply (os_only_bind [] []); [by apply (os_only_emit (OsSetAffinity _ _))|].
    intros _. apply os_only_ret.
Qed.

(** One turn of the second loop of Manager::init. *)
Lemma spawn_one this actor :
  os_only ([actor] ++ []) (
    emit (OsThread actor) >>
    update_actor this (λ x,
      match cls x with
      | ManagerClass al tl mn en =>
          with_cls (ManagerClass al (tl ++ [actor]) mn en) x
      | _ => x
      end) >>
    let* a := get_actor actor in
    (if bool_decide (affinity a ≠ []) then
       let* rc := set_thread_affinity (affinity a) actor in
       if bool_decide (rc ≠ 0)
       then emit (OsPerror "could not assign affinity")
       else ret tt
     else ret tt) >>
    if 0 <? priority a then
      emit (OsSetSchedParam actor SCHED_FIFO (priority a)) >>
      if bool_decide (pthread_setschedparam env actor SCHED_FIFO (priority a) ≠ 0)
      then emit (OsPerror "sched_setscheduler")
      else ret tt
    else ret tt).
Proof.
  apply os_only_bind; [by apply (os_only_emit (OsThread actor))|].
  intros _. apply (os_only_bind [] []); [apply os_only_update_actor|].
  intros _. apply (os_only_bind [] []); [apply os_only_get_actor|].
  intros a. apply (os_only_bind [] []).
  - destruct (bool_decide (affinity a ≠ [])); [|apply os_only_ret].
    apply (os_only_bind [] []); [apply os_only_set_thread_affinity|].
    intros rc. destruct (bool_decide (rc ≠ 0)); [|apply os_only_ret].
    by apply (os_only_emit (OsPerror _)).
  - intros _. destruct (0 <? priority a); [|apply os_only_ret].
    apply (os_only_bind [] []);
      [by apply (os_only_emit (OsSetSchedParam _ _ _))|].
    intros _. destruct (bool_decide _); [|apply os_only_ret].
    by apply (os_only_emit (OsPerror _)).
Qed.

(** The second loop of Manager::init. *)
Lemma spawn_loop this (al : list nat) : ∀ w w',
  for_each al (λ actor,
    emit (OsThread actor) >>
    update_actor this (λ x,
      match cls x with
      | ManagerClass al tl mn en =>
          with_cls (ManagerClass al (tl ++ [actor]) mn en) x
      | _ => x
      end) >>
    let* a := get_actor actor in
    (if bool_decide (affinity a ≠ []) then
       let* rc := set_thread_affinity (affinity a) actor in
       if bool_decide (rc ≠ 0)
       then emit (OsPerror "could not assign affinity")
       else ret tt
     else ret tt) >>
    if 0 <? priority a then
      emit (OsSetSchedParam actor SCHED_FIFO (priority a)) >>
      if bool_decide (pthread_setschedparam env actor SCHED_FIFO (priority a) ≠ 0)
      then emit (OsPerror "sched_setscheduler")
      else ret tt
    else ret tt) w = Ok (tt, w') →
  ∃ evs, trace w' = trace w ++ evs ∧
         Forall (λ e, is_os_call (ev_call e) = true) evs ∧
         omap thread_of evs = al.
Proof.
  induction al as [|actor al IH]; intros w w' H; simpl in H.
  - apply ret_Ok in H as [_ ->]. exists []. by rewrite app_nil_r.
  - apply bind_Ok in H as ([] & w1 & H1 & H2).
    apply IH in H2 as (e2 & Ht2 & Hf2 & Ho2).
    destruct (spawn_one this actor w tt w1 H1) as (e1 & Ht1 & Hf1 & Ho1).
    exists (e1 ++ e2). rewrite Ht2, Ht1, <- app_assoc. split; [done|].
    split; [by apply Forall_app|]. by rewrite omap_app, Ho1, Ho2.
Qed.

(** The first loop of Manager::init. *)
Lemma start_loop fuel (al : list nat) : ∀ w w',
  for_each al (λ actor,
    let* initmsg := new_message (Message_new Start JNull) in
    let* r := fast_send fuel actor initmsg None in
    drop_unique_ptr r) w = Ok (tt, w') →
  ∃ evs, trace w' = trace w ++ evs ∧
         map lifecycle_of evs = map (λ a, LFastSend a Start None) al.
Proof.
  induction al as [|actor al IH]; intros w w' H; simpl in H.
  - apply ret_Ok in H as [_ ->]. exists []. by rewrite app_nil_r.
  - apply bind_Ok in H as ([] & w1 & H1 & H2).
    apply IH in H2 as (e2 & Ht2 & Hl2).
    apply bind_Ok in H1 as (p & wn & Hp & H1).
    apply new_message_Ok in Hp as [-> ->].
    apply bind_Ok in H1 as (r & wf & Hf & H1).
    apply drop_unique_ptr_trace in H1.
    apply fast_send_trace in Hf as (msg & inner & Hmsg & Htr).
    simpl in Hmsg. rewrite lookup_insert_eq in Hmsg. injection Hmsg as <-.
    simpl in Htr.
    eexists (_ :: e2). rewrite Ht2, H1, Htr, <- app_assoc. split; [done|].
    simpl. by rewrite Hl2.
Qed.


(* ===================================================================== *)
(** * From ZmqSender::send_to to the delivery by the ZmqReceiver *)
(* ===================================================================== *)

(** The name and endpoint send_to records for the sender of a message. *)
Definition sender_of (w : World) (local_endpoint : string)
    (from : option actor_ptr) : option (string * string) :=
  match from with
  | Some s =>
      match actors w !! s with
      | Some y => Some (get_name y, local_endpoint)
      | None => None
      end
  | None => Some ("", "")
  end.

(** ZmqSender::send_to for a registered message class, as an equation:
    the message is freed and a RemoteSendRequest is pushed on the mailbox
    of the ZmqSender. *)
Lemma send_to_eq zs endpoint actor_name m from w z lep msg e sn se :
  actors w !! zs = Some z →
  cls z = ZmqSenderClass lep →
  terminated z = false →
  is_part_of_group z = false →
  messages w !! m = Some msg →
  id_to_entry_ (registry env) !! get_message_id (mtype msg) = Some e →
  type_name e ≠ "" →
  sender_of w lep from = Some (sn, se) →
  send_to zs endpoint actor_name m from w =
  Ok (tt,
      let p := fresh (dom (delete m (messages w))) in
      mkWorld
        (<[zs := with_msgq (BQueue.push p (msgq z)) z]> (actors w))
        (<[p := stamped_by_send zs None
                  (RemoteSendRequest_new endpoint actor_name sn se
                     (type_name e) (serialize e msg))]>
           (delete m (messages w)))
        (trace w ++
         [Ev (CallSendTo zs endpoint actor_name msg from)
            [Ev (CallSend zs p None) []]])).
Proof.
  intros Hz Hcls Hterm Hgrp Hm He Hname Hfrom. unfold send_to.
  rewrite (bind_eq _ _ _ msg w) by (by apply get_message_eq).
  set (p := fresh (dom (delete m (messages w)))).
  set (req := RemoteSendRequest_new endpoint actor_name sn se (type_name e)
                (serialize e msg)).
  rewrite (call_scope_eq _ _ tt w
    (mkWorld (<[zs := with_msgq (BQueue.push p (msgq z)) z]> (actors w))
             (<[p := stamped_by_send zs None req]> (delete m (messages w)))
             [Ev (CallSend zs p None) []])); [reflexivity|].
  unfold get_type_name. rewrite He.
  rewrite bool_decide_false by done.
  unfold MessageRegistry_serialize. rewrite He.
  rewrite (bind_eq _ _ _ (serialize e msg) (with_trace [] w)) by reflexivity.
  set (w1 := with_messages (delete m (messages w)) (with_trace [] w)).
  rewrite (bind_eq _ _ _ tt w1)
    by (unfold delete_message; simpl; by rewrite Hm).
  rewrite (bind_eq _ _ _ z w1) by (by apply get_actor_eq).
  rewrite Hcls.
  assert ((match from with
           | Some s => let* a := get_actor s in ret (get_name a)
           | None => ret ""
           end) w1 = Ok (sn, w1) ∧
          match from with Some _ => lep | None => "" end = se) as [Hsn ->].
  { unfold sender_of in Hfrom. destruct from as [s|].
    - destruct (actors w !! s) as [y|] eqn:Hy; [|done].
      injection Hfrom as <- <-. split; [|done].
      by rewrite (bind_eq _ _ _ y w1) by (by apply get_actor_eq).
    - by injection Hfrom as <- <-. }
  rewrite (bind_eq _ _ _ sn w1) by done.
  set (w2 := with_messages (<[p := req]> (messages w1)) w1).
  rewrite (bind_eq _ _ _ p w2) by reflexivity.
  rewrite (send_eq zs p None w2 z req zs z); try done.
  - subst w2 w1. simpl. by rewrite insert_insert_eq.
  - subst w2. simpl. apply lookup_insert_eq.
  - unfold mailbox_owner. by rewrite Hgrp.
Qed.

(** The sender an envelope names: none when the recorded name is empty. *)
Definition frame_sender (sn se : string) : option (string * string) :=
  if bool_decide (sn = "") then None else Some (sn, se).

Lemma request_of_new endpoint actor_name sn se tn mj this from :
  request_of (stamped_by_send this from
                (RemoteSendRequest_new endpoint actor_name sn se tn mj)) =
  Some (endpoint, actor_name, sn, se, tn, mj).
Proof. reflexivity. Qed.

Lemma envelope_of_parsed sn se an tn mj :
  ∃ fields,
    envelope_of sn se an tn mj = JObject fields ∧
    parsed_envelope fields (frame_sender sn se) an tn mj.
Proof.
  unfold envelope_of, frame_sender. eexists. split; [reflexivity|].
  unfold parsed_envelope. destruct (bool_decide (sn = "")); by split_and!.
Qed.

(** X14. A message on its way to a remote actor.  send_to on a ZmqSender
    that is not terminated, for a message whose class is registered for
    serialization, frees the message and leaves one RemoteSendRequest at
    the back of the mailbox of the ZmqSender.  on_send_request puts for
    that request one envelope on the socket of the endpoint, and every
    ZmqReceiver that has the receiver name registered and a decoder for
    the wire name that accepts the payload delivers the decoded message to
    the registered actor; the reply proxy it creates names the actor that
    called send_to and the local endpoint of the ZmqSender, and a sender
    with an empty name (or no sender) gets no proxy. *)
Theorem remote_send_arrives zs endpoint actor_name m from w z lep msg e sn se :
  actors w !! zs = Some z →
  cls z = ZmqSenderClass lep →
  terminated z = false →
  is_part_of_group z = false →
  messages w !! m = Some msg →
  id_to_entry_ (registry env) !! get_message_id (mtype msg) = Some e →
  type_name e ≠ "" →
  sender_of w lep from = Some (sn, se) →
  ∃ w1 z1 p req,
    send_to zs endpoint actor_name m from w = Ok (tt, w1) ∧
    actors w1 !! zs = Some z1 ∧
    BQueue.contents (msgq z1) = BQueue.contents (msgq z) ++ [p] ∧
    messages w1 = <[p := req]> (delete m (messages w)) ∧
    mtype req = RemoteSendRequest ∧
    let envelope :=
      envelope_of sn se actor_name (type_name e) (serialize e msg) in
    (∀ s, on_send_request req s = Some (send_raw endpoint envelope s)) ∧
    (∀ rx target e' msg' w2,
       registry_ rx !! actor_name = Some target →
       name_to_entry_ (registry env) !! type_name e = Some e' →
       deserialize e' (serialize e msg) = Decoded msg' →
       handle_remote_message rx envelope w2 =
       deliver rx (frame_sender sn se) target msg' w2).
Proof.
  intros Hz Hcls Hterm Hgrp Hm He Hname Hfrom.
  pose proof (send_to_eq zs endpoint actor_name m from w z lep msg e sn se
                Hz Hcls Hterm Hgrp Hm He Hname Hfrom) as Hsend.
  simpl in Hsend.
  eexists _, _, _, _. split; [exact Hsend|]. simpl.
  split_and!.
  - apply lookup_insert_eq.
  - simpl. apply BQueue.contents_push.
  - reflexivity.
  - reflexivity.
  - intros s. unfold on_send_request. by rewrite request_of_new.
  - intros rx target e' msg' w2 Hreg He' Hdec.
    destruct (envelope_of_parsed sn se actor_name (type_name e)
                (serialize e msg)) as (fields & -> & Hp).
    rewrite (handle_remote_message_route _ _ _ _ _ _ _ Hp).
    unfold route. by rewrite Hreg, He', Hdec.
Qed.

(** X15. A Reject is never answered.  send_reject passes no sender to
    send_to, so the envelope that on_send_request builds for it carries a
    null sender, and whatever the registry and the decoders of the
    ZmqReceiver that gets it are, handling it creates no reply proxy and
    sends nothing back: it either changes nothing or makes one
    asynchronous send, without a sender, to a local actor. *)
Theorem reject_is_not_answered rx endpoint actor_name msg_type reason
    rejected_by w z lep e :
  actors w !! sender_ rx = Some z →
  cls z = ZmqSenderClass lep →
  terminated z = false →
  is_part_of_group z = false →
  id_to_entry_ (registry env) !! get_message_id Reject = Some e →
  type_name e ≠ "" →
  ∃ w1 z1 p req envelope,
    send_reject rx endpoint actor_name msg_type reason rejected_by w
      = Ok (tt, w1) ∧
    actors w1 !! sender_ rx = Some z1 ∧
    BQueue.contents (msgq z1) = BQueue.contents (msgq z) ++ [p] ∧
    messages w1 !! p = Some req ∧
    (∀ s, on_send_request req s = Some (send_raw endpoint envelope s)) ∧
    (∀ rx2 w2 rx2' w2',
       handle_remote_message rx2 envelope w2 = Ok (rx2', w2') →
       rx2' = rx2 ∧
       (w2' = w2 ∨
        ∃ target,
          trace w2' =
          trace w2 ++
          [Ev (CallSend target (fresh (dom (messages w2))) None) []])).
Proof.
  intros Hz Hcls Hterm Hgrp He Hname.
  set (reject := Reject_new msg_type reason rejected_by).
  set (m := fresh (dom (messages w))).
  set (w0 := with_messages (<[m := reject]> (messages w)) w).
  pose proof (send_to_eq (sender_ rx) endpoint actor_name m None w0 z lep
                reject e "" "" Hz Hcls Hterm Hgrp) as Hsend.
  simpl in Hsend. rewrite lookup_insert_eq in Hsend.
  specialize (Hsend eq_refl He Hname eq_refl).
  eexists _, _, _, _, _. split_and!.
  - unfold send_reject.
    rewrite (bind_eq _ _ _ m w0) by reflexivity. exact Hsend.
  - apply lookup_insert_eq.
  - simpl. apply BQueue.contents_push.
  - apply lookup_insert_eq.
  - intros s. unfold on_send_request. by rewrite request_of_new.
  - intros rx2 w2 rx2' w2' H.
    destruct (envelope_of_parsed "" "" actor_name (type_name e)
                (serialize e reject)) as (fields & Hf & Hp).
    rewrite Hf in H.
    rewrite (handle_remote_message_route _ _ _ _ _ _ _ Hp) in H.
    change (frame_sender "" "") with (@None (string * string)) in H.
    unfold route in H.
    destruct (registry_ rx2 !! actor_name) as [target|].
    + destruct (name_to_entry_ (registry env) !! type_name e) as [e'|].
      * destruct (deserialize e' (serialize e reject)) as [msg'| |].
        -- apply deliver_Ok in H as (ra & Htr & -> & ->).
           split; [done|]. right. by exists target.
        -- apply reject_or_drop_Ok in H as [-> ->]. by split; [|left].
        -- done.
      * apply reject_or_drop_Ok in H as [-> ->]. by split; [|left].
    + apply reject_or_drop_Ok in H as [-> ->]. by split; [|left].
Qed.

(* ===================================================================== *)
(** * The registry of a ZmqReceiver *)
(* ===================================================================== *)

(** X16. The actor registered last under a name gets the frames for that
    name, and after unregister_actor the name is unknown: for a frame
    that parses and whose payload decodes, a receiver with the name
    registered makes one send of the decoded message to the actor of the
    latest register_actor; once the name is unregistered the same frame is
    answered with the Reject "Actor '<name>' not found", rejected by that
    name, if it names a sender, and changes nothing if it names none. *)
Theorem registration_decides_routing rx name first_actor actor fields from
    msg_type payload e msg w :
  parsed_envelope fields from name msg_type payload →
  name_to_entry_ (registry env) !! msg_type = Some e →
  deserialize e payload = Decoded msg →
  (∀ rx' w',
     handle_remote_message
       (register_actor (register_actor rx name first_actor) name actor)
       (JObject fields) w = Ok (rx', w') →
     ∃ reply_actor,
       trace w' =
       trace w ++
       [Ev (CallSend actor (fresh (dom (messages w))) reply_actor) []]) ∧
  (∀ rx' w',
     handle_remote_message
       (unregister_actor (register_actor rx name actor) name)
       (JObject fields) w = Ok (rx', w') →
     match from with
     | Some (sender_actor, sender_endpoint) =>
         ∃ inner,
           trace w' =
           trace w ++
           [Ev (CallSendTo (sender_ rx) sender_endpoint sender_actor
                  (Reject_new msg_type ("Actor '" ++ name ++ "' not found")
                     name) None) inner]
     | None => w' = w
     end).
Proof.
  intros Hp He Hdec. split; intros rx' w' H;
    rewrite (handle_remote_message_route _ _ _ _ _ _ _ Hp) in H;
    unfold route in H; simpl in H.
  - rewrite lookup_insert_eq, He, Hdec in H.
    apply deliver_Ok in H as (ra & Htr & _). by exists ra.
  - rewrite lookup_delete_eq in H.
    by apply reject_or_drop_Ok in H as [_ H].
Qed.

(* ===================================================================== *)
(** * The sockets of a ZmqSender *)
(* ===================================================================== *)

(** A run of send_raw calls, first to last. *)
Definition send_raw_all (calls : list (string * json))
    (s : gmap string (string * list json)) : gmap string (string * list json) :=
  foldl (λ s c, send_raw c.1 c.2 s) s calls.

(** The frames of the calls for one endpoint, first to last. *)
Definition frames_for (endpoint : string) (calls : list (string * json))
  : list json :=
  (filter (λ c, c.1 = endpoint) calls).*2.

(** X17. A ZmqSender keeps one socket per endpoint string.  After any
    run of send_raw calls, the socket of an endpoint exists iff a frame
    was sent to that endpoint (now or before the run); it is still
    connected to the address of its first use, which for a new socket is
    the endpoint with "*:" and "0.0.0.0:" replaced by "localhost:"; and it
    carries exactly the frames sent to that endpoint, in the order of the
    calls. *)
Theorem socket_per_endpoint calls s endpoint :
  send_raw_all calls s !! endpoint =
  match s !! endpoint with
  | Some (addr, sent) => Some (addr, sent ++ frames_for endpoint calls)
  | None =>
      match frames_for endpoint calls with
      | [] => None
      | frames => Some (connect_endpoint endpoint, frames)
      end
  end.
Proof.
  unfold send_raw_all, frames_for.
  revert s. induction calls as [|[ep d] calls IH]; intros s.
  - simpl. destruct (s !! endpoint) as [[addr sent]|]; [|done].
    by rewrite app_nil_r.
  - simpl. rewrite IH. unfold send_raw. simpl.
    destruct (decide (ep = endpoint)) as [->|Hne].
    + rewrite filter_cons_True by done. simpl.
      destruct (s !! endpoint) as [[addr sent]|];
        rewrite lookup_insert_eq; [by rewrite <- app_assoc|done].
    + rewrite filter_cons_False by done.
      assert (∀ v, <[ep := v]> s !! endpoint = s !! endpoint) as E
        by (intros v; by apply lookup_insert_ne).
      destruct (s !! ep) as [[a0 s0]|]; by rewrite E.
Qed.

End Program.

(* ===================================================================== *)
(** * Fuel *)
(* ===================================================================== *)

(** [refines c c']: every result of [c] is a result of [c']. *)
Definition refines {A} (c c' : M A) : Prop :=
  ∀ w r, c w = Ok r → c' w = Ok r.

Lemma refines_refl {A} (c : M A) : refines c c.
Proof. by intros w r H. Qed.

Lemma refines_trans {A} (c1 c2 c3 : M A) :
  refines c1 c2 → refines c2 c3 → refines c1 c3.
Proof. intros H1 H2 w r H. by apply H2, H1. Qed.

Lemma refines_bind {A B} (c c' : M A) (k k' : A → M B) :
  refines c c' → (∀ x, refines (k x) (k' x)) →
  refines (bind c k) (bind c' k').
Proof.
  intros Hc Hk w [y w'] H. apply bind_Ok in H as (x & w1 & H1 & H2).
  rewrite (bind_eq _ _ _ x w1) by exact (Hc _ _ H1). exact (Hk _ _ _ H2).
Qed.

Lemma refines_call_scope {A} e (b b' : M A) :
  refines b b' → refines (call_scope e b) (call_scope e b').
Proof.
  intros Hb w [y w'] H. apply call_scope_Ok in H as (w1 & H & ->).
  apply call_scope_eq. exact (Hb _ _ H).
Qed.

Lemma refines_for_each {X} (l : list X) (f f' : X → M unit) :
  (∀ x, refines (f x) (f' x)) → refines (for_each l f) (for_each l f').
Proof.
  intros Hf. induction l as [|x l IH]; simpl; [apply refines_refl|].
  apply refines_bind; [apply Hf|]. intros _. apply IH.
Qed.

Ltac mono_with known :=
  repeat first
    [ match goal with |- refines ?c ?c => apply refines_refl end
    | assumption
    | known
    | match goal with H : ∀ _, _ |- refines _ _ => apply H end
    | apply refines_call_scope
    | (apply refines_for_each; intros ?)
    | (apply refines_bind; [|intros ?])
    | match goal with
      | |- refines (if ?b then _ else _) _ => destruct b
      | |- refines (match ?x with _ => _ end) _ => destruct x
      end ].

Ltac mono := mono_with fail.

Section Fuel.
Variable env : Env.

(** The functions that call each other through handlers give the same
    result when the calls one level deeper give the same results. *)
Section KnotFuel.
Variables frec frec' : nat → nat → option nat → M (option nat).
Variables prec prec' : nat → nat → bool → M unit.
Hypothesis Hfrec : ∀ a m from, refines (frec a m from) (frec' a m from).
Hypothesis Hprec : ∀ a m d, refines (prec a m d) (prec' a m d).

Lemma mono_fast_terminate a :
  refines (fast_terminate frec a) (fast_terminate frec' a).
Proof. unfold fast_terminate. mono. Qed.

Lemma mono_Manager_init a :
  refines (Manager_init env frec a) (Manager_init env frec' a).
Proof. unfold Manager_init. mono. Qed.

Lemma mono_init a : refines (init env frec a) (init env frec' a).
Proof. unfold init. mono_with ltac:(apply mono_Manager_init). Qed.

Lemma mono_forward m : refines (forward prec m) (forward prec' m).
Proof. unfold forward. mono. Qed.

Lemma mono_start_handler a m :
  refines (start_handler env frec prec a m) (start_handler env frec' prec' a m).
Proof.
  unfold start_handler.
  mono_with ltac:(first [apply mono_init | apply mono_forward]).
Qed.

Lemma mono_shutdown_handler a m :
  refines (shutdown_handler frec prec a m) (shutdown_handler frec' prec' a m).
Proof. unfold shutdown_handler. mono_with ltac:(apply mono_forward). Qed.

Lemma mono_Manager_process_message a m :
  refines (Manager_process_message frec a m)
          (Manager_process_message frec' a m).
Proof.
  unfold Manager_process_message. mono_with ltac:(apply mono_fast_terminate).
Qed.

Lemma mono_process_message a m :
  refines (process_message frec prec a m) (process_message frec' prec' a m).
Proof.
  unfold process_message.
  mono_with ltac:(first [apply mono_forward
                        | apply mono_Manager_process_message]).
Qed.

Lemma mono_invoke a f m :
  refines (invoke env frec prec a f m) (invoke env frec' prec' a f m).
Proof.
  unfold invoke.
  mono_with ltac:(first [apply mono_start_handler
                        | apply mono_shutdown_handler]).
Qed.

Lemma mono_call_handler a m :
  refines (call_handler env frec prec a m) (call_handler env frec' prec' a m).
Proof. unfold call_handler. mono_with ltac:(apply mono_invoke). Qed.

Lemma mono_process_message_internal_body a m d :
  refines (process_message_internal_body env frec prec a m d)
          (process_message_internal_body env frec' prec' a m d).
Proof.
  unfold process_message_internal_body.
  mono_with ltac:(first [apply mono_call_handler | apply mono_process_message]).
Qed.

Lemma mono_fast_send_body a m from :
  refines (fast_send_body env frec prec a m from)
          (fast_send_body env frec' prec' a m from).
Proof.
  unfold fast_send_body.
  mono_with ltac:(first [apply mono_call_handler | apply mono_process_message]).
Qed.

End KnotFuel.

Lemma one_more_fuel n :
  (∀ a m from, refines (fast_send env n a m from)
                       (fast_send env (S n) a m from)) ∧
  (∀ a m d, refines (process_message_internal env n a m d)
                    (process_message_internal env (S n) a m d)).
Proof.
  induction n as [|n [IHf IHp]]; [by split; intros ? ? ? w r H|].
  split; intros ? ? ?.
  - by apply mono_fast_send_body.
  - by apply mono_process_message_internal_body.
Qed.

Lemma more_fuel n k :
  (∀ a m from, refines (fast_send env n a m from)
                       (fast_send env (n + k) a m from)) ∧
  (∀ a m d, refines (process_message_internal env n a m d)
                    (process_message_internal env (n + k) a m d)).
Proof.
  induction k as [|k [IHf IHp]].
  - rewrite Nat.add_0_r. split; intros ? ? ?; apply refines_refl.
  - replace (n + S k)%nat with (S (n + k)) by lia.
    destruct (one_more_fuel (n + k)) as [Hf Hp].
    split; intros ? ? ?; eapply refines_trans; eauto.
Qed.

Lemma worker_turn_fuel n a :
  refines (worker_turn env n a) (worker_turn env (S n) a).
Proof.
  unfold worker_turn. mono_with ltac:(apply (one_more_fuel n)).
Qed.

Lemma worker_loop_fuel n a :
  refines (worker_loop env n a) (worker_loop env (S n) a).
Proof.
  induction n as [|n IH]; [by intros w r H|].
  change (refines
            (let* stop := worker_turn env n a in
             if stop : bool then ret tt else worker_loop env n a)
            (let* stop := worker_turn env (S n) a in
             if stop : bool then ret tt else worker_loop env (S n) a)).
  mono_with ltac:(apply worker_turn_fuel).
Qed.

(** A run that finishes with some fuel finishes with the same result
    with any larger fuel: the bound on the depth of the calls and on the
    number of turns of the loop is no part of the result. *)
Theorem fuel_is_ghost n k :
  (∀ a m from, refines (fast_send env n a m from)
                       (fast_send env (n + k) a m from)) ∧
  (∀ a m d, refines (process_message_internal env n a m d)
                    (process_message_internal env (n + k) a m d)) ∧
  (∀ a, refines (worker_loop env n a) (worker_loop env (n + k) a)) ∧
  (∀ a, refines (operator_call env n a) (operator_call env (n + k) a)).
Proof.
  induction k as [|k (IHf & IHp & IHw & IHo)].
  - rewrite Nat.add_0_r. repeat split; intros; apply refines_refl.
  - replace (n + S k)%nat with (S (n + k)) by lia.
    destruct (one_more_fuel (n + k)) as [Hf Hp].
    split; [|split; [|split]]; intros.
    + eapply refines_trans; eauto.
    + eapply refines_trans; eauto.
    + eapply refines_trans; [apply IHw|apply worker_loop_fuel].
    + eapply refines_trans; [apply IHo|].
      unfold operator_call.
      mono_with ltac:(first [by apply mono_init | apply worker_loop_fuel]).
Qed.

End Fuel.

(* ===================================================================== *)
(** * Concrete runs *)
(* ===================================================================== *)

(** The message classes of examples/ping_pong.cpp: Ping is Message_N<100>,
    Pong is Message_N<101>; [UserType n] has identity 100 + n. *)
Definition Ping : type_index := UserType 0.
Definition Pong : type_index := UserType 1.

(** REGISTER_REMOTE_MESSAGE_1(Ping, count, int): the decoder reads the
    field count with get<int>(), which throws when the field holds no
    number. *)
Definition Ping_deserialize (j : json) : decoded :=
  match j with
  | JObject fields =>
      match json_lookup fields "count" with
      | Some (JNumber n) => Decoded (Message_new Ping j)
      | _ => DecodeThrows
      end
  | _ => DecodeThrows
  end.

Definition example_registry : MessageRegistry :=
  register_message 100 "Ping" body Ping_deserialize
    (register_message 9 "Reject" body
       (λ j, Decoded (Message_new Reject j))
       (mkMessageRegistry ∅ ∅)).

Definition example_env : Env :=
  mkEnv (λ n, 100 + Z.of_nat n) 4 (λ _ _, 0) (λ _ _ _, 0)
        (λ a, 1000 + Z.of_nat a) example_registry.

(** PongActor: on_ping replies with a new Pong. *)
Definition PongActor_code : UserCode :=
  mkUserCode [] [] [] [[CmdReply (NewMsg Pong JNull)]].

Definition PongActor : Actor :=
  with_handlers {[ Ping := UserHandler 0 ]}
    (Actor_new (UserClass PongActor_code) "PongActor").

Definition ping_message : Message := Message_new Ping JNull.

(** One PongActor at address 1, one Ping at address 7. *)
Definition pong_world : World :=
  mkWorld {[ 1%nat := PongActor ]} {[ 7%nat := ping_message ]} [].

(** The same, after the actor terminated. *)
Definition terminated_world : World :=
  mkWorld {[ 1%nat := with_terminated true PongActor ]}
          {[ 7%nat := ping_message ]} [].

Lemma example_ids_injective t1 t2 :
  get_message_id example_env t1 = get_message_id example_env t2 → t1 = t2.
Proof.
  destruct t1, t2; simpl; intros H; try done; try lia.
  f_equal. lia.
Qed.

Lemma send_contract_witness :
  send 1 7 None pong_world =
  Ok (tt, mkWorld
            (<[1%nat := with_msgq (BQueue.push 7%nat (msgq PongActor)) PongActor]>
               (actors pong_world))
            (<[7%nat := stamped_by_send 1 None ping_message]>
               (messages pong_world))
            (trace pong_world ++ [Ev (CallSend 1 7 None) []])).
Proof.
  exact (proj2 (send_contract 1 7 None pong_world PongActor eq_refl)
           eq_refl ping_message 1%nat PongActor eq_refl eq_refl eq_refl eq_refl).
Defined.

Lemma fast_send_terminated_witness :
  fast_send example_env 1 1 7 None terminated_world =
  Ok (None,
      mkWorld (<[1%nat := counted_fast_send (with_terminated true PongActor)]>
                 (actors terminated_world))
              (<[7%nat := stamped_by_fast_send None ping_message]>
                 (messages terminated_world))
              (trace terminated_world ++ [Ev (CallFastSend 1 7 Ping None) []])).
Proof.
  exact (fast_send_terminated example_env 0 1 7 None terminated_world
           (with_terminated true PongActor) ping_message
           eq_refl eq_refl eq_refl eq_refl ltac:(discriminate) eq_refl).
Defined.


(* --------------------------------------------------------------------- *)
(** ** A message class of identity 512 *)

(** struct Wide : public Message_N<512>, which Message.hpp allows: only
    the identities 0-511 are said to be optimal. *)
Definition Wide : type_index := UserType 412.

Definition wide_world : World :=
  mkWorld {[ 1%nat := PongActor ]} {[ 7%nat := Message_new Wide JNull ]} [].

Lemma cache_index_unchecked_witness :
  get_message_id example_env Wide = 512 ∧
  call_handler example_env (fast_send example_env 0)
    (process_message_internal example_env 0) 1 7 wide_world
  = Err OutOfBounds.
Proof.
  split; [reflexivity|].
  apply (cache_index_unchecked example_env _ _ 1%nat 7%nat wide_world
           PongActor (Message_new Wide JNull) eq_refl eq_refl).
  intros [_ H]. vm_compute in H. discriminate H.
Defined.

(** Both ways of delivering the message end in that read. *)
Example wide_message_dispatch :
  fast_send example_env 1 1 7 None wide_world = Err OutOfBounds ∧
  process_message_internal example_env 1 1 7 false wide_world
  = Err OutOfBounds.
Proof. split; vm_compute; reflexivity. Qed.

(* --------------------------------------------------------------------- *)
(** ** A manager and one actor managed with SCHED_RR *)

Definition manager_world : World :=
  mkWorld {[ 0%nat := Actor_new (ManagerClass [] [] ∅ ∅) "Manager";
             1%nat := PongActor ]} ∅ [].

(** manager.manage(&pong, {}, 10, priority_type); manager.init(); *)
Definition manage_and_init (env : Env) (priority_type_ : Z) : M unit :=
  Manager_manage env 0 1 [] 10 priority_type_ >>
  Manager_init env (fast_send env 2) 0.

(** The calls of pthread_setschedparam and perror in a trace. *)
Definition sched_calls (evs : list event) : list call :=
  omap (λ e, match ev_call e with
             | OsSetSchedParam a policy prio =>
                 Some (OsSetSchedParam a policy prio)
             | OsPerror s => Some (OsPerror s)
             | _ => None
             end) evs.

(** What the run leaves: the scheduling class recorded for actor 1 and
    the scheduling calls made. *)
Definition scheduling_of (r : result (unit * World))
  : option (option Z * list call) :=
  match r with
  | Ok (_, w) => Some (priority_type <$> actors w !! 1%nat,
                       sched_calls (trace w))
  | Err _ => None
  end.

(** An operating system that refuses the realtime class (EPERM). *)
Definition refusing_env : Env :=
  mkEnv (user_message_id example_env) (nprocs example_env)
        (pthread_setaffinity_np example_env) (λ _ _ _, 1)
        (gettid example_env) (registry example_env).

(** C8. Manager::manage records the requested scheduling class in
    priority_type, but Manager::init never reads it: whatever class was
    requested, the worker thread of an actor with priority > 0 is given
    SCHED_FIFO.  A refused call is reported with perror and the run goes
    on. *)
Theorem scheduling_class_ignored :
  (∀ priority_type_,
     scheduling_of (manage_and_init example_env priority_type_ manager_world)
     = Some (Some priority_type_, [OsSetSchedParam 1 SCHED_FIFO 10])) ∧
  scheduling_of (manage_and_init example_env SCHED_RR manager_world)
  = Some (Some SCHED_RR, [OsSetSchedParam 1 SCHED_FIFO 10]) ∧
  scheduling_of (manage_and_init refusing_env SCHED_RR manager_world)
  = Some (Some SCHED_RR, [OsSetSchedParam 1 SCHED_FIFO 10;
                          OsPerror "sched_setscheduler"]).
Proof.
  split; [intros pt|split]; vm_compute; reflexivity.
Qed.

(* --------------------------------------------------------------------- *)
(** ** Two Pings dispatched to the PongActor *)

(** The PongActor inside a fast_send, with two Pings to dispatch. *)
Definition dispatching_world : World :=
  mkWorld {[ 1%nat := with_using_fast_send true PongActor ]}
          {[ 7%nat := ping_message; 8%nat := ping_message ]} [].

Definition dispatch (m : nat) : M bool :=
  call_handler example_env (fast_send example_env 0)
    (process_message_internal example_env 0) 1 m.

Definition world_of {A} (r : result (A * World)) (w0 : World) : World :=
  match r with Ok (_, w) => w | Err _ => w0 end.

Definition value_of {A} (r : result (A * World)) : option A :=
  match r with Ok (x, _) => Some x | Err _ => None end.

Definition dispatched_once : World :=
  world_of (dispatch 7 dispatching_world) dispatching_world.

Definition dispatched_twice : World :=
  world_of (dispatch 8 dispatched_once) dispatched_once.

Lemma dispatching_world_fresh : caches_fresh dispatching_world.
Proof.
  intros a x H. unfold dispatching_world in H. simpl in H.
  apply lookup_singleton_Some in H as [<- <-]. split; reflexivity.
Qed.

(** The first dispatch goes through the table and fills entry 100 of the
    cache; the second is served from the cache and runs the same
    handler. *)
Example second_dispatch_from_cache :
  dispatch 7 dispatching_world = Ok (true, dispatched_once) ∧
  dispatch 8 dispatched_once = Ok (true, dispatched_twice) ∧
  (handler_cache <$> actors dispatching_world !! 1%nat) ≫= (.!! 100%nat)
  = Some None ∧
  (handler_cache <$> actors dispatched_once !! 1%nat) ≫= (.!! 100%nat)
  = Some (Some (UserHandler 0)) ∧
  map ev_call (trace dispatched_twice)
  = [CallHandler 1 (UserHandler 0) 7; CallHandler 1 (UserHandler 0) 8].
Proof. repeat apply conj; vm_compute; reflexivity. Qed.

Lemma fast_path_equivalence_witness :
  (∃ inner, trace dispatched_twice =
            trace dispatched_once ++
            [Ev (CallHandler 1 (UserHandler 0) 8) inner]) ∧
  caches_sound example_env (tables_of dispatching_world) dispatched_twice.
Proof.
  destruct (fast_path_equivalence example_env example_ids_injective)
    as (Hfresh & _ & Hcall).
  pose proof (Hfresh _ dispatching_world_fresh) as H0.
  assert (dispatch 7 dispatching_world = Ok (true, dispatched_once)) as E1
    by (vm_compute; reflexivity).
  assert (dispatch 8 dispatched_once = Ok (true, dispatched_twice)) as E2
    by (vm_compute; reflexivity).
  assert (∃ x, actors dispatched_once !! 1%nat = Some x ∧
               table_dispatch x ping_message = Some (UserHandler 0))
    as (x1 & Hx1 & Ht1) by (eexists; split; vm_compute; reflexivity).
  destruct (Hcall (tables_of dispatching_world) 0%nat 1%nat 7%nat
              dispatching_world true dispatched_once
              (with_using_fast_send true PongActor) ping_message
              H0 eq_refl eq_refl E1) as (_ & _ & H1).
  destruct (Hcall (tables_of dispatching_world) 0%nat 1%nat 8%nat
              dispatched_once true dispatched_twice x1 ping_message
              H1 Hx1 ltac:(vm_compute; reflexivity) E2)
    as (Htr & _ & H2).
  rewrite Ht1 in Htr. exact (conj (proj2 Htr) H2).
Defined.

(* --------------------------------------------------------------------- *)
(** ** Two message classes with one identity *)

(** struct Ping : Message_N<100> and struct Pong : Message_N<100>: the
    compiler accepts both, and get_message_id() returns 100 for each. *)
Definition clash_env : Env :=
  mkEnv (λ _, 100) (nprocs example_env) (pthread_setaffinity_np example_env)
        (pthread_setschedparam example_env) (gettid example_env)
        (registry example_env).

(** An actor with a handler for each of the two classes. *)
Definition TwoHandlers : Actor :=
  with_handlers {[ Ping := UserHandler 0; Pong := UserHandler 1 ]}
    (Actor_new (UserClass (mkUserCode [] [] [] [[]; []])) "TwoHandlers").

Definition clash_world : World :=
  mkWorld {[ 1%nat := TwoHandlers ]}
          {[ 7%nat := ping_message; 8%nat := Message_new Pong JNull ]} [].

Definition clash_dispatch (m : nat) : M bool :=
  call_handler clash_env (fast_send clash_env 0)
    (process_message_internal clash_env 0) 1 m.

Definition clash_once : World :=
  world_of (clash_dispatch 7 clash_world) clash_world.

Definition clash_twice : World :=
  world_of (clash_dispatch 8 clash_once) clash_once.

(** The Ping fills entry 100 of the cache with on_ping.  The Pong that
    follows has the same identity and is served from the cache: on_ping
    is invoked for it, while the look-up in the handler table by its
    runtime type gives on_pong. *)
Lemma shared_identity_stale_handler :
  get_message_id clash_env Ping = get_message_id clash_env Pong ∧
  clash_dispatch 7 clash_world = Ok (true, clash_once) ∧
  clash_dispatch 8 clash_once = Ok (true, clash_twice) ∧
  (actors clash_once !! 1%nat ≫= λ x,
   messages clash_once !! 8%nat ≫= λ msg, table_dispatch x msg)
  = Some (UserHandler 1) ∧
  map ev_call (trace clash_twice)
  = [CallHandler 1 (UserHandler 0) 7; CallHandler 1 (UserHandler 0) 8].
Proof. repeat apply conj; vm_compute; reflexivity. Qed.

(* --------------------------------------------------------------------- *)
(** ** fast_send to the PongActor, running and terminated *)

Definition pong_run : result (option msg_ptr * World) :=
  fast_send example_env 2 1 7 None pong_world.

Definition pong_replied : World := world_of pong_run pong_world.

(** The caller gets the Pong that on_ping passed to reply, stamped with
    the PongActor as its sender; nothing was put in a mailbox. *)
Example pong_run_reply :
  value_of pong_run = Some (Some 8%nat) ∧
  messages pong_replied !! 8%nat
  = Some (stamped_by_reply 1 (Message_new Pong JNull)) ∧
  trace pong_replied
  = [Ev (CallFastSend 1 7 Ping None)
       [Ev (CallHandler 1 (UserHandler 0) 7) [Ev (CallReply 1 8) []]]] ∧
  (BQueue.contents ∘ msgq <$> actors pong_replied !! 1%nat) = Some [].
Proof. repeat apply conj; vm_compute; reflexivity. Qed.


(** A handler that replies with a new Pong and then sends the same
    message to its own mailbox: fast_send returns the Pong, which now
    carries the sender given to send and is in the mailbox as well. *)
Definition ReplySendActor : Actor :=
  with_handlers {[ Ping := UserHandler 0 ]}
    (Actor_new
       (UserClass
          (mkUserCode [] [] []
             [[CmdReply (NewMsg Pong JNull); CmdSend 1 (Ptr 8) None]]))
       "ReplySendActor").

Definition reply_send_run : result (option msg_ptr * World) :=
  fast_send example_env 2 1 7 None
    (mkWorld {[ 1%nat := ReplySendActor ]} {[ 7%nat := ping_message ]} []).

Example reply_then_send :
  value_of reply_send_run = Some (Some 8%nat) ∧
  (sender <$> messages (world_of reply_send_run pong_world) !! 8%nat)
  = Some None ∧
  (BQueue.contents ∘ msgq <$>
   actors (world_of reply_send_run pong_world) !! 1%nat) = Some [8%nat].
Proof. repeat apply conj; vm_compute; reflexivity. Qed.

(** After the fast_send has returned the flag using_fast_send is still
    set: a reply made then, with no reply_to, fails no assertion and
    sends nothing; it fills the reply slot. *)
Example reply_after_fast_send :
  (using_fast_send <$> actors pong_replied !! 1%nat) = Some true ∧
  (reply_to <$> actors pong_replied !! 1%nat) = Some None ∧
  map ev_call (trace (world_of (reply 1 7 pong_replied) pong_world))
  = [CallFastSend 1 7 Ping None; CallReply 1 7] ∧
  (reply_message <$>
   actors (world_of (reply 1 7 pong_replied) pong_world) !! 1%nat)
  = Some (Some 7%nat).
Proof. repeat apply conj; vm_compute; reflexivity. Qed.


(* --------------------------------------------------------------------- *)
(** ** A worker with Ping, Shutdown, Ping in its mailbox *)

(** An actor whose on_ping does nothing. *)
Definition QuietActor : Actor :=
  with_handlers {[ Ping := UserHandler 0 ]}
    (Actor_new (UserClass (mkUserCode [] [] [] [[]])) "QuietActor").

Definition worker_world : World :=
  world_of
    ((send 1 7 None >> send 1 8 None >> send 1 9 None)
       (mkWorld {[ 1%nat := QuietActor ]}
                {[ 7%nat := ping_message;
                   8%nat := Message_new Shutdown JNull;
                   9%nat := ping_message ]} []))
    (mkWorld ∅ ∅ []).

Definition worker_done : World :=
  world_of (operator_call example_env 5 1 worker_world) worker_world.

(** The worker dispatches the Ping and the Shutdown and stops: the second
    Ping stays in the mailbox. *)
Example worker_stops_at_shutdown :
  (BQueue.contents ∘ msgq <$> actors worker_world !! 1%nat)
  = Some [7%nat; 8%nat; 9%nat] ∧
  operator_call example_env 5 1 worker_world = Ok (tt, worker_done) ∧
  omap (dispatch_of 1) (trace worker_done) = [Ping; Shutdown] ∧
  (BQueue.contents ∘ msgq <$> actors worker_done !! 1%nat) = Some [9%nat] ∧
  (terminated <$> actors worker_done !! 1%nat) = Some true.
Proof. repeat apply conj; vm_compute; reflexivity. Qed.


(* --------------------------------------------------------------------- *)
(** ** A Group of two members *)

Definition group_world : World :=
  world_of
    ((Group_add 0 1 >> Group_add 0 2)
       (mkWorld {[ 0%nat := Actor_new (GroupClass "Group" [] ∅) "Group";
                   1%nat := QuietActor;
                   2%nat := with_name "SecondActor" QuietActor ]}
                {[ 7%nat := Message_new Start JNull;
                   8%nat := Message_new Shutdown JNull ]} []))
    (mkWorld ∅ ∅ []).

Definition the_group : Actor := default QuietActor (actors group_world !! 0%nat).

Definition group_started : World :=
  world_of (start_handler example_env (fast_send example_env 2)
              (process_message_internal example_env 2) 0 7 group_world)
    group_world.

Example group_world_members :
  actors group_world !! 0%nat = Some the_group ∧
  cls the_group
  = GroupClass "Group" [1%nat; 2%nat]
      (<["SecondActor" := 2%nat]> (<["QuietActor" := 1%nat]> ∅)) ∧
  (group <$> actors group_world !! 1%nat) = Some (Some 0%nat) ∧
  (is_part_of_group <$> actors group_world !! 2%nat) = Some true.
Proof. repeat apply conj; vm_compute; reflexivity. Qed.


(** Shutdown takes the members in the same order: fast_send, then end. *)
Example group_shutdown_order :
  map lifecycle_of
    (trace (world_of
              (shutdown_handler (fast_send example_env 2)
                 (process_message_internal example_env 2) 0 8 group_world)
              group_world))
  = [LFastSend 1 Shutdown (Some 0%nat); LEnd 1;
     LFastSend 2 Shutdown (Some 0%nat); LEnd 2].
Proof. vm_compute; reflexivity. Qed.

(* --------------------------------------------------------------------- *)
(** ** Frames received for the PongActor *)

(** The process of examples/remote_pong.cpp: the PongActor is registered
    as pong, the ZmqSender of the process is at address 2. *)
Definition remote_world : World :=
  mkWorld {[ 1%nat := PongActor;
             2%nat := Actor_new (ZmqSenderClass "tcp://localhost:5001")
                        "ZmqSender" ]} ∅ [].

Definition pong_receiver : ZmqReceiver :=
  mkZmqReceiver 2 {[ "pong" := 1%nat ]} [].

Definition frame_fields (payload : json) : list (string * json) :=
  [ ("sender_actor", JString "ping");
    ("sender_endpoint", JString "tcp://localhost:5002");
    ("receiver", JString "pong");
    ("message_type", JString "Ping");
    ("message", payload) ].

Definition good_payload : json := JObject [("count", JNumber 1)].

(** The field count holds a string: get<int>() throws. *)
Definition bad_payload : json := JObject [("count", JString "one")].

Lemma remote_routing_witness :
  handle_remote_message example_env pong_receiver
    (JObject (frame_fields good_payload)) remote_world
  = route example_env pong_receiver (Some ("ping", "tcp://localhost:5002"))
      "pong" "Ping" good_payload remote_world.
Proof.
  apply (proj1 (remote_routing example_env)).
  repeat apply conj; reflexivity.
Defined.

(** The frame with the good payload is delivered to the PongActor, with
    a new reply proxy as its sender. *)
Example good_frame_delivered :
  let r := handle_remote_message example_env pong_receiver
             (JObject (frame_fields good_payload)) remote_world in
  map ev_call (trace (world_of r remote_world))
  = [CallSend 1 0 (Some 3%nat)] ∧
  (proxies_ <$> value_of r) = Some [3%nat].
Proof. repeat apply conj; vm_compute; reflexivity. Qed.

(** The receiver pong is registered, the wire name Ping is registered and
    the frame names a sender, but the payload does not decode: the
    handler is left by the exception of the decoder, with neither a
    Reject sent nor a message delivered. *)
Lemma undecodable_frame_unanswered :
  registry_ pong_receiver !! "pong" = Some 1%nat ∧
  is_registered example_env "Ping" = true ∧
  parsed_envelope (frame_fields bad_payload)
    (Some ("ping", "tcp://localhost:5002")) "pong" "Ping" bad_payload ∧
  handle_remote_message example_env pong_receiver
    (JObject (frame_fields bad_payload)) remote_world
  = Err JsonException.
Proof.
  assert (parsed_envelope (frame_fields bad_payload)
            (Some ("ping", "tcp://localhost:5002")) "pong" "Ping" bad_payload)
    as Hp by (repeat apply conj; reflexivity).
  split; [reflexivity|]. split; [reflexivity|]. split; [exact Hp|].
  exact (proj1 (decoder_exception_unanswered example_env pong_receiver
                  (frame_fields bad_payload) "ping" "tcp://localhost:5002"
                  "pong" "Ping" bad_payload 1%nat
                  (mkRegistryEntry "Ping" body Ping_deserialize)
                  Hp eq_refl eq_refl) eq_refl remote_world).
Defined.

(* --------------------------------------------------------------------- *)
(** ** A message sent twice *)

Definition pong_sent : World := world_of (send 1 7 None pong_world) pong_world.

Lemma message_enqueued_once_witness :
  send 1 7 None pong_world = Ok (tt, pong_sent) ∧
  send 1 7 (Some 1%nat) pong_sent
  = Err (AssertionFailed "cannot reuse message").
Proof.
  assert (send 1 7 None pong_world = Ok (tt, pong_sent)) as E
    by (vm_compute; reflexivity).
  split; [exact E|].
  destruct (message_enqueued_once 1 7 None pong_world pong_sent PongActor
              eq_refl eq_refl E) as (msg1 & _ & _ & Hre & _).
  assert (∃ y, actors pong_sent !! 1%nat = Some y ∧ terminated y = false)
    as (y & Hy & Ht) by (eexists; split; vm_compute; reflexivity).
  exact (Hre 1%nat (Some 1%nat) y Hy Ht).
Defined.

(* --------------------------------------------------------------------- *)
(** ** An actor that is dispatching *)

(** The PongActor while one of its handlers runs. *)
Definition locked_world : World :=
  mkWorld {[ 1%nat := with_fast_send_mutex true PongActor ]}
          {[ 7%nat := ping_message ]} [].

Lemma dispatch_not_reentrant_witness :
  fast_send example_env 1 1 7 None locked_world = Err Deadlock ∧
  process_message_internal example_env 1 1 7 false locked_world
  = Err Deadlock ∧
  fast_send example_env 1 1 7 (Some 1%nat) pong_world
  = Err (AssertionFailed "fast send to itself").
Proof.
  pose proof (proj1 (dispatch_not_reentrant example_env 0 1 7 locked_world
                       (with_fast_send_mutex true PongActor) ping_message
                       eq_refl eq_refl) eq_refl) as [H1 H2].
  pose proof (proj2 (dispatch_not_reentrant example_env 0 1 7 pong_world
                       PongActor ping_message eq_refl eq_refl) eq_refl) as H3.
  exact (conj (H1 None) (conj (H2 false) H3)).
Defined.

(** The bookkeeping of one fast_send to the PongActor. *)
Example pong_run_bookkeeping :
  (msg_cnt <$> actors pong_replied !! 1%nat) = Some 1%Z ∧
  (fast_send_mutex <$> actors pong_replied !! 1%nat) = Some false ∧
  (using_fast_send <$> actors pong_replied !! 1%nat) = Some true ∧
  (reply_message <$> actors pong_replied !! 1%nat) = Some (value_of pong_run ≫= id).
Proof. repeat apply conj; vm_compute; reflexivity. Qed.

(* --------------------------------------------------------------------- *)
(** ** Messages dispatched by the Group *)

Lemma fresh_cache_sound env x :
  handler_cache x = replicate ACTOR_HANDLER_CACHE_SIZE None →
  dont_have_handler x = replicate ACTOR_HANDLER_CACHE_SIZE false →
  cache_sound_for env (handlers x) x.
Proof.
  intros Hc Hd. split; [done|]. split.
  - intros i f H. rewrite Hc in H. by apply lookup_replicate in H as [? _].
  - intros i H. rewrite Hd in H. by apply lookup_replicate in H as [? _].
Qed.

Lemma the_group_cache_sound :
  cache_sound_for example_env (handlers the_group) the_group.
Proof. apply fresh_cache_sound; vm_compute; reflexivity. Qed.

Definition group_dispatched : World :=
  world_of (process_message_internal example_env 3 0 7 false group_world)
    group_world.


(** A fast_send of Start to the Group runs the handler of the Group,
    which makes no reply: nothing is returned. *)
Example fast_send_to_group :
  value_of (fast_send example_env 3 0 7 None group_world) = Some None ∧
  map lifecycle_of
    (flat_map ev_inner
       (flat_map ev_inner
          (trace (world_of (fast_send example_env 3 0 7 None group_world)
                    group_world))))
  = [LInit 1; LFastSend 1 Start (Some 0%nat);
     LInit 2; LFastSend 2 Start (Some 0%nat)].
Proof. split; vm_compute; reflexivity. Qed.

(** A Ping sent to the first member waits in the mailbox of the Group. *)
Definition group_ping_world : World :=
  world_of
    (send 1 9 None
       (with_messages (<[9%nat := ping_message]> (messages group_world))
          group_world))
    group_world.

Definition the_pinged_group : Actor :=
  default QuietActor (actors group_ping_world !! 0%nat).

Definition group_ping_forwarded : World :=
  world_of (process_message_internal example_env 3 0 9 false group_ping_world)
    group_ping_world.

Example ping_waits_in_group_mailbox :
  (BQueue.contents ∘ msgq <$> actors group_ping_world !! 0%nat)
  = Some [9%nat] ∧
  (BQueue.contents ∘ msgq <$> actors group_ping_world !! 1%nat)
  = Some [] ∧
  (destination <$> messages group_ping_world !! 9%nat) = Some (Some 1%nat).
Proof. repeat apply conj; vm_compute; reflexivity. Qed.

Lemma group_forwards_to_destination_witness :
  ∃ inner,
    trace group_ping_forwarded =
    trace group_ping_world ++
    [Ev (CallProcessMessageInternal 0 9 Ping false)
       [Ev (CallProcessMessage 0 9)
          [Ev (CallProcessMessageInternal 1 9 Ping true) inner]]] ∧
    messages group_ping_forwarded !! 9%nat = None.
Proof.
  assert (process_message_internal example_env 3 0 9 false group_ping_world
          = Ok (tt, group_ping_forwarded)) as E by (vm_compute; reflexivity).
  assert (actors group_ping_world !! 0%nat = Some the_pinged_group) as Hx
    by (vm_compute; reflexivity).
  assert (cls the_pinged_group
          = GroupClass "Group" [1%nat; 2%nat]
              (<["SecondActor" := 2%nat]> (<["QuietActor" := 1%nat]> ∅)))
    as Hcls by (vm_compute; reflexivity).
  assert (cache_sound_for example_env (handlers the_pinged_group)
            the_pinged_group) as Hc
    by (apply fresh_cache_sound; vm_compute; reflexivity).
  assert (messages group_ping_world !! 9%nat
          = Some (stamped_by_send 1 None ping_message)) as Hm
    by (vm_compute; reflexivity).
  destruct (group_forwards_to_destination example_env 2 0 9 group_ping_world
              group_ping_forwarded the_pinged_group "Group" [1%nat; 2%nat] _
              (stamped_by_send 1 None ping_message) example_ids_injective
              Hx Hcls Hc eq_refl Hm E)
    as (d & inner & Hd & _ & _ & Htr & Hfree).
  injection Hd as <-. exists inner. exact (conj Htr Hfree).
Defined.

(** A Ping addressed to the Group itself. *)
Definition group_self_world : World :=
  world_of
    (send 0 9 None
       (with_messages (<[9%nat := ping_message]> (messages group_world))
          group_world))
    group_world.

Definition the_addressed_group : Actor :=
  default QuietActor (actors group_self_world !! 0%nat).

Lemma group_misdirected_messages_witness :
  process_message_internal example_env 2 0 9 false group_self_world
  = Err Deadlock ∧
  fast_send example_env 1 0 9 None group_self_world
  = Err (AssertionFailed "cannot fast send here").
Proof.
  assert (actors group_self_world !! 0%nat = Some the_addressed_group) as Hx
    by (vm_compute; reflexivity).
  assert (cls the_addressed_group
          = GroupClass "Group" [1%nat; 2%nat]
              (<["SecondActor" := 2%nat]> (<["QuietActor" := 1%nat]> ∅)))
    as Hcls by (vm_compute; reflexivity).
  assert (cache_sound_for example_env (handlers the_addressed_group)
            the_addressed_group) as Hc
    by (apply fresh_cache_sound; vm_compute; reflexivity).
  assert (messages group_self_world !! 9%nat
          = Some (stamped_by_send 0 None ping_message)) as Hm
    by (vm_compute; reflexivity).
  assert (msg_cnt the_addressed_group < LLONG_MAX) as Hcnt
    by (vm_compute; reflexivity).
  assert (0 ≤ get_message_id example_env Ping
          < Z.of_nat (length (handler_cache the_addressed_group))) as Hi
    by (split; vm_compute; [discriminate|reflexivity]).
  assert (get_message_id example_env Ping
          < Z.of_nat (length (dont_have_handler the_addressed_group))) as Hj
    by (vm_compute; reflexivity).
  destruct (group_misdirected_messages example_env 0 0 9 group_self_world
              the_addressed_group "Group" [1%nat; 2%nat] _
              (stamped_by_send 0 None ping_message) example_ids_injective
              Hx Hcls Hc eq_refl Hm eq_refl Hcnt Hi Hj) as [H1 H2].
  exact (conj (H1 eq_refl eq_refl false)
              (H2 eq_refl None ltac:(discriminate))).
Defined.

(* --------------------------------------------------------------------- *)
(** ** Managing the PongActor and the Group *)

(** The PongActor already marked as managed. *)
Definition remanage_world : World :=
  with_actors (<[1%nat := with_is_managed true PongActor]>
                 (actors manager_world)) manager_world.

Lemma manage_refuses_witness :
  Manager_manage example_env 0 1 [4] 0 SCHED_OTHER manager_world
  = Err (AssertionFailed "core id out of range") ∧
  Manager_manage example_env 0 1 [] 0 SCHED_OTHER remanage_world
  = Err (AssertionFailed "actor with this name already managed").
Proof.
  assert (actors remanage_world !! 0%nat
          = Some (Actor_new (ManagerClass [] [] ∅ ∅) "Manager")) as Hx
    by (vm_compute; reflexivity).
  assert (actors remanage_world !! 1%nat
          = Some (with_is_managed true PongActor)) as Ha
    by (vm_compute; reflexivity).
  split.
  - apply (proj1 (proj2 (proj2
             (manage_refuses example_env 0 1 [4] 0 SCHED_OTHER manager_world
                (Actor_new (ManagerClass [] [] ∅ ∅) "Manager") PongActor
                [] [] ∅ ∅ eq_refl eq_refl eq_refl))));
      [reflexivity|reflexivity|reflexivity|].
    apply Exists_cons_hd. right. vm_compute. discriminate.
  - apply (proj1
             (manage_refuses example_env 0 1 [] 0 SCHED_OTHER remanage_world
                (Actor_new (ManagerClass [] [] ∅ ∅) "Manager")
                (with_is_managed true PongActor)
                [] [] ∅ ∅ Hx eq_refl Ha)).
    left. reflexivity.
Defined.

(** The Group of two members and a new Manager at address 3. *)
Definition group_manager_world : World :=
  with_actors (<[3%nat := Actor_new (ManagerClass [] [] ∅ ∅) "Manager"]>
                 (actors group_world)) group_world.

Definition group_managed : World :=
  world_of (Manager_manage example_env 3 0 [] 0 SCHED_OTHER group_manager_world)
    group_manager_world.

Lemma manage_then_lookup_witness :
  get_actor_by_name 3 "Group" group_managed = Ok (Some 0%nat, group_managed) ∧
  ∃ en', get_name_map 3 group_managed = Ok (en', group_managed) ∧
         en' !! "Group" = Some 0%nat ∧
         names_covered group_managed en' [0%nat].
Proof.
  assert (names_covered group_manager_world ∅ []) as Hcov
    by (intros a Hin; apply elem_of_nil in Hin; destruct Hin).
  assert (Manager_manage example_env 3 0 [] 0 SCHED_OTHER group_manager_world
          = Ok (tt, group_managed)) as E by (vm_compute; reflexivity).
  assert (actors group_manager_world !! 0%nat = Some the_group) as Ha
    by (vm_compute; reflexivity).
  assert (∀ b, b ∈ group_members the_group →
               ∃ y, actors group_manager_world !! b = Some y ∧
                    is_Some (group_names the_group !! get_name y)) as Hmem.
  { intros b Hb.
    assert (group_members the_group = [1%nat; 2%nat]) as Eg
      by (vm_compute; reflexivity).
    rewrite Eg in Hb.
    apply elem_of_cons in Hb as [->|Hb];
      [|apply list_elem_of_singleton in Hb as ->];
      eexists; (split; [vm_compute; reflexivity|]);
      eexists; vm_compute; reflexivity. }
  assert (actors group_manager_world !! 3%nat
          = Some (Actor_new (ManagerClass [] [] ∅ ∅) "Manager")) as Hx
    by (vm_compute; reflexivity).
  assert (get_name the_group = "Group") as En by (vm_compute; reflexivity).
  pose proof (manage_then_lookup example_env 3 0 [] 0 SCHED_OTHER
                group_manager_world group_managed
                (Actor_new (ManagerClass [] [] ∅ ∅) "Manager") the_group
                [] [] ∅ ∅ Hx eq_refl Hcov Ha Hmem E) as H.
  rewrite En in H. exact H.
Defined.

(** The members of the managed Group are found by their names as well. *)
Example members_found_by_name :
  value_of (get_actor_by_name 3 "SecondActor" group_managed)
  = Some (Some 2%nat) ∧
  value_of (get_actor_by_name 3 "Nobody" group_managed) = Some None ∧
  (value_of (get_name_map 3 group_managed) ≫= (.!! "QuietActor"))
  = Some 1%nat.
Proof. repeat apply conj; vm_compute; reflexivity. Qed.

(** The PongActor managed, before Manager::init. *)
Definition managed_world : World :=
  world_of (Manager_manage example_env 0 1 [0] 10 SCHED_FIFO manager_world)
    manager_world.

Definition the_manager : Actor :=
  default QuietActor (actors managed_world !! 0%nat).

Definition inited_world : World :=
  world_of (Manager_init example_env (fast_send example_env 2) 0 managed_world)
    managed_world.


(** The operating-system calls that init makes for the PongActor. *)
Example init_os_calls :
  filter (λ c, is_os_call c = true) (map ev_call (trace inited_world))
  = [OsThread 1; OsSetAffinity 1 [0]; OsSetSchedParam 1 SCHED_FIFO 10].
Proof. vm_compute; reflexivity. Qed.

(* --------------------------------------------------------------------- *)
(** ** A Ping on its way to the remote PongActor *)

(** The sending process: the actor at address 1 sends a Ping through the
    ZmqSender at address 2. *)
Definition remote_ping_world : World :=
  with_messages {[ 7%nat := Message_new Ping good_payload ]} remote_world.

Definition Ping_entry : RegistryEntry :=
  mkRegistryEntry "Ping" body Ping_deserialize.

Definition Reject_entry : RegistryEntry :=
  mkRegistryEntry "Reject" body (λ j, Decoded (Message_new Reject j)).

Lemma remote_send_arrives_witness :
  (∃ w1, send_to example_env 2 "tcp://localhost:5001" "pong" 7 (Some 1%nat)
           remote_ping_world = Ok (tt, w1)) ∧
  handle_remote_message example_env pong_receiver
    (envelope_of "PongActor" "tcp://localhost:5001" "pong" "Ping" good_payload)
    remote_world
  = deliver pong_receiver
      (frame_sender "PongActor" "tcp://localhost:5001") 1
      (Message_new Ping good_payload) remote_world.
Proof.
  assert (type_name Ping_entry ≠ "") as Hn by discriminate.
  destruct (remote_send_arrives example_env 2 "tcp://localhost:5001" "pong"
              7 (Some 1%nat) remote_ping_world
              (Actor_new (ZmqSenderClass "tcp://localhost:5001") "ZmqSender")
              "tcp://localhost:5001" (Message_new Ping good_payload)
              Ping_entry "PongActor" "tcp://localhost:5001"
              eq_refl eq_refl eq_refl eq_refl eq_refl eq_refl Hn eq_refl)
    as (w1 & z1 & p & req & Hsend & _ & _ & _ & _ & _ & Hrecv).
  split; [by exists w1|].
  exact (Hrecv pong_receiver 1%nat Ping_entry (Message_new Ping good_payload)
           remote_world eq_refl eq_refl eq_refl).
Defined.

(** Pong is not registered for serialization: send_to deletes the
    message and reads it again for the text of the exception. *)
Example send_to_unregistered_class :
  send_to example_env 2 "tcp://localhost:5001" "pong" 7 None
    (with_messages {[ 7%nat := Message_new Pong JNull ]} remote_world)
  = Err DanglingPointer.
Proof. vm_compute; reflexivity. Qed.

(** The Ping arrives: one send to the PongActor, and the reply proxy
    names the sending actor and the endpoint of its process. *)
Example ping_arrives :
  let r := handle_remote_message example_env pong_receiver
             (envelope_of "PongActor" "tcp://localhost:5001" "pong" "Ping"
                good_payload) remote_world in
  map ev_call (trace (world_of r remote_world))
  = [CallSend 1 0 (Some 3%nat)] ∧
  (cls <$> actors (world_of r remote_world) !! 3%nat)
  = Some (RemoteReplyProxyClass 2 "PongActor" "tcp://localhost:5001") ∧
  (body <$> messages (world_of r remote_world) !! 0%nat) = Some good_payload.
Proof. repeat apply conj; vm_compute; reflexivity. Qed.

Lemma reject_is_not_answered_witness :
  ∃ w1 p req envelope,
    send_reject example_env pong_receiver "tcp://localhost:5002" "ping" "Ping"
      "Unknown message type: Ping" "pong" remote_world = Ok (tt, w1) ∧
    messages w1 !! p = Some req ∧
    (∀ s, on_send_request req s
          = Some (send_raw "tcp://localhost:5002" envelope s)) ∧
    (∀ rx2 w2 rx2' w2',
       handle_remote_message example_env rx2 envelope w2 = Ok (rx2', w2') →
       rx2' = rx2 ∧
       (w2' = w2 ∨
        ∃ target,
          trace w2' =
          trace w2 ++
          [Ev (CallSend target (fresh (dom (messages w2))) None) []])).
Proof.
  assert (type_name Reject_entry ≠ "") as Hn by discriminate.
  destruct (reject_is_not_answered example_env pong_receiver
              "tcp://localhost:5002" "ping" "Ping"
              "Unknown message type: Ping" "pong" remote_world
              (Actor_new (ZmqSenderClass "tcp://localhost:5001") "ZmqSender")
              "tcp://localhost:5001" Reject_entry
              eq_refl eq_refl eq_refl eq_refl eq_refl Hn)
    as (w1 & z1 & p & req & envelope & Hsend & _ & _ & Hreq & Hwire & Hrecv).
  exists w1, p, req, envelope. exact (conj Hsend (conj Hreq (conj Hwire Hrecv))).
Defined.

(** The Reject as it arrives at a process that has an actor ping and a
    decoder for Reject: one send without a sender, no proxy. *)
Example reject_arrives :
  let r := handle_remote_message example_env
             (mkZmqReceiver 2 {[ "ping" := 1%nat ]} [])
             (envelope_of "" "" "ping" "Reject"
                (body (Reject_new "Ping" "Unknown message type: Ping" "pong")))
             remote_world in
  map ev_call (trace (world_of r remote_world)) = [CallSend 1 0 None] ∧
  (proxies_ <$> value_of r) = Some [].
Proof. repeat apply conj; vm_compute; reflexivity. Qed.

Lemma registration_decides_routing_witness :
  (∀ rx' w',
     handle_remote_message example_env
       (register_actor (register_actor (mkZmqReceiver 2 ∅ []) "pong" 5) "pong" 1)
       (JObject (frame_fields good_payload)) remote_world = Ok (rx', w') →
     ∃ reply_actor,
       trace w' =
       trace remote_world ++
       [Ev (CallSend 1 (fresh (dom (messages remote_world))) reply_actor) []]) ∧
  (∀ rx' w',
     handle_remote_message example_env
       (unregister_actor (register_actor (mkZmqReceiver 2 ∅ []) "pong" 1) "pong")
       (JObject (frame_fields good_payload)) remote_world = Ok (rx', w') →
     ∃ inner,
       trace w' =
       trace remote_world ++
       [Ev (CallSendTo 2 "tcp://localhost:5002" "ping"
              (Reject_new "Ping" ("Actor '" ++ "pong" ++ "' not found") "pong")
              None) inner]).
Proof.
  assert (parsed_envelope (frame_fields good_payload)
            (Some ("ping", "tcp://localhost:5002")) "pong" "Ping" good_payload)
    as Hp by (repeat apply conj; reflexivity).
  exact (registration_decides_routing example_env (mkZmqReceiver 2 ∅ [])
           "pong" 5%nat 1%nat (frame_fields good_payload)
           (Some ("ping", "tcp://localhost:5002")) "Ping" good_payload
           Ping_entry (Message_new Ping good_payload) remote_world
           Hp eq_refl eq_refl).
Defined.

(** Both cases run: the frame is delivered to the actor registered last,
    and after unregister_actor it is answered with a Reject. *)
Example registered_and_unregistered :
  map ev_call
    (trace (world_of
       (handle_remote_message example_env
          (register_actor (register_actor (mkZmqReceiver 2 ∅ []) "pong" 5)
             "pong" 1)
          (JObject (frame_fields good_payload)) remote_world) remote_world))
  = [CallSend 1 0 (Some 3%nat)] ∧
  map ev_call
    (trace (world_of
       (handle_remote_message example_env
          (unregister_actor (register_actor (mkZmqReceiver 2 ∅ []) "pong" 1)
             "pong")
          (JObject (frame_fields good_payload)) remote_world) remote_world))
  = [CallSendTo 2 "tcp://localhost:5002" "ping"
       (Reject_new "Ping" "Actor 'pong' not found" "pong") None].
Proof. repeat apply conj; vm_compute; reflexivity. Qed.

(* --------------------------------------------------------------------- *)
(** ** The sockets of the ZmqSender *)

(** Two endpoint strings for the same address get a socket each. *)
Example sockets_by_endpoint_string :
  connect_endpoint "tcp://*:5001" = "tcp://localhost:5001" ∧
  connect_endpoint "tcp://0.0.0.0:5001" = "tcp://localhost:5001" ∧
  connect_endpoint "tcp://localhost:5001" = "tcp://localhost:5001" ∧
  send_raw_all [("tcp://*:5001", JNumber 1); ("tcp://localhost:5001", JNumber 2);
                ("tcp://*:5001", JNumber 3)] ∅
  = {[ "tcp://*:5001" := ("tcp://localhost:5001", [JNumber 1; JNumber 3]);
       "tcp://localhost:5001" := ("tcp://localhost:5001", [JNumber 2]) ]}.
Proof. repeat apply conj; vm_compute; reflexivity. Qed.
End Runtime.
